(** * SmartAisle: product resolution and shopping-route optimisation

    A shallow embedding of [services/productService.ts] (the retailer
    adapters and [ProductService.getProductInfo]) and of the route screen
    ([getAisleNumber], [optimizeRoute], [organizeByStore]), together with the
    parts of the JavaScript runtime and of the libraries (axios, axios-retry,
    cheerio) that this code calls; and of the callers around them: the
    scanner ([handleBarCodeScanned]), the handlers of the pantry screen and
    of the shopping-list screen, and [loadPantryItems] of the route screen.

    Conventions of the embedding:
    - a JavaScript string is a [string] of code units below 256 (the
      Latin-1 range of UTF-16); white space and letter case are those of
      that range;
    - a JavaScript Number is an IEEE-754 binary64 value, [spec_float] with a
      53-bit significand;
    - item quantities are integers ([Z]); aisle numbers are Numbers, as
      [parseInt] returns them;
    - asynchronous code is run to completion in program order, as a state
      and exception monad over the network ([Js]); the two store finders
      that [Promise.all] runs together are run one after the other;
    - the body of an HTTP reply is markup, given as the document that
      cheerio loads from it, or [null], which cheerio refuses to load;
    - delays between retries and the wall-clock field [lastUpdated] are not
      represented;
    - a list kept in AsyncStorage is the parsed value of the stored text;
      the random id of a new pantry item and the time of a scan are
      parameters of the handlers. *)

From Stdlib Require Import ZArith List String Ascii Bool Lia.
From Stdlib Require Import Permutation Sorted.
From Stdlib Require Import Floats.SpecFloat.
Import ListNotations.

Local Open Scope string_scope.
Local Open Scope list_scope.
Local Open Scope Z_scope.

(** ** JavaScript strings *)

(** White space and line terminators, as [trim], [parseFloat] and the
    regular expression class [\s] know them: TAB, LF, VT, FF, CR, the space
    and, at code unit 160, the no-break space. *)
Definition isWhiteSpace (c : ascii) : bool :=
  let n := nat_of_ascii c in
  ((9 <=? n) && (n <=? 13))%nat || (n =? 32)%nat || (n =? 160)%nat.

Definition isDigit (c : ascii) : bool :=
  let n := nat_of_ascii c in ((48 <=? n) && (n <=? 57))%nat.

Fixpoint trimStart (s : string) : string :=
  match s with
  | String c r => if isWhiteSpace c then trimStart r else s
  | EmptyString => EmptyString
  end.

(** [trimEnd] keeps a character when it is not white space or when something
    is left after it. *)
Fixpoint trimEnd (s : string) : string :=
  match s with
  | String c r =>
      match trimEnd r with
      | EmptyString => if isWhiteSpace c then EmptyString else String c EmptyString
      | r' => String c r'
      end
  | EmptyString => EmptyString
  end.

Definition trim (s : string) : string := trimEnd (trimStart s).

(** The lower-case form of a code unit: of the letters A to Z, and of the
    capital letters from code unit 192 to 222 (the multiplication sign at
    215 is no letter). *)
Definition lowerChar (c : ascii) : ascii :=
  let n := nat_of_ascii c in
  if ((65 <=? n) && (n <=? 90))%nat
     || ((192 <=? n) && (n <=? 222) && negb (n =? 215))%nat
  then ascii_of_nat (n + 32) else c.

Fixpoint toLowerCase (s : string) : string :=
  match s with
  | String c r => String (lowerChar c) (toLowerCase r)
  | EmptyString => EmptyString
  end.

Fixpoint startsWith (pat s : string) : bool :=
  match pat, s with
  | EmptyString, _ => true
  | String a p, String b r => Ascii.eqb a b && startsWith p r
  | String _ _, EmptyString => false
  end.

(** [s.includes(pat)] *)
Fixpoint includes (s pat : string) : bool :=
  startsWith pat s ||
  match s with
  | String _ r => includes r pat
  | EmptyString => false
  end.

Fixpoint skip (n : nat) (s : string) : string :=
  match n, s with
  | S k, String _ r => skip k r
  | _, _ => s
  end.

(** [s.replace(pat, repl)] with a string pattern: the first occurrence only. *)
Fixpoint replace (s pat repl : string) : string :=
  if startsWith pat s then repl ++ skip (String.length pat) s
  else match s with
       | String c r => String c (replace r pat repl)
       | EmptyString => EmptyString
       end.

(** A string is falsy exactly when it is empty. *)
Definition truthy (s : string) : bool :=
  match s with EmptyString => false | _ => true end.

(** [s || d] on strings. *)
Definition orString (s d : string) : string := if truthy s then s else d.

(** The longest run of decimal digits at the head of [s], and the rest. *)
Fixpoint spanDigits (s : string) : string * string :=
  match s with
  | String c r =>
      if isDigit c then let (d, t) := spanDigits r in (String c d, t)
      else (EmptyString, s)
  | EmptyString => (EmptyString, EmptyString)
  end.

Definition digitValue (c : ascii) : Z := Z.of_nat (nat_of_ascii c) - 48.

(** Value of a digit string, most significant digit first. *)
Fixpoint digitsValue (acc : Z) (s : string) : Z :=
  match s with
  | String c r => digitsValue (10 * acc + digitValue c) r
  | EmptyString => acc
  end.

(** ** JavaScript numbers *)

Definition number := spec_float.

Definition prec : Z := 53.
Definition emax : Z := 1024.

Definition NaN : number := S754_nan.
Definition Infinity : number := S754_infinity false.

(** A Number is falsy when it is [NaN], [+0] or [-0]. *)
Definition falsy (x : number) : bool :=
  match x with
  | S754_nan | S754_zero _ => true
  | _ => false
  end.

(** [x || d] on numbers. *)
Definition orNumber (x d : number) : number := if falsy x then d else x.

Definition isNaN (x : number) : bool :=
  match x with S754_nan => true | _ => false end.

(** [x < 0] and [x > 0]; both are false on [NaN] and on the zeros. *)
Definition isNegative (x : number) : bool := SFltb x (S754_zero false).
Definition isPositive (x : number) : bool := SFltb (S754_zero false) x.

Definition subNumber (x y : number) : number := SFsub prec emax x y.

(** The Number nearest to [(-1)^neg * m * 10^e] (round to nearest, ties to
    even), as [StringNumericValue] prescribes for a decimal literal. *)
Definition decimalToNumber (neg : bool) (m : Z) (e : Z) : number :=
  match m with
  | Zpos p =>
      if 0 <=? e
      then binary_normalize prec emax
             (if neg then - (m * 10 ^ e) else m * 10 ^ e) 0 false
      else SFdiv prec emax (S754_finite neg p 0)
             (S754_finite false (Z.to_pos (10 ^ (- e))) 0)
  | _ => S754_zero neg
  end.

(** The exponent part [e[+-]ddd] of a decimal literal; it counts only when at
    least one digit follows. *)
Definition exponentPart (s : string) : Z :=
  match s with
  | String c r =>
      if Ascii.eqb c "e" || Ascii.eqb c "E" then
        match r with
        | String "-" t =>
            let (d, _) := spanDigits t in - digitsValue 0 d
        | String "+" t =>
            let (d, _) := spanDigits t in digitsValue 0 d
        | _ => let (d, _) := spanDigits r in digitsValue 0 d
        end
      else 0
  | EmptyString => 0
  end.

(** An unsigned [StrDecimalLiteral] at the head of [s]:
    [Infinity], [ddd], [ddd.], [ddd.ddd] or [.ddd], then an optional
    exponent; [NaN] when [s] starts with none of these. *)
Definition parseUnsigned (neg : bool) (s : string) : number :=
  if startsWith "Infinity" s then S754_infinity neg
  else
    let (ip, r1) := spanDigits s in
    let (fp, r2) :=
      match r1 with
      | String "." t => spanDigits t
      | _ => (EmptyString, r1)
      end in
    if truthy ip || truthy fp
    then decimalToNumber neg (digitsValue 0 (ip ++ fp))
           (exponentPart r2 - Z.of_nat (String.length fp))
    else NaN.

(** [parseFloat(s)]: leading white space is skipped, then the longest prefix
    that is a signed decimal literal is read. *)
Definition parseFloat (s : string) : number :=
  match trimStart s with
  | String "-" r => parseUnsigned true r
  | String "+" r => parseUnsigned false r
  | t => parseUnsigned false t
  end.

(** The Number for an integer: the integer itself when it is a Number, the
    nearest Number (ties to even) otherwise. *)
Definition ofInteger (n : Z) : number := binary_normalize prec emax n 0 false.

(** [parseInt] on a run of decimal digits.  Past the twentieth digit an
    implementation may read zeros for the digits; the nearest Number is
    taken here. *)
Definition parseInt (digits : string) : number := ofInteger (digitsValue 0 digits).

(** [s.match(/\d+/)]: the first maximal run of digits of [s], if any. *)
Fixpoint matchDigits (s : string) : option string :=
  match s with
  | String c r =>
      if isDigit c then Some (fst (spanDigits s)) else matchDigits r
  | EmptyString => None
  end.

(** ** [Array.prototype.sort]

    The sort is stable and inspects only the sign of what the comparator
    returns: a positive value puts the first argument after the second, and
    anything else ([NaN] included) leaves them in order.  With a consistent
    comparator every stable sort gives the same array; it is written here as
    an insertion sort. *)
Section ArraySort.
Context {A R : Type}.
Variable positive : R -> bool.
Variable comparefn : A -> A -> R.

Fixpoint insertSorted (x : A) (l : list A) : list A :=
  match l with
  | y :: r =>
      if positive (comparefn x y) then y :: insertSorted x r else x :: l
  | [] => [x]
  end.

Fixpoint sortWith (l : list A) : list A :=
  match l with
  | x :: r => insertSorted x (sortWith r)
  | [] => []
  end.
End ArraySort.

(** [arr.slice(start, end)] for in-range, non-negative indices. *)
Definition slice {A : Type} (start stop : nat) (l : list A) : list A :=
  firstn (stop - start) (skipn start l).

(** ** The document tree that cheerio queries *)

#[warnings="-register-all"]
Inductive Node : Type :=
  | TextNode (data : string)
  | Element (name : string) (attribs : list (string * string))
            (children : list Node).

Definition Document := list Node.

Fixpoint lookupAttr (name : string) (attribs : list (string * string))
  : option string :=
  match attribs with
  | (k, v) :: r => if String.eqb k name then Some v else lookupAttr name r
  | [] => None
  end.

(** White-space separated words of a string. *)
Fixpoint splitWords (cur s : string) : list string :=
  match s with
  | String c r =>
      if isWhiteSpace c
      then (if truthy cur then [cur] else []) ++ splitWords EmptyString r
      else splitWords (cur ++ String c EmptyString)%string r
  | EmptyString => if truthy cur then [cur] else []
  end.

Definition memString (x : string) (l : list string) : bool :=
  existsb (String.eqb x) l.

(** One simple selector: [.cls] or a tag name. *)
Definition matches (sel : string) (n : Node) : bool :=
  match n with
  | Element name attribs _ =>
      match sel with
      | String "." cls =>
          match lookupAttr "class" attribs with
          | Some v => memString cls (splitWords EmptyString v)
          | None => false
          end
      | _ => String.eqb sel name
      end
  | TextNode _ => false
  end.

(** Elements of the subtree of [n], in document order, that match the last
    simple selector of [pending] below ancestors matching the earlier ones. *)
Fixpoint selectIn (pending : list string) (n : Node) : list Node :=
  match n with
  | Element _ _ kids =>
      match pending with
      | [] => []
      | [c] => (if matches c n then [n] else []) ++ flat_map (selectIn [c]) kids
      | c :: rest =>
          flat_map (selectIn (if matches c n then rest else pending)) kids
      end
  | TextNode _ => []
  end.

(** [$(selector)] on a loaded document. *)
Definition select (doc : Document) (selector : string) : list Node :=
  flat_map (selectIn (splitWords EmptyString selector)) doc.

(** [$(element).find(selector)]: matches among the descendants. *)
Definition find (element : Node) (selector : string) : list Node :=
  match element with
  | Element _ _ kids => flat_map (selectIn (splitWords EmptyString selector)) kids
  | TextNode _ => []
  end.

Fixpoint textContent (n : Node) : string :=
  match n with
  | TextNode data => data
  | Element _ _ kids =>
      fold_right (fun k acc => (textContent k ++ acc)%string) EmptyString kids
  end.

(** [.text()]: the text of every element of the selection, concatenated. *)
Definition text (selection : list Node) : string :=
  fold_right (fun n acc => (textContent n ++ acc)%string) EmptyString selection.

(** [.attr(name)]: the attribute of the first element of the selection. *)
Definition attr (selection : list Node) (name : string) : option string :=
  match selection with
  | Element _ attribs _ :: _ => lookupAttr name attribs
  | _ => None
  end.

(** [v || ''] on the result of [.attr]. *)
Definition orEmpty (v : option string) : string :=
  match v with Some s => s | None => EmptyString end.

(** ** axios with the axios-retry interceptor *)

(** The body of a reply, as [response.data] holds it: markup, given as the
    document that cheerio loads from it, or no data at all ([null]). *)
Inductive Body : Type :=
  | Markup (document : Document)
  | NoData.

(** What the network does with one attempt: a reply with a status code and a
    body, or no reply and an error code. *)
Inductive Outcome : Type :=
  | Replied (status : Z) (data : Body)
  | Failed (code : option string).

Record AxiosError : Type := mkAxiosError {
  code : option string;
  response : option Z;     (* [error.response.status] *)
  method : option string   (* [error.config.method] *)
}.

(** The network answers the [n]-th attempt made so far to a URL; [attempts]
    counts the attempts already made. *)
Record World : Type := mkWorld {
  net : nat -> string -> Outcome;
  attempts : nat
}.

(** What JavaScript code can throw here: a rejected axios request, a
    [TypeError] of the runtime, or an [Error] of a library. *)
Inductive Exception : Type :=
  | AxiosFailure (error : AxiosError)
  | TypeError (message : string)
  | Error (message : string).

Inductive Result (A : Type) : Type :=
  | Ok (value : A)
  | Throw (error : Exception).
Arguments Ok {A} value.
Arguments Throw {A} error.

Definition Js (A : Type) : Type := World -> Result A * World.

Definition ret {A : Type} (a : A) : Js A := fun w => (Ok a, w).

Definition throw {A : Type} (e : Exception) : Js A := fun w => (Throw e, w).

Definition bind {A B : Type} (m : Js A) (k : A -> Js B) : Js B :=
  fun w =>
    match m w with
    | (Ok a, w') => k a w'
    | (Throw e, w') => (Throw e, w')
    end.

(** [try { body } catch (error) { handler }] *)
Definition tryCatch {A : Type} (body : Js A) (handler : Exception -> Js A)
  : Js A :=
  fun w =>
    match body w with
    | (Ok a, w') => (Ok a, w')
    | (Throw e, w') => handler e w'
    end.

Notation "x <- m ;; k" := (bind m (fun x => k))
  (at level 61, m at next level, right associativity).

Definition codeIs (e : AxiosError) (c : string) : bool :=
  match code e with
  | Some c' => String.eqb c' c
  | None => false
  end.

Definition statusIs (e : AxiosError) (p : Z -> bool) : bool :=
  match response e with
  | Some s => p s
  | None => false
  end.

Definition hasResponse (e : AxiosError) : bool :=
  match response e with Some _ => true | None => false end.

(** The error codes that the [is-retry-allowed] package refuses. *)
Definition denyList : list string :=
  [ "ENOTFOUND"; "ENETUNREACH";
    "UNABLE_TO_GET_ISSUER_CERT"; "UNABLE_TO_GET_CRL";
    "UNABLE_TO_DECRYPT_CERT_SIGNATURE"; "UNABLE_TO_DECRYPT_CRL_SIGNATURE";
    "UNABLE_TO_DECODE_ISSUER_PUBLIC_KEY"; "CERT_SIGNATURE_FAILURE";
    "CRL_SIGNATURE_FAILURE"; "CERT_NOT_YET_VALID"; "CERT_HAS_EXPIRED";
    "CRL_NOT_YET_VALID"; "CRL_HAS_EXPIRED";
    "ERROR_IN_CERT_NOT_BEFORE_FIELD"; "ERROR_IN_CERT_NOT_AFTER_FIELD";
    "ERROR_IN_CRL_LAST_UPDATE_FIELD"; "ERROR_IN_CRL_NEXT_UPDATE_FIELD";
    "OUT_OF_MEM"; "DEPTH_ZERO_SELF_SIGNED_CERT"; "SELF_SIGNED_CERT_IN_CHAIN";
    "UNABLE_TO_GET_ISSUER_CERT_LOCALLY"; "UNABLE_TO_VERIFY_LEAF_SIGNATURE";
    "CERT_CHAIN_TOO_LONG"; "CERT_REVOKED"; "INVALID_CA";
    "PATH_LENGTH_EXCEEDED"; "INVALID_PURPOSE"; "CERT_UNTRUSTED";
    "CERT_REJECTED"; "HOSTNAME_MISMATCH" ].

Definition isRetryAllowed (e : AxiosError) : bool :=
  match code e with
  | Some c => negb (memString c denyList)
  | None => true
  end.

(** axios-retry's [isNetworkError]: no response, an error code, not a
    cancellation or timeout, and a code that may be retried. *)
Definition isNetworkError (e : AxiosError) : bool :=
  negb (hasResponse e)
  && (match code e with Some c => truthy c | None => false end)
  && negb (codeIs e "ERR_CANCELED" || codeIs e "ECONNABORTED")
  && isRetryAllowed e.

(** axios-retry's [isRetryableError]: not a timeout, and no response or a
    5xx status. *)
Definition isRetryableError (e : AxiosError) : bool :=
  negb (codeIs e "ECONNABORTED")
  && (negb (hasResponse e) || statusIs e (fun s => (500 <=? s) && (s <=? 599))).

Definition IDEMPOTENT_HTTP_METHODS : list string :=
  ["get"; "head"; "options"; "put"; "delete"].

Definition isIdempotentRequestError (e : AxiosError) : bool :=
  match method e with
  | Some m => truthy m && isRetryableError e && memString m IDEMPOTENT_HTTP_METHODS
  | None => false
  end.

Definition isNetworkOrIdempotentRequestError (e : AxiosError) : bool :=
  isNetworkError e || isIdempotentRequestError e.

(** The options passed to [axiosRetry] in productService.ts. *)
Definition retries : nat := 3.

Definition retryCondition (error : AxiosError) : bool :=
  isNetworkOrIdempotentRequestError error
  || statusIs error (fun s => s =? 429).

(** axios' default [validateStatus]. *)
Definition validateStatus (status : Z) : bool :=
  (200 <=? status) && (status <? 300).

(** The [code] axios gives to an error that carries a response. *)
Definition statusCode (status : Z) : option string :=
  if (400 <=? status) && (status <? 500) then Some "ERR_BAD_REQUEST"
  else if (500 <=? status) && (status <? 600) then Some "ERR_BAD_RESPONSE"
  else None.

(** One attempt of a GET request. *)
Definition attempt (url : string) : Js Body :=
  fun w =>
    let w' := mkWorld (net w) (S (attempts w)) in
    match net w (attempts w) url with
    | Replied status data =>
        if validateStatus status then (Ok data, w')
        else (Throw (AxiosFailure (mkAxiosError (statusCode status)
                                     (Some status) (Some "get"))), w')
    | Failed c => (Throw (AxiosFailure (mkAxiosError c None (Some "get"))), w')
    end.

(** The response interceptor of axios-retry: a failed attempt is repeated
    while [retryCount < retries] and [retryCondition(error)]; [budget] is
    [retries - retryCount]. *)
Fixpoint requestWithRetry (budget : nat) (url : string) : Js Body :=
  fun w =>
    match attempt url w with
    | (Ok data, w') => (Ok data, w')
    | (Throw (AxiosFailure error), w') =>
        match budget with
        | S b =>
            if retryCondition error then requestWithRetry b url w'
            else (Throw (AxiosFailure error), w')
        | O => (Throw (AxiosFailure error), w')
        end
    | (Throw other, w') => (Throw other, w')
    end.

(** [axios.get(url, ...)], as far as [response.data]; the request headers do
    not influence the model. *)
Definition axiosGet (url : string) : Js Body :=
  requestWithRetry retries url.

(** [cheerio.load(response.data)], which refuses [null]. *)
Definition load (data : Body) : Js Document :=
  match data with
  | Markup document => ret document
  | NoData => throw (Error "cheerio.load() expects a string")
  end.

(** ** services/productService.ts *)

Inductive Chain : Type := walmart | target.

Module StoreLocation.
Record t : Type := mk {
  storeId : string;
  name : string;
  address : string;
  distance : option number;
  chain : Chain
}.
End StoreLocation.

Module StoreInventory.
Record t : Type := mk {
  storeId : string;
  chain : Chain;
  inStock : bool;
  quantity : option number;
  aisle : string;
  price : option number
}.
End StoreInventory.

Module ProductInfo.
Record t : Type := mk {
  name : string;
  image : string;
  barcode : string;
  inventory : StoreInventory.t;
  alternativeStores : option (list StoreInventory.t);
  brand : option string
}.

(** [productInfo.inventory = inventory] *)
Definition setInventory (p : t) (i : StoreInventory.t) : t :=
  mk (name p) (image p) (barcode p) i (alternativeStores p) (brand p).

(** [productInfo.alternativeStores = alternativeStores] *)
Definition setAlternativeStores (p : t) (a : list StoreInventory.t) : t :=
  mk (name p) (image p) (barcode p) (inventory p) (Some a) (brand p).
End ProductInfo.

(** [x || undefined] on numbers. *)
Definition orUndefined (x : number) : option number :=
  if falsy x then None else Some x.

(** [d || Infinity] on an optional number. *)
Definition orInfinity (d : option number) : number :=
  match d with
  | Some x => orNumber x Infinity
  | None => Infinity
  end.

(** The callback of [$('.store-list-item').each] in the two store finders. *)
Definition storeOfElement (c : Chain) (element : Node) : StoreLocation.t :=
  let storeId := orEmpty (attr [element] "data-store-id") in
  let name := trim (text (find element ".store-name")) in
  let address := trim (text (find element ".store-address")) in
  let distanceText := trim (text (find element ".distance")) in
  let distance := parseFloat (trim (replace distanceText "miles" "")) in
  StoreLocation.mk storeId name address (Some distance) c.

Definition findWalmartStores (zipCode : string) : Js (list StoreLocation.t) :=
  tryCatch
    (response <- axiosGet ("https://www.walmart.com/store/finder?location=" ++ zipCode) ;;
     doc <- load response ;;
     ret (map (storeOfElement walmart) (select doc ".store-list-item")))
    (fun error => ret []).

Definition findTargetStores (zipCode : string) : Js (list StoreLocation.t) :=
  tryCatch
    (response <- axiosGet ("https://www.target.com/store-locator/find-stores?address=" ++ zipCode) ;;
     doc <- load response ;;
     ret (map (storeOfElement target) (select doc ".store-list-item")))
    (fun error => ret []).

Definition getWalmartInventory (storeId barcode : string)
  : Js (option StoreInventory.t) :=
  tryCatch
    (response <- axiosGet ("https://www.walmart.com/ip/" ++ barcode) ;;
     doc <- load response ;;
     let inStockText := toLowerCase (text (select doc ".fulfillment-status")) in
     let priceText := trim (text (select doc ".price-main")) in
     let aisleText := trim (text (select doc ".aisle-location")) in
     ret (Some (StoreInventory.mk
                  storeId
                  walmart
                  (includes inStockText "in stock")
                  None
                  (orString aisleText "Ask store associate")
                  (orUndefined (parseFloat (replace priceText "$" ""))))))
    (fun error => ret None).

Definition getTargetInventory (storeId barcode : string)
  : Js (option StoreInventory.t) :=
  tryCatch
    (response <- axiosGet ("https://www.target.com/p/a/" ++ barcode) ;;
     doc <- load response ;;
     let inStockText := toLowerCase (text (select doc ".fulfillment-status")) in
     let priceText := trim (text (select doc ".price")) in
     let aisleText := trim (text (select doc ".aisle-location")) in
     ret (Some (StoreInventory.mk
                  storeId
                  target
                  (includes inStockText "in stock")
                  None
                  (orString aisleText "Ask store associate")
                  (orUndefined (parseFloat (replace priceText "$" ""))))))
    (fun error => ret None).

(** The placeholder inventory of a freshly scraped product. *)
Definition unknownInventory (c : Chain) : StoreInventory.t :=
  StoreInventory.mk "unknown" c false None "unknown" None.

Definition scrapeWalmartProduct (barcode : string) : Js (option ProductInfo.t) :=
  tryCatch
    (response <- axiosGet ("https://www.walmart.com/ip/" ++ barcode) ;;
     doc <- load response ;;
     let name := trim (text (select doc ".prod-title")) in
     let image := orEmpty (attr (select doc ".prod-image img") "src") in
     let brand := trim (text (select doc ".prod-brand")) in
     if negb (truthy name) then ret None
     else ret (Some (ProductInfo.mk name image barcode
                       (unknownInventory walmart) None (Some brand))))
    (fun error => ret None).

Definition scrapeTargetProduct (barcode : string) : Js (option ProductInfo.t) :=
  tryCatch
    (response <- axiosGet ("https://www.target.com/p/a/" ++ barcode) ;;
     doc <- load response ;;
     let name := trim (text (select doc ".product-name")) in
     let image := orEmpty (attr (select doc ".product-image img") "src") in
     let brand := trim (text (select doc ".product-brand")) in
     if negb (truthy name) then ret None
     else ret (Some (ProductInfo.mk name image barcode
                       (unknownInventory target) None (Some brand))))
    (fun error => ret None).

(** The conditional on [store.chain] that picks the inventory adapter. *)
Definition getInventory (store : StoreLocation.t) (barcode : string)
  : Js (option StoreInventory.t) :=
  match StoreLocation.chain store with
  | walmart => getWalmartInventory (StoreLocation.storeId store) barcode
  | target => getTargetInventory (StoreLocation.storeId store) barcode
  end.

(** [inventory?.inStock] as a condition: false on [null]. *)
Definition inStockOf (inventory : option StoreInventory.t) : bool :=
  match inventory with
  | Some i => StoreInventory.inStock i
  | None => false
  end.

(** The comparator of the candidate sort. *)
Definition byDistance (a b : StoreLocation.t) : number :=
  subNumber (orInfinity (StoreLocation.distance a))
            (orInfinity (StoreLocation.distance b)).

(** [[...walmartStores, ...targetStores].sort(...)] *)
Definition sortStores (walmartStores targetStores : list StoreLocation.t)
  : list StoreLocation.t :=
  sortWith isPositive byDistance (walmartStores ++ targetStores).

(** The loop over [allStores.slice(1, 4)]; [alternativeStores] is the array
    being filled. *)
Fixpoint checkAlternatives (stores : list StoreLocation.t) (barcode : string)
    (alternativeStores : list StoreInventory.t) : Js (list StoreInventory.t) :=
  match stores with
  | store :: rest =>
      storeInventory <- getInventory store barcode ;;
      checkAlternatives rest barcode
        (match storeInventory with
         | Some i =>
             if StoreInventory.inStock i then alternativeStores ++ [i]
             else alternativeStores
         | None => alternativeStores
         end)
  | [] => ret alternativeStores
  end.

(** A zip code is used when it is given and not empty. *)
Definition zipGiven (zipCode : option string) : option string :=
  match zipCode with
  | Some z => if truthy z then Some z else None
  | None => None
  end.

(** The body of [if (zipCode) { ... }] in [getProductInfo]: the stores of
    both chains are merged and sorted, the nearest one is asked for the
    product and, when it has none, the next three.  [Promise.all] starts the
    Walmart finder before the Target one; the two are run here in that
    order. *)
Definition resolveInventory (productInfo : ProductInfo.t)
    (barcode zipCode : string) : Js ProductInfo.t :=
  walmartStores <- findWalmartStores zipCode ;;
  targetStores <- findTargetStores zipCode ;;
  let allStores := sortStores walmartStores targetStores in
  match allStores with
  | nearestStore :: _ =>
      inventory <- getInventory nearestStore barcode ;;
      let productInfo :=
        match inventory with
        | Some i => ProductInfo.setInventory productInfo i
        | None => productInfo
        end in
      if negb (inStockOf inventory) then
        alternativeStores <- checkAlternatives (slice 1 4 allStores) barcode [] ;;
        ret (match alternativeStores with
             | _ :: _ => ProductInfo.setAlternativeStores productInfo alternativeStores
             | [] => productInfo
             end)
      else ret productInfo
  | [] => ret productInfo
  end.

Definition getProductInfo (barcode : string) (zipCode : option string)
  : Js (option ProductInfo.t) :=
  tryCatch
    (fromWalmart <- scrapeWalmartProduct barcode ;;
     found <- match fromWalmart with
              | Some p => ret (Some p)
              | None => scrapeTargetProduct barcode
              end ;;
     match found with
     | None => ret None
     | Some productInfo =>
         match zipGiven zipCode with
         | Some zip =>
             productInfo <- resolveInventory productInfo barcode zip ;;
             ret (Some productInfo)
         | None => ret (Some productInfo)
         end
     end)
    (fun error => ret None).

(** ** The route screen: [getAisleNumber], [optimizeRoute], [organizeByStore] *)

Module PriceInfo.
Record t : Type := mk {
  store : string;
  price : number;
  distance : number;
  address : string;
  timestamp : Z
}.
End PriceInfo.

Module PantryItem.
Record t : Type := mk {
  id : string;
  barcode : string;
  name : string;
  quantity : Z;
  dateAdded : Z;
  image : string;
  prices : list PriceInfo.t;
  aisle : option string
}.
End PantryItem.

Module StoreRoute.
Record t : Type := mk {
  store : string;
  items : list PantryItem.t;
  optimizedPath : list PantryItem.t;
  totalItems : Z
}.
End StoreRoute.

(** [aisle] is falsy when it is [null] or the empty string. *)
Definition getAisleNumber (aisle : option string) : number :=
  match aisle with
  | Some a =>
      if negb (truthy a) then ofInteger 999
      else match matchDigits a with
           | Some m => parseInt m
           | None => ofInteger 998
           end
  | None => ofInteger 999
  end.

(** *** Plain objects and [Map]s keyed by strings

    Both remember the order in which their keys were created; they are kept
    as association lists in that order. *)

Fixpoint lookup {V : Type} (k : string) (m : list (string * V)) : option V :=
  match m with
  | (k', v) :: r => if String.eqb k' k then Some v else lookup k r
  | [] => None
  end.

(** [m[k].push(x)] for a key that is present. *)
Fixpoint pushTo {A : Type} (k : string) (x : A) (m : list (string * list A))
  : list (string * list A) :=
  match m with
  | (k', v) :: r =>
      if String.eqb k' k then (k', v ++ [x]) :: r else (k', v) :: pushTo k x r
  | [] => []
  end.

(** The properties that every plain object inherits from
    [Object.prototype]; reading one of them from [{}] gives a function (or,
    for [__proto__], the prototype itself), which is truthy and has no
    [push]. *)
Definition objectPrototypeKeys : list string :=
  [ "constructor"; "hasOwnProperty"; "isPrototypeOf"; "propertyIsEnumerable";
    "toLocaleString"; "toString"; "valueOf"; "__proto__";
    "__defineGetter__"; "__defineSetter__";
    "__lookupGetter__"; "__lookupSetter__" ].

(** An array index: the canonical decimal form of an integer below
    [2^32 - 1]. *)
Definition isArrayIndex (k : string) : bool :=
  match k with
  | String c r =>
      let (d, t) := spanDigits k in
      negb (truthy t)
      && (negb (Ascii.eqb c "0") || negb (truthy r))
      && (digitsValue 0 d <? 4294967295)
  | EmptyString => false
  end.

(** The integer that an array index spells. *)
Definition indexValue (k : string) : Z := digitsValue 0 k.

(** [Object.keys(o)]: array indices in ascending numeric order, then the
    other keys in creation order. *)
Definition objectKeys {V : Type} (o : list (string * V)) : list string :=
  let ks := map fst o in
  sortWith (Z.ltb 0) (fun a b => indexValue a - indexValue b) (filter isArrayIndex ks)
  ++ filter (fun k => negb (isArrayIndex k)) ks.

(** One step of the [reduce] that groups items by aisle label. *)
Definition addToGroup (groups : list (string * list PantryItem.t))
    (item : PantryItem.t) : Result (list (string * list PantryItem.t)) :=
  let aisle :=
    match PantryItem.aisle item with
    | Some a => orString a "Other"
    | None => "Other"
    end in
  match lookup aisle groups with
  | Some _ => Ok (pushTo aisle item groups)
  | None =>
      if memString aisle objectPrototypeKeys
      then Throw (TypeError "groups[aisle].push is not a function")
      else Ok (groups ++ [(aisle, [item])])
  end.

Fixpoint groupByAisle (groups : list (string * list PantryItem.t))
    (items : list PantryItem.t) : Result (list (string * list PantryItem.t)) :=
  match items with
  | item :: rest =>
      match addToGroup groups item with
      | Ok groups' => groupByAisle groups' rest
      | Throw e => Throw e
      end
  | [] => Ok groups
  end.

(** The comparator of the aisle sort. *)
Definition byAisleNumber (a b : string) : number :=
  subNumber (getAisleNumber (Some a)) (getAisleNumber (Some b)).

Definition groupOf (groups : list (string * list PantryItem.t)) (aisle : string)
  : list PantryItem.t :=
  match lookup aisle groups with
  | Some g => g
  | None => []
  end.

Definition optimizeRoute (items : list PantryItem.t) : Result (list PantryItem.t) :=
  match groupByAisle [] items with
  | Ok aisleGroups =>
      let sortedAisles := sortWith isPositive byAisleNumber (objectKeys aisleGroups) in
      Ok (flat_map (groupOf aisleGroups) sortedAisles)
  | Throw e => Throw e
  end.

(** The callback of [items.forEach] that fills [storeMap]. *)
Definition addToStore (storeMap : list (string * list PantryItem.t))
    (item : PantryItem.t) : list (string * list PantryItem.t) :=
  match PantryItem.prices item with
  | first :: _ =>
      let store := PriceInfo.store first in
      let storeMap :=
        match lookup store storeMap with
        | Some _ => storeMap
        | None => storeMap ++ [(store, [])]
        end in
      if 0 <? PantryItem.quantity item then pushTo store item storeMap
      else storeMap
  | [] => storeMap
  end.

Definition partitionByStore (items : list PantryItem.t)
  : list (string * list PantryItem.t) :=
  fold_left addToStore items [].

(** [items.reduce((sum, item) => sum + item.quantity, 0)] *)
Definition sumQuantities (items : list PantryItem.t) : Z :=
  fold_left (fun sum item => sum + PantryItem.quantity item) items 0.

(** The callback of [storeMap.forEach] that fills [routes]. *)
Fixpoint buildRoutes (entries : list (string * list PantryItem.t))
  : Result (list StoreRoute.t) :=
  match entries with
  | (store, items) :: rest =>
      match items with
      | _ :: _ =>
          match optimizeRoute items with
          | Ok optimizedItems =>
              match buildRoutes rest with
              | Ok routes =>
                  Ok (StoreRoute.mk store items optimizedItems
                        (sumQuantities items) :: routes)
              | Throw e => Throw e
              end
          | Throw e => Throw e
          end
      | [] => buildRoutes rest
      end
  | [] => Ok []
  end.

(** The comparator of the route sort. *)
Definition byTotalItems (a b : StoreRoute.t) : Z :=
  StoreRoute.totalItems b - StoreRoute.totalItems a.

(** The routes handed to [setStoreRoutes]. *)
Definition organizeByStore (items : list PantryItem.t)
  : Result (list StoreRoute.t) :=
  match buildRoutes (partitionByStore items) with
  | Ok routes => Ok (sortWith (Z.ltb 0) byTotalItems routes)
  | Throw e => Throw e
  end.

(** ** The scanner: what [handleBarCodeScanned] hands to [onScanned] *)

(** An entry of [address_components] in a reply of the geocoding service. *)
Module AddressComponent.
Record t : Type := mk {
  types : list string;
  short_name : string
}.
End AddressComponent.

(** The argument of [onScanned]. *)
Module ScanData.
Record t : Type := mk {
  barcode : string;
  type : string;
  productName : string;
  productImage : string;
  prices : list PriceInfo.t;
  aisle : option string;
  quantity : Z;
  inPantry : bool;
  inShoppingList : bool;
  brand : string
}.
End ScanData.



(** [chain === 'walmart' ? 'Walmart' : 'Target'] *)
Definition chainLabel (c : Chain) : string :=
  match c with
  | walmart => "Walmart"
  | target => "Target"
  end.

(** [priceInfo]: one entry when the inventory has a (truthy) price. *)
Definition priceInfoOf (productInfo : ProductInfo.t) (now : Z) : list PriceInfo.t :=
  let inventory := ProductInfo.inventory productInfo in
  match StoreInventory.price inventory with
  | Some price =>
      if falsy price then []
      else [PriceInfo.mk (StoreInventory.storeId inventory) price (S754_zero false)
              (StoreInventory.aisle inventory) now]
  | None => []
  end.

(** [aisleInfo] *)
Definition aisleInfoOf (productInfo : ProductInfo.t) : string :=
  let inventory := ProductInfo.inventory productInfo in
  if StoreInventory.inStock inventory
  then (chainLabel (StoreInventory.chain inventory) ++ ": "
        ++ StoreInventory.aisle inventory)%string
  else match ProductInfo.alternativeStores productInfo with
       | Some (first :: _) =>
           ("Out of stock here. Available at "
            ++ chainLabel (StoreInventory.chain first))%string
       | _ => "Out of stock at both Walmart and Target"
       end.

(** The object passed to [onScanned]; [now] is the time of the scan. *)
Definition scanData (type data : string) (productInfo : ProductInfo.t) (now : Z)
  : ScanData.t :=
  ScanData.mk data type
    (ProductInfo.name productInfo) (ProductInfo.image productInfo)
    (priceInfoOf productInfo now) (Some (aisleInfoOf productInfo))
    1 false false
    (match ProductInfo.brand productInfo with
     | Some b => orString b ""
     | None => ""
     end).


(** ** The pantry screen *)

(** [a.findIndex(p)]; [None] stands for [-1]. *)
Fixpoint findIndex {A : Type} (p : A -> bool) (l : list A) : option nat :=
  match l with
  | x :: r => if p x then Some 0%nat else option_map S (findIndex p r)
  | [] => None
  end.

(** [a[i] = f(a[i])] on a copy of [a], for an index within the array. *)
Fixpoint updateAt {A : Type} (i : nat) (f : A -> A) (l : list A) : list A :=
  match l, i with
  | x :: r, O => f x :: r
  | x :: r, S j => x :: updateAt j f r
  | [], _ => []
  end.

(** [{ ...item, quantity }] *)
Definition withQuantity (item : PantryItem.t) (quantity : Z) : PantryItem.t :=
  PantryItem.mk (PantryItem.id item) (PantryItem.barcode item)
    (PantryItem.name item) quantity (PantryItem.dateAdded item)
    (PantryItem.image item) (PantryItem.prices item) (PantryItem.aisle item).

(** [{ ...item, quantity: item.quantity + 1, prices }] *)
Definition rescanned (prices : list PriceInfo.t) (item : PantryItem.t)
  : PantryItem.t :=
  PantryItem.mk (PantryItem.id item) (PantryItem.barcode item)
    (PantryItem.name item) (PantryItem.quantity item + 1)
    (PantryItem.dateAdded item) (PantryItem.image item) prices
    (PantryItem.aisle item).

(** [newItem] of [handleScanned]; [id] is the random identifier drawn for
    it and [now] the time of the scan. *)
Definition newItem (id : string) (now : Z) (data : ScanData.t) : PantryItem.t :=
  PantryItem.mk id (ScanData.barcode data) (ScanData.productName data) 1 now
    (ScanData.productImage data) (ScanData.prices data)
    (Some (match ScanData.aisle data with
           | Some a => orString a "Unknown"
           | None => "Unknown"
           end)).

(** The state update of [handleScanned]. *)
Definition handleScanned (id : string) (now : Z) (data : ScanData.t)
    (prev : list PantryItem.t) : list PantryItem.t :=
  match findIndex (fun item => String.eqb (PantryItem.barcode item)
                                          (ScanData.barcode data)) prev with
  | Some existingItemIndex =>
      updateAt existingItemIndex (rescanned (ScanData.prices data)) prev
  | None => prev ++ [newItem id now data]
  end.

(** The state update of [handleDelete]. *)
Definition handleDelete (id : string) (prev : list PantryItem.t)
  : list PantryItem.t :=
  filter (fun item => negb (String.eqb (PantryItem.id item) id)) prev.

(** The state update of [handleUpdateQuantity]; the state stays as it is
    when the handler returns early. *)
Definition handleUpdateQuantity (id : string) (newQuantity : Z)
    (prev : list PantryItem.t) : list PantryItem.t :=
  if newQuantity <? 1 then prev
  else map (fun item => if String.eqb (PantryItem.id item) id
                        then withQuantity item newQuantity
                        else item) prev.

(** [handleAddToList]: from the stored shopping list ([None] when nothing is
    stored) to the stored shopping list.  The list is kept as the parsed
    value of the stored text. *)
Definition handleAddToList (id : string) (pantryItems : list PantryItem.t)
    (savedList : option (list PantryItem.t)) : option (list PantryItem.t) :=
  let shoppingList := match savedList with Some l => l | None => [] end in
  match List.find (fun item => String.eqb (PantryItem.id item) id) pantryItems with
  | Some itemToAdd =>
      Some (match findIndex (fun item => String.eqb (PantryItem.id item) id)
                            shoppingList with
            | Some existingIndex =>
                updateAt existingIndex
                  (fun item => withQuantity item (PantryItem.quantity item + 1))
                  shoppingList
            | None => shoppingList ++ [withQuantity itemToAdd 1]
            end)
  | None => savedList
  end.

(** ** The shopping-list screen *)

(** The list that [removeFromList] saves. *)
Definition removeFromList (id : string) (shoppingList : list PantryItem.t)
  : list PantryItem.t :=
  filter (fun item => negb (String.eqb (PantryItem.id item) id)) shoppingList.

(** The list that [updateQuantity] saves. *)
Definition updateQuantity (id : string) (newQuantity : Z)
    (shoppingList : list PantryItem.t) : list PantryItem.t :=
  let newList :=
    map (fun item => if String.eqb (PantryItem.id item) id
                     then withQuantity item newQuantity
                     else item) shoppingList in
  if newQuantity <=? 0 then removeFromList id shoppingList else newList.

(** ** The route screen: [loadPantryItems] *)

(** [storeRoutes] after [loadPantryItems]: the routes of the stored shopping
    list; the state stays as it was when nothing is stored or when
    [organizeByStore] throws. *)
Definition loadPantryItems (shoppingListData : option (list PantryItem.t))
    (storeRoutes : list StoreRoute.t) : list StoreRoute.t :=
  match shoppingListData with
  | Some items =>
      match organizeByStore items with
      | Ok routes => routes
      | Throw _ => storeRoutes
      end
  | None => storeRoutes
  end.

(** ** Vocabulary of the statements *)

(** The inventory adapter of a chain, the page it reads and the selector of
    the price node on that page. *)
Definition inventoryAdapter (c : Chain)
  : string -> string -> Js (option StoreInventory.t) :=
  match c with
  | walmart => getWalmartInventory
  | target => getTargetInventory
  end.

Definition productUrl (c : Chain) (barcode : string) : string :=
  match c with
  | walmart => "https://www.walmart.com/ip/" ++ barcode
  | target => "https://www.target.com/p/a/" ++ barcode
  end.

Definition priceSelector (c : Chain) : string :=
  match c with
  | walmart => ".price-main"
  | target => ".price"
  end.

(** The store finder of a chain and the page it reads. *)
Definition storeFinder (c : Chain) : string -> Js (list StoreLocation.t) :=
  match c with
  | walmart => findWalmartStores
  | target => findTargetStores
  end.

Definition finderUrl (c : Chain) (zipCode : string) : string :=
  match c with
  | walmart => "https://www.walmart.com/store/finder?location=" ++ zipCode
  | target => "https://www.target.com/store-locator/find-stores?address=" ++ zipCode
  end.

(** [s] contains [phrase] up to letter case. *)
Definition containsIgnoringCase (s phrase : string) : Prop :=
  exists pre mid post,
    s = (pre ++ mid ++ post)%string /\ toLowerCase mid = toLowerCase phrase.

Definition isZero (x : number) : bool :=
  match x with S754_zero _ => true | _ => false end.

(** The price text as it is handed to [parseFloat]. *)
Definition priceTextOf (c : Chain) (doc : Document) : string :=
  replace (trim (text (select doc (priceSelector c)))) "$" "".

(** The distance text of a store node as it is handed to [parseFloat]. *)
Definition distanceTextOf (element : Node) : string :=
  trim (replace (trim (text (find element ".distance"))) "miles" "").

(** The product scraper of a chain and the selectors it reads. *)
Definition scraper (c : Chain) : string -> Js (option ProductInfo.t) :=
  match c with
  | walmart => scrapeWalmartProduct
  | target => scrapeTargetProduct
  end.

Definition titleSelector (c : Chain) : string :=
  match c with
  | walmart => ".prod-title"
  | target => ".product-name"
  end.

(** A value of the Number type: not every [spec_float] is one, the
    significand and the exponent of a finite one are in range. *)
Definition isNumber (x : number) : bool := valid_binary prec emax x.

(** The exact value of a number in units of [2^-1074], the smallest positive
    number; the infinities are placed beyond every finite number. *)
Definition beyond : Z := 2 ^ 2200.

Definition scaledValue (x : number) : Z :=
  match x with
  | S754_finite s m e =>
      if s then - (Z.pos m * 2 ^ (e + 1074)) else Z.pos m * 2 ^ (e + 1074)
  | S754_infinity s => if s then - beyond else beyond
  | S754_zero _ | S754_nan => 0
  end.

(** [x <= y] on Numbers other than [NaN], by their exact values. *)
Definition leNumber (x y : number) : Prop := scaledValue x <= scaledValue y.

(** The Number [x] is the integer [n]. *)
Definition isInteger (x : number) (n : Z) : Prop :=
  isNaN x = false /\ scaledValue x = n * 2 ^ 1074.

(** The exponent and the size of a finite number are within those of the
    Number type; its significand need not be in canonical form. *)
Definition inRange (x : number) : Prop :=
  match x with
  | S754_finite _ m e => -1074 <= e /\ Z.pos m * 2 ^ (e + 1074) < beyond
  | _ => True
  end.

(** The distance by which the candidate sort ranks a store. *)
Definition effectiveDistance (s : StoreLocation.t) : Z :=
  scaledValue (orInfinity (StoreLocation.distance s)).

(** The distance of the store, when it has one, is a Number. *)
Definition numericDistance (s : StoreLocation.t) : Prop :=
  match StoreLocation.distance s with
  | Some d => isNumber d = true
  | None => True
  end.

(** Two product records name the same product. *)
Definition sameIdentity (a b : ProductInfo.t) : Prop :=
  ProductInfo.name a = ProductInfo.name b /\
  ProductInfo.image a = ProductInfo.image b /\
  ProductInfo.barcode a = ProductInfo.barcode b /\
  ProductInfo.brand a = ProductInfo.brand b.

(** [l1] is [l2] with some elements left out, the others in order. *)
Inductive Subsequence {A : Type} : list A -> list A -> Prop :=
  | Subsequence_nil : Subsequence [] []
  | Subsequence_skip (x : A) (l1 l2 : list A) :
      Subsequence l1 l2 -> Subsequence l1 (x :: l2)
  | Subsequence_take (x : A) (l1 l2 : list A) :
      Subsequence l1 l2 -> Subsequence (x :: l1) (x :: l2).

(** The inventory of each store of a list, asked one after the other. *)
Fixpoint lookupAll (stores : list StoreLocation.t) (barcode : string)
  : Js (list (option StoreInventory.t)) :=
  match stores with
  | store :: rest =>
      i <- getInventory store barcode ;;
      others <- lookupAll rest barcode ;;
      ret (i :: others)
  | [] => ret []
  end.

(** The lookups that succeeded and found the product in stock. *)
Fixpoint inStockOnly (results : list (option StoreInventory.t))
  : list StoreInventory.t :=
  match results with
  | Some i :: rest =>
      if StoreInventory.inStock i then i :: inStockOnly rest
      else inStockOnly rest
  | None :: rest => inStockOnly rest
  | [] => []
  end.

(** The store that an inventory or a candidate stands for. *)
Definition inventoryKey (i : StoreInventory.t) : string * Chain :=
  (StoreInventory.storeId i, StoreInventory.chain i).

Definition storeKey (s : StoreLocation.t) : string * Chain :=
  (StoreLocation.storeId s, StoreLocation.chain s).

(** The store an item is bought at is the store of its first price. *)
Definition firstStore (item : PantryItem.t) : option string :=
  match PantryItem.prices item with
  | first :: _ => Some (PriceInfo.store first)
  | [] => None
  end.

(** The items that make up the route of a store: bought there, in a
    positive quantity. *)
Definition qualifies (store : string) (item : PantryItem.t) : bool :=
  match firstStore item with
  | Some s => String.eqb s store
  | None => false
  end && (0 <? PantryItem.quantity item).

Definition routeItems (items : list PantryItem.t) (store : string)
  : list PantryItem.t :=
  filter (qualifies store) items.

(** The distinct elements of a list, in order of first appearance. *)
Fixpoint appearances (l : list string) : list string :=
  match l with
  | x :: r => x :: filter (fun y => negb (String.eqb y x)) (appearances r)
  | [] => []
  end.

(** The stores in the order in which the item list first names them. *)
Definition storeOrder (items : list PantryItem.t) : list string :=
  appearances
    (flat_map (fun item => match firstStore item with
                           | Some s => [s]
                           | None => []
                           end) items).

Definition totalQuantity (items : list PantryItem.t) : Z :=
  fold_right (fun item sum => PantryItem.quantity item + sum) 0 items.

Definition nonEmpty {A : Type} (l : list A) : bool :=
  match l with [] => false | _ :: _ => true end.

(** The label an item is grouped under. *)
Definition labelOf (item : PantryItem.t) : string :=
  match PantryItem.aisle item with
  | Some a => orString a "Other"
  | None => "Other"
  end.

Definition labelIs (l : string) (item : PantryItem.t) : bool :=
  String.eqb (labelOf item) l.

(** The item has an aisle (neither [null] nor empty). *)
Definition hasAisle (item : PantryItem.t) : bool :=
  match PantryItem.aisle item with
  | Some a => truthy a
  | None => false
  end.

(** The item has an aisle, and the aisle is [l]. *)
Definition aisleIs (l : string) (item : PantryItem.t) : bool :=
  match PantryItem.aisle item with
  | Some a => truthy a && String.eqb a l
  | None => false
  end.

(** The label is not the name of a property of [Object.prototype]. *)
Definition safeLabel (item : PantryItem.t) : bool :=
  negb (memString (labelOf item) objectPrototypeKeys).

(** The aisle number of the items with an aisle, along a path. *)
Definition aisleNumbers (path : list PantryItem.t) : list number :=
  map (fun item => getAisleNumber (PantryItem.aisle item)) (filter hasAisle path).

(** [if (!m[k]) m[k] = []] on an association list. *)
Definition ensureKey {A : Type} (k : string) (m : list (string * list A))
  : list (string * list A) :=
  match lookup k m with
  | Some _ => m
  | None => m ++ [(k, [])]
  end.

(** Filing [x] under its key, when it has one, and only creating the key
    when [x] is not kept: the common shape of the two grouping loops. *)
Definition place {A : Type} (keyOf : A -> option string) (keep : A -> bool)
    (m : list (string * list A)) (x : A) : list (string * list A) :=
  match keyOf x with
  | Some k => if keep x then pushTo k x (ensureKey k m) else ensureKey k m
  | None => m
  end.

Definition hasKey {A : Type} (keyOf : A -> option string) (k : string) (x : A)
  : bool :=
  match keyOf x with
  | Some k' => String.eqb k' k
  | None => false
  end.

Definition keysOf {A : Type} (keyOf : A -> option string) (xs : list A)
  : list string :=
  flat_map (fun x => match keyOf x with Some k => [k] | None => [] end) xs.

(** Every character of [s] satisfies [p]. *)
Fixpoint everyChar (p : ascii -> bool) (s : string) : bool :=
  match s with
  | String c r => p c && everyChar p r
  | EmptyString => true
  end.

(** [s] does not begin with a digit. *)
Definition noLeadingDigit (s : string) : bool :=
  match s with
  | String c _ => negb (isDigit c)
  | EmptyString => true
  end.

(** ** Concrete inputs *)

Definition div (cls txt : string) : Node :=
  Element "div" [("class", cls)] [TextNode txt].

(** A product page with a title for both chains, a stock line and a price. *)
Definition productPage (stock price : string) : Document :=
  [Element "body" []
     [div "prod-title" "Widget"; div "product-name" "Widget";
      div "fulfillment-status" stock;
      div "price-main" price; div "price" price]].

Definition storeNode (id dist : string) : Node :=
  Element "li" [("class", "store-list-item"); ("data-store-id", id)]
    [div "store-name" ("Store " ++ id); div "store-address" "1 Main St";
     div "distance" dist].

(** Every attempt is refused at connection level. *)
Definition alwaysReset : World :=
  mkWorld (fun _ _ => Failed (Some "ECONNRESET")) 0.

(** Two connection resets, then a page. *)
Definition resetTwice : World :=
  mkWorld (fun n _ =>
             match n with
             | 0%nat | 1%nat => Failed (Some "ECONNRESET")
             | _ => Replied 200 (Markup (productPage "In stock" "$4.99"))
             end) 0.

(** Every reply is a 200 with a page that has none of the expected nodes. *)
Definition emptyPages : World := mkWorld (fun _ _ => Replied 200 (Markup [])) 0.

(** Every reply is a product page priced at minus five dollars. *)
Definition refundPages : World :=
  mkWorld (fun _ _ => Replied 200 (Markup (productPage "In stock" "$-5.00"))) 0.

(** Every reply is a product page of a free item. *)
Definition freePages : World :=
  mkWorld (fun _ _ => Replied 200 (Markup (productPage "In Stock" "$0.00"))) 0.

(** A network that answers by URL alone: the product pages and the store
    lists of the two chains for barcode 012345 near 90210. *)
Definition site (walmartPage targetPage : Document)
    (walmartStores targetStores : Document) : World :=
  mkWorld (fun _ url =>
             if String.eqb url "https://www.walmart.com/ip/012345"
             then Replied 200 (Markup walmartPage)
             else if String.eqb url "https://www.target.com/p/a/012345"
             then Replied 200 (Markup targetPage)
             else if String.eqb url "https://www.walmart.com/store/finder?location=90210"
             then Replied 200 (Markup walmartStores)
             else if String.eqb url "https://www.target.com/store-locator/find-stores?address=90210"
             then Replied 200 (Markup targetStores)
             else Replied 404 (Markup [])) 0.

(** A Walmart store and a Target store that carry the same store number;
    Walmart, the nearer one, is out of stock. *)
Definition sameNumberSite : World :=
  site (productPage "Out of stock" "$4.99") (productPage "In stock" "$5.49")
       [storeNode "100" "1.0 miles"] [storeNode "100" "2.0 miles"].

(** A Target store right at the shopper's location, and a Walmart store two
    and a half miles away. *)
Definition zeroMilesSite : World :=
  site (productPage "In stock" "$4.99") (productPage "In stock" "$4.49")
       [storeNode "5001" "2.5 miles"] [storeNode "7001" "0 miles"].

(** A shopping-list item bought at [store], shelved at [aisle]. *)
Definition listItem (id store : string) (aisle : option string) (quantity : Z)
  : PantryItem.t :=
  PantryItem.mk id "012345" id quantity 0 ""
    [PriceInfo.mk store (S754_finite false 5618240535144694 (-50))
       (S754_zero false) "" 0]
    aisle.

(** Three items of store X in two aisles that both carry the number 1. *)
Definition soup : PantryItem.t := listItem "soup" "X" (Some "A1") 1.
Definition bread : PantryItem.t := listItem "bread" "X" (Some "B1") 1.
Definition beans : PantryItem.t := listItem "beans" "X" (Some "A1") 1.

(** The list of the specification's scenario: aisles 12, 3 and 7, the
    second item with quantity zero. *)
Definition scenarioItems : list PantryItem.t :=
  [listItem "a" "X" (Some "12") 1; listItem "b" "X" (Some "3") 0;
   listItem "c" "X" (Some "7") 2].

(** An item without an aisle, and one in an aisle that has no number. *)
Definition batteries : PantryItem.t := listItem "batteries" "X" None 1.
Definition apples : PantryItem.t := listItem "apples" "X" (Some "Produce") 1.

(** ** Vocabulary of the further statements *)

(** The world after [k] more attempts. *)
Definition later (w : World) (k : nat) : World :=
  mkWorld (net w) (attempts w + k).

(** The attempt made after [i] others fails with an error that the retry
    condition accepts. *)
Definition retriedFailure (url : string) (w : World) (i : nat) : Prop :=
  exists e,
    fst (attempt url (later w i)) = Throw (AxiosFailure e) /\
    retryCondition e = true.

(** A computation leaves the network as it is and makes at most [n]
    attempts. *)
Definition within {A : Type} (n : nat) (m : Js A) : Prop :=
  forall w,
    net (snd (m w)) = net w /\
    (attempts w <= attempts (snd (m w)) <= attempts w + n)%nat.

(** The inventory [i], relabelled for another store. *)
Definition atStore (storeId : string) (i : StoreInventory.t) : StoreInventory.t :=
  StoreInventory.mk storeId (StoreInventory.chain i) (StoreInventory.inStock i)
    (StoreInventory.quantity i) (StoreInventory.aisle i) (StoreInventory.price i).

(** The network answers a URL the same way at every attempt. *)
Definition answersByUrl (w : World) : Prop :=
  forall n m url, net w n url = net w m url.

(** The first step of [getProductInfo]: Walmart's product page, then
    Target's. *)
Definition identify (barcode : string) : Js (option ProductInfo.t) :=
  fromWalmart <- scrapeWalmartProduct barcode ;;
  match fromWalmart with
  | Some p => ret (Some p)
  | None => scrapeTargetProduct barcode
  end.

(** The candidates of [getProductInfo]: the stores of both finders, sorted. *)
Definition candidateStores (zipCode : string) : Js (list StoreLocation.t) :=
  walmartStores <- findWalmartStores zipCode ;;
  targetStores <- findTargetStores zipCode ;;
  ret (sortStores walmartStores targetStores).

(** A character that cannot continue a run of digits into a longer decimal
    literal: not a digit, a point or an exponent mark. *)
Definition endsLiteral (c : ascii) : bool :=
  negb (isDigit c || Ascii.eqb c "." || Ascii.eqb c "e" || Ascii.eqb c "E").

(** The aisle text of the item was composed by the scanner. *)
Definition scannedLabel (item : PantryItem.t) : Prop :=
  exists productInfo, PantryItem.aisle item = Some (aisleInfoOf productInfo).

(** Invariants of the pantry and of the shopping list. *)
Definition positiveQuantities (items : list PantryItem.t) : Prop :=
  Forall (fun item => 1 <= PantryItem.quantity item) items.

Definition distinctBarcodes (items : list PantryItem.t) : Prop :=
  NoDup (map PantryItem.barcode items).

Definition distinctIds (items : list PantryItem.t) : Prop :=
  NoDup (map PantryItem.id items).

(** The stored shopping list, read as [handleAddToList] reads it. *)
Definition storedList (savedList : option (list PantryItem.t)) : list PantryItem.t :=
  match savedList with
  | Some l => l
  | None => []
  end.

(** The item is put on a route: it has a price and a positive quantity. *)
Definition routed (item : PantryItem.t) : bool :=
  nonEmpty (PantryItem.prices item) && (0 <? PantryItem.quantity item).

(** The [TypeError] that [optimizeRoute] can run into. *)
Definition notAFunction : Exception :=
  TypeError "groups[aisle].push is not a function".

(** The sum of [totalItems] over the routes. *)
Definition itemsOnRoutes (routes : list StoreRoute.t) : Z :=
  fold_right (fun r sum => StoreRoute.totalItems r + sum) 0 routes.

(** The order of [Object.keys] on keys created in the order [ks], and the
    order in which [optimizeRoute] visits the aisles. *)
Definition keyOrder (ks : list string) : list string :=
  sortWith (Z.ltb 0) (fun a b => indexValue a - indexValue b) (filter isArrayIndex ks)
  ++ filter (fun k => negb (isArrayIndex k)) ks.

Definition aisleOrder (ks : list string) : list string :=
  sortWith isPositive byAisleNumber (keyOrder ks).

(** The route of a store, as [organizeByStore] builds it from the list. *)
Definition pathOf (items : list PantryItem.t) : list PantryItem.t :=
  match optimizeRoute items with
  | Ok path => path
  | Throw _ => []
  end.

Definition routeOf (items : list PantryItem.t) (store : string) : StoreRoute.t :=
  StoreRoute.mk store (routeItems items store) (pathOf (routeItems items store))
    (totalQuantity (routeItems items store)).

(** ** Further concrete inputs *)

(** Three replies with status 429, then replies with status 503. *)
Definition busyThenDown : World :=
  mkWorld (fun n _ =>
             match n with
             | 0%nat | 1%nat | 2%nat => Replied 429 (Markup [])
             | _ => Replied 503 (Markup [])
             end) 0.

(** Every reply is a product page priced at 1,299 dollars. *)
Definition dearPages : World :=
  mkWorld (fun _ _ => Replied 200 (Markup (productPage "In stock" "$1,299.00"))) 0.

(** The stores of [sameNumberSite], as the two finders return them. *)
Definition walmart100 : StoreLocation.t :=
  storeOfElement walmart (storeNode "100" "1.0 miles").

Definition target100 : StoreLocation.t :=
  storeOfElement target (storeNode "100" "2.0 miles").

(** A pantry of two products that no store had in stock. *)
Definition pantryEntry (id barcode : string) (quantity : Z) : PantryItem.t :=
  PantryItem.mk id barcode ("Product " ++ barcode) quantity 0 "" []
    (Some "Out of stock at both Walmart and Target").

Definition smallPantry : list PantryItem.t :=
  [pantryEntry "k3x9" "0001" 2; pantryEntry "p07q" "0002" 1].

(** What the scanner hands on for a product that no store had in stock. *)
Definition scanOf (barcode : string) : ScanData.t :=
  ScanData.mk barcode "ean13" ("Product " ++ barcode) "" []
    (Some "Out of stock at both Walmart and Target") 1 false false "".

(** A product found in stock in aisle A12 of Walmart store 5001 at 4.99, and
    the pantry item made from its scan. *)
Definition milk : ProductInfo.t :=
  ProductInfo.mk "Milk" "" "0004"
    (StoreInventory.mk "5001" walmart true None "A12"
       (Some (S754_finite false 5618240535144694 (-50))))
    None (Some "").

Definition milkItem : PantryItem.t :=
  newItem "m1lk" 0 (scanData "ean13" "0004" milk 0).

(** * Properties *)

(** ** The retry policy of the retrieval layer *)

Lemma attempt_world (url : string) (w : World) :
  snd (attempt url w) = mkWorld (net w) (S (attempts w)).
Proof.
  unfold attempt.
  destruct (net w (attempts w) url) as [status data | c]; simpl; trivial.
  destruct (validateStatus status); reflexivity.
Qed.

Lemma attempt_throws_axios (url : string) (w w1 : World) (x : Exception) :
  attempt url w = (Throw x, w1) -> exists e, x = AxiosFailure e.
Proof.
  unfold attempt.
  destruct (net w (attempts w) url) as [status data | c].
  - destruct (validateStatus status); intros H; inversion H; eauto.
  - intros H; inversion H; eauto.
Qed.

Lemma requestWithRetry_attempts (budget : nat) (url : string) :
  forall w,
    net (snd (requestWithRetry budget url w)) = net w /\
    (attempts w + 1 <= attempts (snd (requestWithRetry budget url w))
       <= attempts w + S budget)%nat.
Proof.
  induction budget as [| b IH]; intros w; simpl;
    pose proof (attempt_world url w) as Hw;
    destruct (attempt url w) as [[data | [error | msg | msg]] w1] eqn:Ha;
    simpl in Hw; subst w1; simpl; try (split; [reflexivity | lia]).
  destruct (retryCondition error); simpl; [| split; [reflexivity | lia]].
  destruct (IH (mkWorld (net w) (S (attempts w)))) as [Hn Hb].
  simpl in Hn, Hb. split; [exact Hn | lia].
Qed.

(** Every attempt that is followed by another one failed with an error that
    satisfies the retry condition. *)
Lemma requestWithRetry_retried (budget : nat) (url : string) :
  forall (w : World) (k : nat),
    (attempts w <= k)%nat ->
    (k + 1 < attempts (snd (requestWithRetry budget url w)))%nat ->
    exists e,
      attempt url (mkWorld (net w) k)
      = (Throw (AxiosFailure e), mkWorld (net w) (S k)) /\
      retryCondition e = true.
Proof.
  induction budget as [| b IH]; intros w k Hk; simpl;
    pose proof (attempt_world url w) as Hw;
    destruct (attempt url w) as [[data | [error | msg | msg]] w1] eqn:Ha;
    simpl in Hw; subst w1; simpl; try lia.
  destruct (retryCondition error) eqn:Hc; simpl; [| lia].
  intros Hlt. destruct (Nat.eq_dec k (attempts w)) as [-> | Hne].
  - exists error. destruct w as [n a]. simpl in *. auto.
  - apply (IH (mkWorld (net w) (S (attempts w))) k); simpl; [lia | exact Hlt].
Qed.

Lemma requestWithRetry_no_retry (budget : nat) (url : string) (w w1 : World)
    (e : AxiosError) :
  attempt url w = (Throw (AxiosFailure e), w1) ->
  retryCondition e = false ->
  requestWithRetry budget url w = (Throw (AxiosFailure e), w1).
Proof.
  intros Ha Hc. destruct budget; simpl; rewrite Ha; [reflexivity |].
  rewrite Hc. reflexivity.
Qed.

Lemma requestWithRetry_retry (budget : nat) (url : string) (w w1 : World)
    (e : AxiosError) :
  attempt url w = (Throw (AxiosFailure e), w1) ->
  retryCondition e = true ->
  requestWithRetry (S budget) url w = requestWithRetry budget url w1.
Proof.
  intros Ha Hc. simpl. rewrite Ha, Hc. reflexivity.
Qed.

Lemma requestWithRetry_success (budget : nat) (url : string) (w w1 : World)
    (data : Body) :
  attempt url w = (Ok data, w1) ->
  requestWithRetry budget url w = (Ok data, w1).
Proof.
  intros Ha. destruct budget; simpl; rewrite Ha; reflexivity.
Qed.

Lemma attempt_failed (url : string) (w : World) (c : option string) :
  net w (attempts w) url = Failed c ->
  attempt url w = (Throw (AxiosFailure (mkAxiosError c None (Some "get"))),
                   mkWorld (net w) (S (attempts w))).
Proof. unfold attempt. intros ->. reflexivity. Qed.

Lemma attempt_replied_ok (url : string) (w : World) (status : Z) (data : Body) :
  net w (attempts w) url = Replied status data ->
  validateStatus status = true ->
  attempt url w = (Ok data, mkWorld (net w) (S (attempts w))).
Proof. unfold attempt. intros -> ->. reflexivity. Qed.

(** A GET request that gets a reply outside 2xx, 5xx and 429 is not
    retried. *)
Lemma retryCondition_other_status (status : Z) (c : option string) :
  status <> 429 -> ~ (500 <= status <= 599) ->
  retryCondition (mkAxiosError c (Some status) (Some "get")) = false.
Proof.
  intros H429 H5.
  unfold retryCondition, isNetworkOrIdempotentRequestError, isNetworkError,
    isIdempotentRequestError, isRetryableError, statusIs, hasResponse; simpl.
  assert (Hs : (500 <=? status) && (status <=? 599) = false).
  { destruct (500 <=? status) eqn:E1; destruct (status <=? 599) eqn:E2;
      trivial. apply Z.leb_le in E1, E2. lia. }
  rewrite Hs.
  assert (H4 : (status =? 429) = false) by (apply Z.eqb_neq; exact H429).
  rewrite H4. rewrite andb_false_r. reflexivity.
Qed.

(** C2 (as amended): a request makes at least one and at most four attempts
    (the first one and up to [retries] = 3 more); every attempt that is
    followed by another one ended in a network failure, an idempotent-request
    failure or a 429 reply;
    any other HTTP error status fails after exactly one attempt; and two
    network failures followed by a 2xx reply give that reply's body after
    exactly three attempts. *)
Theorem axiosGet_retry_policy (url : string) (w : World) :
  (net (snd (axiosGet url w)) = net w /\
   (attempts w + 1 <= attempts (snd (axiosGet url w)) <= attempts w + 4)%nat)
  /\ (forall k,
        (attempts w <= k)%nat ->
        (k + 1 < attempts (snd (axiosGet url w)))%nat ->
        exists e,
          attempt url (mkWorld (net w) k)
          = (Throw (AxiosFailure e), mkWorld (net w) (S k)) /\
          (isNetworkError e || isIdempotentRequestError e
           || statusIs e (fun s => s =? 429)) = true)
  /\ (forall status data,
        net w (attempts w) url = Replied status data ->
        validateStatus status = false ->
        status <> 429 -> ~ (500 <= status <= 599) ->
        exists e,
          axiosGet url w
          = (Throw (AxiosFailure e), mkWorld (net w) (attempts w + 1)) /\
          response e = Some status)
  /\ (forall c1 c2 status data,
        net w (attempts w) url = Failed c1 ->
        net w (attempts w + 1)%nat url = Failed c2 ->
        net w (attempts w + 2)%nat url = Replied status data ->
        isNetworkError (mkAxiosError c1 None (Some "get")) = true ->
        isNetworkError (mkAxiosError c2 None (Some "get")) = true ->
        validateStatus status = true ->
        axiosGet url w = (Ok data, mkWorld (net w) (attempts w + 3))).
Proof.
  unfold axiosGet, retries. repeat split.
  - apply requestWithRetry_attempts.
  - apply (requestWithRetry_attempts 3 url w).
  - apply (requestWithRetry_attempts 3 url w).
  - intros k Hk H.
    destruct (requestWithRetry_retried _ _ _ _ Hk H) as (e & Ha & Hc).
    exists e. split; [exact Ha |].
    unfold retryCondition, isNetworkOrIdempotentRequestError in Hc. exact Hc.
  - intros status data Hn Hv H429 H5.
    eexists. split.
    + apply requestWithRetry_no_retry.
      * unfold attempt. rewrite Hn, Hv.
        replace (attempts w + 1)%nat with (S (attempts w)) by lia. reflexivity.
      * apply retryCondition_other_status; assumption.
    + reflexivity.
  - intros c1 c2 status data H1 H2 H3 N1 N2 Hv.
    assert (R : forall c, isNetworkError (mkAxiosError c None (Some "get")) = true ->
                          retryCondition (mkAxiosError c None (Some "get")) = true).
    { intros c Hc. unfold retryCondition, isNetworkOrIdempotentRequestError.
      rewrite Hc. reflexivity. }
    rewrite (requestWithRetry_retry 2 url w _ _ (attempt_failed url w c1 H1) (R c1 N1)).
    replace (attempts w + 1)%nat with (S (attempts w)) in H2 by lia.
    replace (attempts w + 2)%nat with (S (S (attempts w))) in H3 by lia.
    rewrite (requestWithRetry_retry 1 url (mkWorld (net w) (S (attempts w))) _ _
               (attempt_failed url (mkWorld (net w) (S (attempts w))) c2 H2) (R c2 N2)).
    cbn [net attempts].
    rewrite (requestWithRetry_success 1 url _ _ data
               (attempt_replied_ok url (mkWorld (net w) (S (S (attempts w)))) status data H3 Hv)).
    simpl. replace (attempts w + 3)%nat with (S (S (S (attempts w)))) by lia.
    reflexivity.
Qed.

Lemma axiosGet_retry_policy_witness :
  axiosGet "https://www.walmart.com/ip/012345" resetTwice
  = (Ok (Markup (productPage "In stock" "$4.99")), mkWorld (net resetTwice) 3).
Proof.
  apply (proj2 (proj2 (proj2
           (axiosGet_retry_policy "https://www.walmart.com/ip/012345" resetTwice)))
           (Some "ECONNRESET") (Some "ECONNRESET") 200);
    reflexivity.
Defined.

(** C2 (as stated) fails on the bound: when every attempt is refused at
    connection level, a fourth attempt is made. *)
Lemma fourth_attempt_after_three_failures :
  (3 < attempts (snd (axiosGet "https://www.walmart.com/ip/012345" alwaysReset)))%nat
  /\ attempts (snd (axiosGet "https://www.walmart.com/ip/012345" alwaysReset)) = 4%nat.
Proof. split; vm_compute; [lia | reflexivity]. Qed.

(** ** The adapters *)

Lemma startsWith_spec (p s : string) :
  startsWith p s = true <-> exists r, s = (p ++ r)%string.
Proof.
  revert s. induction p as [| a p IH]; intros s; simpl.
  - split; [intros _; exists s; reflexivity | trivial].
  - destruct s as [| b s].
    + split; [discriminate | intros [r Hr]; discriminate].
    + rewrite andb_true_iff, Ascii.eqb_eq, IH. split.
      * intros [-> [r ->]]. exists r. reflexivity.
      * intros [r Hr]. inversion Hr. split; [reflexivity | eauto].
Qed.

Lemma includes_spec (s p : string) :
  includes s p = true <-> exists a b, s = (a ++ p ++ b)%string.
Proof.
  induction s as [| c s IH]; simpl.
  - rewrite orb_false_r, startsWith_spec. split.
    + intros [r Hr]. exists EmptyString, r. exact Hr.
    + intros [a [b H]]. destruct a; simpl in H; [eauto | discriminate].
  - rewrite orb_true_iff, startsWith_spec, IH. split.
    + intros [[r Hr] | [a [b H]]].
      * exists EmptyString, r. exact Hr.
      * exists (String c a), b. simpl. rewrite H. reflexivity.
    + intros [a [b H]]. destruct a as [| c' a]; simpl in H.
      * left. eauto.
      * right. inversion H. eauto.
Qed.

Lemma toLowerCase_app (a b : string) :
  toLowerCase (a ++ b) = (toLowerCase a ++ toLowerCase b)%string.
Proof. induction a as [| c a IH]; simpl; [| rewrite IH]; reflexivity. Qed.

Lemma toLowerCase_split (s x y : string) :
  toLowerCase s = (x ++ y)%string ->
  exists s1 s2, s = (s1 ++ s2)%string /\ toLowerCase s1 = x /\ toLowerCase s2 = y.
Proof.
  revert s. induction x as [| c x IH]; intros s H; simpl in H.
  - exists EmptyString, s. auto.
  - destruct s as [| d s]; simpl in H; [discriminate |].
    inversion H as [[Hc Hr]]. destruct (IH s Hr) as (s1 & s2 & -> & H1 & H2).
    exists (String d s1), s2. simpl. rewrite H1. auto.
Qed.

(** Lower-casing and then searching is searching up to letter case. *)
Lemma includes_toLowerCase (s phrase : string) :
  toLowerCase phrase = phrase ->
  includes (toLowerCase s) phrase = true <-> containsIgnoringCase s phrase.
Proof.
  intros Hp. rewrite includes_spec. unfold containsIgnoringCase. split.
  - intros (a & b & H).
    destruct (toLowerCase_split _ _ _ H) as (pre & rest & -> & _ & Hrest).
    destruct (toLowerCase_split _ _ _ Hrest) as (mid & post & -> & Hmid & _).
    exists pre, mid, post. rewrite Hp. auto.
  - intros (pre & mid & post & -> & Hmid).
    exists (toLowerCase pre), (toLowerCase post).
    rewrite !toLowerCase_app, Hmid, Hp. reflexivity.
Qed.

(** The inventory that a lookup reads off a page. *)
Lemma inventoryAdapter_cases (c : Chain) (storeId barcode : string) (w : World) :
  match axiosGet (productUrl c barcode) w with
  | (Ok (Markup doc), w') =>
      inventoryAdapter c storeId barcode w
      = (Ok (Some (StoreInventory.mk storeId c
                     (includes (toLowerCase (text (select doc ".fulfillment-status")))
                               "in stock")
                     None
                     (orString (trim (text (select doc ".aisle-location")))
                               "Ask store associate")
                     (orUndefined (parseFloat (priceTextOf c doc))))), w')
  | (Ok NoData, w') | (Throw _, w') =>
      inventoryAdapter c storeId barcode w = (Ok None, w')
  end.
Proof.
  destruct c; simpl;
    unfold getWalmartInventory, getTargetInventory, tryCatch, bind, ret;
    simpl; destruct (axiosGet _ w) as [[[doc |] | e] w']; reflexivity.
Qed.

Lemma getInventory_adapter (store : StoreLocation.t) (barcode : string) :
  getInventory store barcode
  = inventoryAdapter (StoreLocation.chain store) (StoreLocation.storeId store) barcode.
Proof. unfold getInventory. destruct (StoreLocation.chain store); reflexivity. Qed.

(** What a store finder returns, by the outcome of its request. *)
Lemma storeFinder_cases (c : Chain) (zipCode : string) (w : World) :
  match axiosGet (finderUrl c zipCode) w with
  | (Ok (Markup doc), w') =>
      storeFinder c zipCode w
      = (Ok (map (storeOfElement c) (select doc ".store-list-item")), w')
  | (Ok NoData, w') | (Throw _, w') => storeFinder c zipCode w = (Ok [], w')
  end.
Proof.
  destruct c; simpl;
    unfold findWalmartStores, findTargetStores, tryCatch, bind, ret;
    simpl; destruct (axiosGet _ w) as [[[doc |] | e] w']; reflexivity.
Qed.

(** The texts that the adapters read from a page without the node. *)
Lemma text_of_no_node : text [] = EmptyString.
Proof. reflexivity. Qed.

(** C7 (as amended): no exception crosses the adapter boundary.  A store
    finder always returns a list: the empty one when the request fails (no
    reply, or a reply outside 2xx, after the retries) or when the reply has
    no body that cheerio loads, and otherwise one store for each store node
    of the page, in page order.  An inventory lookup returns [null] in
    exactly those two cases of failure; for every page that is loaded it
    returns the inventory read off that page, with the store id it was
    given, so that a page without the stock node gives [inStock] false, a
    page without the aisle node the placeholder aisle, and a page without
    the price node no price: never [null]. *)
Theorem adapters_absorb_failures (c : Chain) (w : World) :
  (forall zipCode,
     exists stores,
       storeFinder c zipCode w
       = (Ok stores, snd (axiosGet (finderUrl c zipCode) w)) /\
       match fst (axiosGet (finderUrl c zipCode) w) with
       | Ok (Markup doc) =>
           stores = map (storeOfElement c) (select doc ".store-list-item")
       | Ok NoData | Throw _ => stores = []
       end)
  /\ (forall storeId barcode,
        exists r,
          inventoryAdapter c storeId barcode w
          = (Ok r, snd (axiosGet (productUrl c barcode) w)) /\
          match fst (axiosGet (productUrl c barcode) w) with
          | Ok (Markup doc) =>
              exists inv,
                r = Some inv /\
                StoreInventory.storeId inv = storeId /\
                StoreInventory.chain inv = c /\
                StoreInventory.quantity inv = None /\
                StoreInventory.inStock inv
                = includes (toLowerCase (text (select doc ".fulfillment-status")))
                           "in stock" /\
                StoreInventory.aisle inv
                = orString (trim (text (select doc ".aisle-location")))
                           "Ask store associate" /\
                StoreInventory.price inv
                = orUndefined (parseFloat (priceTextOf c doc)) /\
                (select doc ".fulfillment-status" = [] ->
                 StoreInventory.inStock inv = false) /\
                (select doc ".aisle-location" = [] ->
                 StoreInventory.aisle inv = "Ask store associate") /\
                (select doc (priceSelector c) = [] ->
                 StoreInventory.price inv = None)
          | Ok NoData | Throw _ => r = None
          end).
Proof.
  split.
  - intros zipCode. pose proof (storeFinder_cases c zipCode w) as H.
    destruct (axiosGet (finderUrl c zipCode) w) as [[[doc |] | e] w'];
      simpl; eexists; (split; [exact H | reflexivity]).
  - intros storeId barcode.
    pose proof (inventoryAdapter_cases c storeId barcode w) as H.
    destruct (axiosGet (productUrl c barcode) w) as [[[doc |] | e] w'];
      simpl; eexists; (split; [exact H |]); try reflexivity.
    eexists. split; [reflexivity |]. simpl.
    repeat split.
    + intros Hnone. rewrite Hnone. reflexivity.
    + intros Hnone. rewrite Hnone. reflexivity.
    + intros Hnone. unfold priceTextOf. rewrite Hnone. reflexivity.
Qed.

(** C7 (as stated) fails: a retrieved page that lacks every node the lookup
    reads still yields an inventory, not [null]. *)
Lemma inventory_of_page_without_nodes :
  fst (getWalmartInventory "1001" "012345" emptyPages)
  = Ok (Some (StoreInventory.mk "1001" walmart false None
                "Ask store associate" None))
  /\ fst (getWalmartInventory "1001" "012345" emptyPages) <> Ok None.
Proof. split; [vm_compute; reflexivity | vm_compute; discriminate]. Qed.

(** C8: when an inventory is returned, [inStock] holds exactly when the
    stock-state text contains "in stock" up to letter case, and [aisle] is
    the trimmed aisle text, or "Ask store associate" when that is empty. *)
Theorem inventory_stock_flag_and_aisle (c : Chain) (storeId barcode : string)
    (w w' : World) (inv : StoreInventory.t) :
  inventoryAdapter c storeId barcode w = (Ok (Some inv), w') ->
  exists doc,
    axiosGet (productUrl c barcode) w = (Ok (Markup doc), w') /\
    (StoreInventory.inStock inv = true <->
     containsIgnoringCase (text (select doc ".fulfillment-status")) "in stock") /\
    (let aisleText := trim (text (select doc ".aisle-location")) in
     (aisleText <> EmptyString -> StoreInventory.aisle inv = aisleText) /\
     (aisleText = EmptyString -> StoreInventory.aisle inv = "Ask store associate")).
Proof.
  intros H. pose proof (inventoryAdapter_cases c storeId barcode w) as Hc.
  destruct (axiosGet (productUrl c barcode) w) as [[[doc |] | e] w1];
    rewrite H in Hc; inversion Hc; subst; clear Hc.
  exists doc. split; [reflexivity |]. simpl. split.
  - apply includes_toLowerCase. reflexivity.
  - unfold orString.
    destruct (trim (text (select doc ".aisle-location"))); simpl; split;
      congruence.
Qed.

Lemma inventory_stock_flag_and_aisle_witness :
  exists doc,
    axiosGet (productUrl walmart "012345") freePages
    = (Ok (Markup doc), mkWorld (net freePages) 1) /\
    (StoreInventory.inStock
       (StoreInventory.mk "1001" walmart true None "Ask store associate" None) = true <->
     containsIgnoringCase (text (select doc ".fulfillment-status")) "in stock") /\
    (let aisleText := trim (text (select doc ".aisle-location")) in
     (aisleText <> EmptyString ->
      StoreInventory.aisle
        (StoreInventory.mk "1001" walmart true None "Ask store associate" None) = aisleText) /\
     (aisleText = EmptyString ->
      StoreInventory.aisle
        (StoreInventory.mk "1001" walmart true None "Ask store associate" None)
      = "Ask store associate")).
Proof.
  apply (inventory_stock_flag_and_aisle walmart "1001" "012345" freePages).
  vm_compute. reflexivity.
Defined.

(** ** Prices and distances *)

Lemma orUndefined_spec (x p : number) :
  orUndefined x = Some p <-> (p = x /\ isZero x = false /\ isNaN x = false).
Proof.
  unfold orUndefined. destruct x; simpl; split; intros H;
    try discriminate; try (destruct H as (_ & H1 & H2); discriminate);
    try (inversion H; auto); try (destruct H as (-> & _); reflexivity).
Qed.

Lemma orUndefined_falsy (x : number) :
  orUndefined x = None <-> (isZero x = true \/ isNaN x = true).
Proof.
  unfold orUndefined. destruct x; simpl; split; auto; try discriminate;
    intros [H | H]; discriminate.
Qed.

(** Rounding keeps the sign it is given: a positive sign never yields a
    negative number. *)
Lemma binary_round_aux_not_negative (mx ex : Z) (lx : location) :
  isNegative (binary_round_aux prec emax false mx ex lx) = false.
Proof.
  unfold binary_round_aux.
  destruct (shr_fexp prec emax mx ex lx) as [mrs' e'].
  destruct (shr_fexp prec emax _ e' loc_Exact) as [mrs'' e''].
  destruct (shr_m mrs''); try reflexivity.
  destruct (e'' <=? emax - prec); reflexivity.
Qed.

Lemma decimalToNumber_not_negative (m e : Z) :
  isNegative (decimalToNumber false m e) = false.
Proof.
  unfold decimalToNumber. destruct m as [| p | p]; try reflexivity.
  destruct (0 <=? e) eqn:He.
  - apply Z.leb_le in He.
    assert (Hpos : 0 < Z.pos p * 10 ^ e)
      by (apply Z.mul_pos_pos; [lia | apply Z.pow_pos_nonneg; lia]).
    unfold binary_normalize.
    destruct (Z.pos p * 10 ^ e) as [| q | q]; try lia.
    unfold binary_round.
    destruct (shl_align q 0 _) as [mz ez].
    apply binary_round_aux_not_negative.
  - unfold SFdiv.
    destruct (SFdiv_core_binary prec emax (Z.pos p) 0 _ 0) as [[mz ez] lz].
    apply binary_round_aux_not_negative.
Qed.

Lemma parseUnsigned_not_negative (s : string) :
  isNegative (parseUnsigned false s) = false.
Proof.
  unfold parseUnsigned.
  destruct (startsWith "Infinity" s); [reflexivity |].
  destruct (spanDigits s) as [ip r1].
  destruct (match r1 with
            | String "." t => spanDigits t
            | _ => (EmptyString, r1)
            end) as [fp r2].
  destruct (truthy ip || truthy fp); [| reflexivity].
  apply decimalToNumber_not_negative.
Qed.

(** [parseFloat] gives a negative number only for a text whose first
    character after the leading white space is a minus sign. *)
Lemma parseFloat_negative (s : string) :
  isNegative (parseFloat s) = true -> startsWith "-" (trimStart s) = true.
Proof.
  unfold parseFloat. destruct (trimStart s) as [| c r].
  - rewrite parseUnsigned_not_negative. discriminate.
  - intros H.
    destruct c as [[] [] [] [] [] [] [] []]; cbv iota beta in H;
      try reflexivity;
      rewrite parseUnsigned_not_negative in H; discriminate.
Qed.

(** The price of a returned inventory is what [parseFloat] reads in the
    price text, unless that is zero or [NaN]. *)
Lemma inventory_price_cases (c : Chain) (storeId barcode : string)
    (w w' : World) (inv : StoreInventory.t) :
  inventoryAdapter c storeId barcode w = (Ok (Some inv), w') ->
  exists doc,
    axiosGet (productUrl c barcode) w = (Ok (Markup doc), w') /\
    StoreInventory.price inv = orUndefined (parseFloat (priceTextOf c doc)).
Proof.
  intros H. pose proof (inventoryAdapter_cases c storeId barcode w) as Hc.
  destruct (axiosGet (productUrl c barcode) w) as [[[doc |] | e] w1];
    rewrite H in Hc; inversion Hc; subst; clear Hc.
  exists doc. split; reflexivity.
Qed.

(** C10: the price of a returned inventory is [undefined] when the price
    text parses to zero or does not parse; so a price that is present is
    never zero (nor [NaN]), and a page that shows "$0.00" yields an
    inventory without a price. *)
Theorem inventory_price_never_zero (c : Chain) (storeId barcode : string)
    (w w' : World) (inv : StoreInventory.t) :
  inventoryAdapter c storeId barcode w = (Ok (Some inv), w') ->
  exists doc,
    axiosGet (productUrl c barcode) w = (Ok (Markup doc), w') /\
    (let parsed := parseFloat (priceTextOf c doc) in
     (isZero parsed = true \/ isNaN parsed = true ->
      StoreInventory.price inv = None) /\
     (forall p, StoreInventory.price inv = Some p ->
                p = parsed /\ isZero p = false /\ isNaN p = false) /\
     (trim (text (select doc (priceSelector c))) = "$0.00" ->
      StoreInventory.price inv = None)).
Proof.
  intros H.
  destruct (inventory_price_cases c storeId barcode w w' inv H) as (doc & Hd & Hp).
  exists doc. split; [exact Hd |]. cbv zeta. rewrite Hp. repeat split.
  - apply orUndefined_falsy.
  - apply orUndefined_spec in H0. apply H0.
  - apply orUndefined_spec in H0. destruct H0 as (-> & Hz & _). exact Hz.
  - apply orUndefined_spec in H0. destruct H0 as (-> & _ & Hn). exact Hn.
  - intros Ht. unfold priceTextOf. rewrite Ht. reflexivity.
Qed.

Lemma inventory_price_never_zero_witness :
  exists doc,
    axiosGet (productUrl target "012345") freePages
    = (Ok (Markup doc), mkWorld (net freePages) 1) /\
    (let parsed := parseFloat (priceTextOf target doc) in
     (isZero parsed = true \/ isNaN parsed = true ->
      StoreInventory.price
        (StoreInventory.mk "2002" target true None "Ask store associate" None)
      = None) /\
     (forall p,
        StoreInventory.price
          (StoreInventory.mk "2002" target true None "Ask store associate" None)
        = Some p ->
        p = parsed /\ isZero p = false /\ isNaN p = false) /\
     (trim (text (select doc (priceSelector target))) = "$0.00" ->
      StoreInventory.price
        (StoreInventory.mk "2002" target true None "Ask store associate" None)
      = None)).
Proof.
  apply (inventory_price_never_zero target "2002" "012345" freePages).
  vm_compute. reflexivity.
Defined.

(** C9 (as amended): a price that is present is neither zero nor [NaN], and
    is negative only when the price text, once the first "$" and the leading
    white space are removed, begins with a minus sign; every store of a
    finder carries the number parsed from its distance text, which is
    negative only when that text begins with a minus sign.  Parsing is a
    total function: a text without a number gives [NaN], hence no price. *)
Theorem prices_and_distances_follow_the_text (c : Chain) :
  (forall storeId barcode w w' inv p,
     inventoryAdapter c storeId barcode w = (Ok (Some inv), w') ->
     StoreInventory.price inv = Some p ->
     isZero p = false /\ isNaN p = false /\
     exists doc,
       axiosGet (productUrl c barcode) w = (Ok (Markup doc), w') /\
       p = parseFloat (priceTextOf c doc) /\
       (isNegative p = true ->
        startsWith "-" (trimStart (priceTextOf c doc)) = true))
  /\ (forall zipCode w w' stores,
        storeFinder c zipCode w = (Ok stores, w') ->
        exists elements, stores = map (storeOfElement c) elements)
  /\ (forall element,
        let d := parseFloat (distanceTextOf element) in
        StoreLocation.distance (storeOfElement c element) = Some d /\
        (isNegative d = true ->
         startsWith "-" (trimStart (distanceTextOf element)) = true)).
Proof.
  split; [| split].
  - intros storeId barcode w w' inv p H Hprice.
    destruct (inventory_price_cases c storeId barcode w w' inv H) as (doc & Hd & Hp).
    rewrite Hp in Hprice. apply orUndefined_spec in Hprice.
    destruct Hprice as (-> & Hz & Hn).
    split; [exact Hz |]. split; [exact Hn |].
    exists doc. repeat split; [exact Hd | apply parseFloat_negative].
  - intros zipCode w w' stores H.
    pose proof (storeFinder_cases c zipCode w) as Hc.
    destruct (axiosGet (finderUrl c zipCode) w) as [[[doc |] | e] w1];
      rewrite H in Hc; inversion Hc; subst.
    + eexists. reflexivity.
    + exists []. reflexivity.
    + exists []. reflexivity.
  - intros element. split; [reflexivity | apply parseFloat_negative].
Qed.

(** C9 (as stated) fails: a page that shows "$-5.00" yields a negative
    price, and a store node that shows "-2 miles" a negative distance. *)
Lemma negative_price_and_distance :
  (exists p,
     fst (getWalmartInventory "1001" "012345" refundPages)
     = Ok (Some (StoreInventory.mk "1001" walmart true None
                   "Ask store associate" (Some p)))
     /\ isNegative p = true)
  /\ (exists d,
        StoreLocation.distance (storeOfElement target (storeNode "2002" "-2 miles"))
        = Some d /\ isNegative d = true).
Proof.
  split; eexists; split; vm_compute; reflexivity.
Qed.

(** The no-break space is white space: [parseFloat] skips it, and so does
    the price text before its sign is looked at. *)
Example price_text_with_no_break_space :
  isNegative (parseFloat (String (ascii_of_nat 160) "-5.00")) = true /\
  startsWith "-" (trimStart (String (ascii_of_nat 160) "-5.00")) = true.
Proof. split; vm_compute; reflexivity. Qed.

(** ** The orchestrator *)

(** What a product scraper returns, by the outcome of its request. *)
Lemma scraper_cases (c : Chain) (barcode : string) (w : World) :
  match axiosGet (productUrl c barcode) w with
  | (Ok (Markup doc), w') =>
      exists image brand,
        scraper c barcode w
        = (Ok (let name := trim (text (select doc (titleSelector c))) in
               if truthy name
               then Some (ProductInfo.mk name image barcode
                            (unknownInventory c) None (Some brand))
               else None), w')
  | (Ok NoData, w') | (Throw _, w') => scraper c barcode w = (Ok None, w')
  end.
Proof.
  destruct c; simpl;
    unfold scrapeWalmartProduct, scrapeTargetProduct, tryCatch, bind, load, throw, ret;
    simpl; destruct (axiosGet _ w) as [[[doc |] | e] w']; trivial;
    do 2 eexists;
    match goal with
    | |- context [truthy ?n] => destruct (truthy n); reflexivity
    end.
Qed.

Lemma scraper_total (c : Chain) (barcode : string) (w : World) :
  exists r w', scraper c barcode w = (Ok r, w').
Proof.
  pose proof (scraper_cases c barcode w) as H.
  destruct (axiosGet (productUrl c barcode) w) as [[[doc |] | e] w'].
  - destruct H as (image & brand & H). eauto.
  - eauto.
  - eauto.
Qed.

Lemma storeFinder_total (c : Chain) (zipCode : string) (w : World) :
  exists stores w', storeFinder c zipCode w = (Ok stores, w').
Proof.
  pose proof (storeFinder_cases c zipCode w) as H.
  destruct (axiosGet (finderUrl c zipCode) w) as [[[doc |] | e] w']; eauto.
Qed.

(** An inventory lookup never throws, and what it returns is labelled with
    the store it was asked about. *)
Lemma getInventory_total (store : StoreLocation.t) (barcode : string) (w : World) :
  exists r w',
    getInventory store barcode w = (Ok r, w') /\
    (forall i, r = Some i -> inventoryKey i = storeKey store).
Proof.
  rewrite getInventory_adapter.
  pose proof (inventoryAdapter_cases (StoreLocation.chain store)
                (StoreLocation.storeId store) barcode w) as H.
  destruct (axiosGet _ w) as [[[doc |] | e] w'].
  - eexists _, w'. split; [exact H |]. intros i Hi. inversion Hi. reflexivity.
  - exists None, w'. split; [exact H |]. discriminate.
  - exists None, w'. split; [exact H |]. discriminate.
Qed.

Lemma lookupAll_total (stores : list StoreLocation.t) (barcode : string) :
  forall w, exists results w',
    lookupAll stores barcode w = (Ok results, w') /\
    Forall2 (fun r s => forall i, r = Some i -> inventoryKey i = storeKey s)
            results stores.
Proof.
  induction stores as [| s rest IH]; intros w; simpl.
  - exists [], w. split; [reflexivity | constructor].
  - destruct (getInventory_total s barcode w) as (r & w1 & Hr & Hk).
    destruct (IH w1) as (rs & w2 & Hrs & Hks).
    exists (r :: rs), w2. unfold bind, ret. rewrite Hr, Hrs.
    split; [reflexivity | constructor; assumption].
Qed.

(** The loop over the alternatives appends, to what it was given, the
    in-stock results of the lookups, in the order of the stores. *)
Lemma checkAlternatives_lookupAll (stores : list StoreLocation.t) (barcode : string) :
  forall acc w results w',
    lookupAll stores barcode w = (Ok results, w') ->
    checkAlternatives stores barcode acc w = (Ok (acc ++ inStockOnly results), w').
Proof.
  induction stores as [| s rest IH]; intros acc w results w' H; simpl in *.
  - unfold ret in *. inversion H. simpl. rewrite app_nil_r. reflexivity.
  - unfold bind, ret in *.
    destruct (getInventory s barcode w) as [[r | e] w1]; [| discriminate].
    destruct (lookupAll rest barcode w1) as [[rs | e] w2] eqn:Hrs; [| discriminate].
    inversion H; subst. rewrite (IH _ _ _ _ Hrs).
    destruct r as [i |]; simpl; [| reflexivity].
    destruct (StoreInventory.inStock i); [| reflexivity].
    rewrite <- app_assoc. reflexivity.
Qed.

Lemma inStockOnly_inStock (results : list (option StoreInventory.t)) :
  Forall (fun a => StoreInventory.inStock a = true) (inStockOnly results).
Proof.
  induction results as [| [i |] rest IH]; simpl; auto.
  destruct (StoreInventory.inStock i) eqn:Hi; auto.
Qed.

Lemma inStockOnly_subsequence (results : list (option StoreInventory.t))
    (stores : list StoreLocation.t) :
  Forall2 (fun r s => forall i, r = Some i -> inventoryKey i = storeKey s)
          results stores ->
  Subsequence (map inventoryKey (inStockOnly results)) (map storeKey stores).
Proof.
  induction 1 as [| r s rs ss Hk _ IH]; simpl; [constructor |].
  destruct r as [i |]; [| apply Subsequence_skip; exact IH].
  destruct (StoreInventory.inStock i).
  - simpl. rewrite (Hk i eq_refl). apply Subsequence_take. exact IH.
  - apply Subsequence_skip. exact IH.
Qed.

Lemma Subsequence_length {A : Type} (l1 l2 : list A) :
  Subsequence l1 l2 -> (List.length l1 <= List.length l2)%nat.
Proof. induction 1; simpl; lia. Qed.

Lemma Subsequence_In {A : Type} (l1 l2 : list A) (x : A) :
  Subsequence l1 l2 -> In x l1 -> In x l2.
Proof.
  induction 1; simpl; intros Hx; auto.
  destruct Hx; auto.
Qed.

(** The [if (zipCode)] block never throws; its result is, case by case: *)
Lemma resolveInventory_cases (p : ProductInfo.t) (barcode zipCode : string)
    (w : World) :
  exists walmartStores w1 targetStores w2,
    findWalmartStores zipCode w = (Ok walmartStores, w1) /\
    findTargetStores zipCode w1 = (Ok targetStores, w2) /\
    match sortStores walmartStores targetStores with
    | [] => resolveInventory p barcode zipCode w = (Ok p, w2)
    | nearest :: others =>
        exists primary w3,
          getInventory nearest barcode w2 = (Ok primary, w3) /\
          (forall i, primary = Some i -> inventoryKey i = storeKey nearest) /\
          let p' := match primary with
                    | Some i => ProductInfo.setInventory p i
                    | None => p
                    end in
          if inStockOf primary
          then resolveInventory p barcode zipCode w = (Ok p', w3)
          else exists results w4,
              lookupAll (firstn 3 others) barcode w3 = (Ok results, w4) /\
              Forall2 (fun r s => forall i, r = Some i -> inventoryKey i = storeKey s)
                      results (firstn 3 others) /\
              resolveInventory p barcode zipCode w
              = (Ok (match inStockOnly results with
                     | _ :: _ => ProductInfo.setAlternativeStores p' (inStockOnly results)
                     | [] => p'
                     end), w4)
    end.
Proof.
  destruct (storeFinder_total walmart zipCode w) as (ws & w1 & Hws).
  destruct (storeFinder_total target zipCode w1) as (ts & w2 & Hts).
  simpl in Hws, Hts.
  exists ws, w1, ts, w2. split; [exact Hws |]. split; [exact Hts |].
  unfold resolveInventory, bind. rewrite Hws, Hts.
  destruct (sortStores ws ts) as [| nearest others] eqn:Hs; [reflexivity |].
  destruct (getInventory_total nearest barcode w2) as (primary & w3 & Hp & Hk).
  exists primary, w3. split; [exact Hp |]. split; [exact Hk |].
  rewrite Hp. cbv zeta.
  destruct (inStockOf primary); cbn [negb]; [reflexivity |].
  destruct (lookupAll_total (firstn 3 others) barcode w3) as (rs & w4 & Hrs & Hks).
  exists rs, w4. split; [exact Hrs |]. split; [exact Hks |].
  change (slice 1 4 (nearest :: others)) with (firstn 3 others). cbv beta.
  rewrite (checkAlternatives_lookupAll _ _ [] _ _ _ Hrs). reflexivity.
Qed.

Lemma resolveInventory_identity (p : ProductInfo.t) (barcode zipCode : string)
    (w : World) :
  exists p' w',
    resolveInventory p barcode zipCode w = (Ok p', w') /\ sameIdentity p' p.
Proof.
  assert (Hrefl : sameIdentity p p) by (repeat split).
  destruct (resolveInventory_cases p barcode zipCode w)
    as (ws & w1 & ts & w2 & _ & _ & H).
  destruct (sortStores ws ts) as [| nearest others]; [eauto |].
  destruct H as (primary & w3 & _ & _ & H). cbv zeta in H.
  assert (Hp : sameIdentity (match primary with
                             | Some i => ProductInfo.setInventory p i
                             | None => p
                             end) p)
    by (destruct primary; repeat split).
  destruct (inStockOf primary); [eauto |].
  destruct H as (rs & w4 & _ & _ & H).
  eexists _, w4. split; [exact H |].
  destruct (inStockOnly rs); [exact Hp |].
  destruct primary; repeat split.
Qed.

(** Once a product is identified, [getProductInfo] returns it, with the
    inventory attached when a zip code is given. *)
Lemma getProductInfo_found (barcode : string) (zipCode : option string)
    (w w1 : World) (found : option ProductInfo.t) (p : ProductInfo.t) :
  (fromWalmart <- scrapeWalmartProduct barcode ;;
   match fromWalmart with
   | Some p => ret (Some p)
   | None => scrapeTargetProduct barcode
   end) w = (Ok (Some p), w1) ->
  exists info w',
    getProductInfo barcode zipCode w = (Ok (Some info), w') /\ sameIdentity info p.
Proof.
  intros H. unfold getProductInfo, tryCatch.
  unfold bind at 1. unfold bind in H at 1.
  destruct (scrapeWalmartProduct barcode w) as [[fromWalmart | e] w0];
    [| discriminate].
  unfold bind at 1. rewrite H.
  destruct (zipGiven zipCode) as [zip |].
  - destruct (resolveInventory_identity p barcode zip w1) as (p' & w' & Hr & Hi).
    exists p', w'. unfold bind, ret. rewrite Hr. auto.
  - exists p, w1. split; [reflexivity | repeat split].
Qed.

Lemma scraper_fresh (c : Chain) (barcode : string) (w w' : World)
    (p : ProductInfo.t) :
  scraper c barcode w = (Ok (Some p), w') ->
  ProductInfo.alternativeStores p = None /\
  ProductInfo.inventory p = unknownInventory c.
Proof.
  intros H. pose proof (scraper_cases c barcode w) as Hc.
  destruct (axiosGet (productUrl c barcode) w) as [[[doc |] | e] w1].
  - destruct Hc as (image & brand & Hc). rewrite H in Hc. cbv zeta in Hc.
    destruct (truthy _); inversion Hc. split; reflexivity.
  - rewrite H in Hc. discriminate.
  - rewrite H in Hc. discriminate.
Qed.

(** [getProductInfo] after the product has been looked up at the chains. *)
Lemma getProductInfo_unfold (barcode : string) (zipCode : option string)
    (w w1 : World) (found : option ProductInfo.t) :
  (fromWalmart <- scrapeWalmartProduct barcode ;;
   match fromWalmart with
   | Some p => ret (Some p)
   | None => scrapeTargetProduct barcode
   end) w = (Ok found, w1) ->
  getProductInfo barcode zipCode w
  = match found with
    | Some p =>
        match zipGiven zipCode with
        | Some zip =>
            match resolveInventory p barcode zip w1 with
            | (Ok p', w') => (Ok (Some p'), w')
            | (Throw e, w') => (Ok None, w')
            end
        | None => (Ok (Some p), w1)
        end
    | None => (Ok None, w1)
    end.
Proof.
  intros H. unfold getProductInfo, tryCatch. unfold bind in *.
  destruct (scrapeWalmartProduct barcode w) as [[fromWalmart | e] w0];
    [| discriminate].
  rewrite H. destruct found as [p |]; [| reflexivity].
  destruct (zipGiven zipCode) as [zip |]; [| reflexivity].
  destruct (resolveInventory p barcode zip w1) as [[p' | e] w']; reflexivity.
Qed.

(** C4: the Walmart scraper is tried first and the Target scraper only when
    it finds nothing; the first product found is the identity of the result
    (and, without a zip code, the whole result, no further request being
    made); when neither finds a product name the result is [null]. *)
Theorem product_identity_priority (barcode : string) (zipCode : option string)
    (w : World) :
  exists fromWalmart w1,
    scrapeWalmartProduct barcode w = (Ok fromWalmart, w1) /\
    match fromWalmart with
    | Some p =>
        (exists info w',
           getProductInfo barcode zipCode w = (Ok (Some info), w') /\
           sameIdentity info p) /\
        (zipGiven zipCode = None ->
         getProductInfo barcode zipCode w = (Ok (Some p), w1))
    | None =>
        exists fromTarget w2,
          scrapeTargetProduct barcode w1 = (Ok fromTarget, w2) /\
          match fromTarget with
          | Some p =>
              (exists info w',
                 getProductInfo barcode zipCode w = (Ok (Some info), w') /\
                 sameIdentity info p) /\
              (zipGiven zipCode = None ->
               getProductInfo barcode zipCode w = (Ok (Some p), w2))
          | None => getProductInfo barcode zipCode w = (Ok None, w2)
          end
    end.
Proof.
  destruct (scraper_total walmart barcode w) as (fromWalmart & w1 & H1).
  simpl in H1. exists fromWalmart, w1. split; [exact H1 |].
  destruct fromWalmart as [p |].
  - assert (H : (fromWalmart <- scrapeWalmartProduct barcode ;;
                 match fromWalmart with
                 | Some p => ret (Some p)
                 | None => scrapeTargetProduct barcode
                 end) w = (Ok (Some p), w1))
      by (unfold bind; rewrite H1; reflexivity).
    split; [apply (getProductInfo_found barcode zipCode w w1 (Some p) p H) |].
    intros Hz. rewrite (getProductInfo_unfold barcode zipCode w w1 (Some p) H), Hz.
    reflexivity.
  - destruct (scraper_total target barcode w1) as (fromTarget & w2 & H2).
    simpl in H2. exists fromTarget, w2. split; [exact H2 |].
    assert (H : (fromWalmart <- scrapeWalmartProduct barcode ;;
                 match fromWalmart with
                 | Some p => ret (Some p)
                 | None => scrapeTargetProduct barcode
                 end) w = (Ok fromTarget, w2))
      by (unfold bind; rewrite H1; exact H2).
    destruct fromTarget as [p |].
    + split; [apply (getProductInfo_found barcode zipCode w w2 (Some p) p H) |].
      intros Hz. rewrite (getProductInfo_unfold barcode zipCode w w2 (Some p) H), Hz.
      reflexivity.
    + apply (getProductInfo_unfold barcode zipCode w w2 None H).
Qed.

Lemma firstn_3_length {A : Type} (l : list A) :
  (List.length (firstn 3 l) <= 3)%nat.
Proof. apply firstn_le_length. Qed.

(** The product that [getProductInfo] starts from is found at one of the
    chains, or not at all; a product just found has no alternatives and the
    placeholder inventory, which is not in stock. *)
Lemma identify_cases (barcode : string) (w : World) :
  exists found w1,
    identify barcode w = (Ok found, w1) /\
    forall p, found = Some p ->
      ProductInfo.alternativeStores p = None /\
      StoreInventory.inStock (ProductInfo.inventory p) = false.
Proof.
  unfold identify, bind.
  destruct (scraper_total walmart barcode w) as (fromWalmart & w1 & H1).
  simpl in H1. rewrite H1. destruct fromWalmart as [p |].
  - exists (Some p), w1. split; [reflexivity |].
    intros p' Hp. injection Hp as <-.
    destruct (scraper_fresh walmart barcode w w1 p H1) as [Ha Hi].
    split; [exact Ha | rewrite Hi; reflexivity].
  - destruct (scraper_total target barcode w1) as (fromTarget & w2 & H2).
    simpl in H2. exists fromTarget, w2. split; [exact H2 |].
    intros p Hp. subst fromTarget.
    destruct (scraper_fresh target barcode w1 w2 p H2) as [Ha Hi].
    split; [exact Ha | rewrite Hi; reflexivity].
Qed.

(** C3 (as amended): the alternatives of a result of [getProductInfo] are
    read off the candidates of this call, the stores of both finders after
    the sort.  Without a zip code, without a candidate, or when the lookup
    at the nearest candidate finds the product in stock, there are no
    alternatives and no further store is asked.  Otherwise the primary inventory is not in stock (or was
    not obtained), and [alternativeStores] is the list of the in-stock
    results of the lookups at the second to fourth candidates, in candidate
    order, the field being absent when that list is empty; none of them
    carries the store id of the nearest candidate when the store ids of
    these first four candidates are pairwise different.  So
    [alternativeStores], when present, is not empty, has at most three
    elements, all in stock, and the primary inventory is then not in
    stock. *)
Theorem alternativeStores_properties (barcode : string) (zipCode : option string)
    (w w' : World) (info : ProductInfo.t) :
  getProductInfo barcode zipCode w = (Ok (Some info), w') ->
  (exists p w1,
     identify barcode w = (Ok (Some p), w1) /\
     match zipGiven zipCode with
     | None => ProductInfo.alternativeStores info = None /\ w' = w1
     | Some zip =>
         exists walmartStores w2 targetStores w3,
           findWalmartStores zip w1 = (Ok walmartStores, w2) /\
           findTargetStores zip w2 = (Ok targetStores, w3) /\
           match sortStores walmartStores targetStores with
           | [] => ProductInfo.alternativeStores info = None /\ w' = w3
           | nearest :: others =>
               exists primary w4,
                 getInventory nearest barcode w3 = (Ok primary, w4) /\
                 (forall i, primary = Some i ->
                            ProductInfo.inventory info = i /\
                            StoreInventory.storeId i = StoreLocation.storeId nearest) /\
                 if inStockOf primary
                 then ProductInfo.alternativeStores info = None /\ w' = w4
                 else
                   StoreInventory.inStock (ProductInfo.inventory info) = false /\
                   exists results,
                     lookupAll (firstn 3 others) barcode w4 = (Ok results, w') /\
                     ProductInfo.alternativeStores info
                     = match inStockOnly results with
                       | [] => None
                       | alts => Some alts
                       end /\
                     Subsequence (map inventoryKey (inStockOnly results))
                                 (map storeKey (firstn 3 others)) /\
                     (NoDup (map StoreLocation.storeId (nearest :: firstn 3 others)) ->
                      Forall (fun a => StoreInventory.storeId a
                                       <> StoreLocation.storeId nearest)
                             (inStockOnly results))
           end
     end)
  /\ (forall alts,
        ProductInfo.alternativeStores info = Some alts ->
        alts <> [] /\
        (List.length alts <= 3)%nat /\
        Forall (fun a => StoreInventory.inStock a = true) alts /\
        StoreInventory.inStock (ProductInfo.inventory info) = false).
Proof.
  intros Hget.
  destruct (identify_cases barcode w) as (found & w1 & Hid & Hfresh).
  pose proof (getProductInfo_unfold barcode zipCode w w1 found Hid) as Hun.
  rewrite Hget in Hun.
  destruct found as [p |]; [| discriminate].
  destruct (Hfresh p eq_refl) as [Ha Hi]. clear Hfresh.
  destruct (zipGiven zipCode) as [zip |] eqn:Hzip.
  2:{ injection Hun as Hinfo Hw. subst info w'.
      split; [| intros alts H; congruence].
      exists p, w1. split; [exact Hid | split; [exact Ha | reflexivity]]. }
  destruct (resolveInventory_cases p barcode zip w1)
    as (ws & w2 & ts & w3 & Hws & Hts & H).
  destruct (sortStores ws ts) as [| nearest others] eqn:Hsort.
  { rewrite H in Hun. injection Hun as Hinfo Hw. subst info w'.
    split; [| intros alts Halts; congruence].
    exists p, w1. split; [exact Hid |].
    exists ws, w2, ts, w3. rewrite Hsort. auto. }
  destruct H as (primary & w4 & Hprim & Hkey & H). cbv zeta in H.
  assert (Hinv : forall i, primary = Some i ->
                           StoreInventory.storeId i = StoreLocation.storeId nearest).
  { intros i Hi'. specialize (Hkey i Hi'). inversion Hkey. reflexivity. }
  destruct (inStockOf primary) eqn:Hstock.
  { rewrite H in Hun. injection Hun as Hinfo Hw. subst w'.
    assert (Hnone : ProductInfo.alternativeStores info = None).
    { subst info. destruct primary; exact Ha. }
    split; [| intros alts Halts; congruence].
    exists p, w1. split; [exact Hid |].
    exists ws, w2, ts, w3. rewrite Hsort.
    split; [exact Hws |]. split; [exact Hts |].
    exists primary, w4. rewrite Hstock.
    split; [exact Hprim |]. split; [| split; [exact Hnone | reflexivity]].
    intros i ->. subst info. split; [reflexivity | apply Hinv; reflexivity]. }
  destruct H as (results & w5 & Hall & Hkeys & H).
  rewrite H in Hun. injection Hun as Hinfo Hw. subst w'. clear H.
  pose proof (inStockOnly_subsequence results _ Hkeys) as Hsub.
  assert (Hprimary : StoreInventory.inStock (ProductInfo.inventory info) = false).
  { subst info. destruct (inStockOnly results); destruct primary as [i |];
      simpl in *; assumption. }
  assert (Halts : ProductInfo.alternativeStores info
                  = match inStockOnly results with
                    | [] => None
                    | alts => Some alts
                    end).
  { subst info. destruct (inStockOnly results); destruct primary; simpl; auto. }
  split.
  - exists p, w1. split; [exact Hid |].
    exists ws, w2, ts, w3. rewrite Hsort.
    split; [exact Hws |]. split; [exact Hts |].
    exists primary, w4. rewrite Hstock.
    split; [exact Hprim |]. split.
    { intros i ->. split; [| apply Hinv; reflexivity].
      subst info. destruct (inStockOnly results); reflexivity. }
    split; [exact Hprimary |].
    exists results. split; [exact Hall |]. split; [exact Halts |].
    split; [exact Hsub |].
    intros Hnd. inversion Hnd as [| x l Hnotin _]; subst x l.
    apply Forall_forall. intros b Hb Heq.
    apply Hnotin. rewrite <- Heq.
    assert (Hk : In (inventoryKey b) (map storeKey (firstn 3 others))).
    { apply (Subsequence_In _ _ _ Hsub). apply in_map. exact Hb. }
    apply in_map_iff in Hk. destruct Hk as (s & Hs & Hins).
    apply in_map_iff. exists s. split; [| exact Hins].
    inversion Hs. reflexivity.
  - intros alts Hsome. rewrite Halts in Hsome.
    destruct (inStockOnly results) as [| a rest] eqn:Hin; [discriminate |].
    injection Hsome as <-.
    split; [discriminate |]. split.
    { apply Subsequence_length in Hsub. rewrite !length_map in Hsub.
      pose proof (firstn_3_length others). lia. }
    split; [rewrite <- Hin; apply inStockOnly_inStock | exact Hprimary].
Qed.

Lemma alternativeStores_properties_witness :
  exists info alts,
    getProductInfo "012345" (Some "90210") sameNumberSite
    = (Ok (Some info), mkWorld (net sameNumberSite) 5) /\
    ProductInfo.alternativeStores info = Some alts /\
    alts <> [] /\
    (List.length alts <= 3)%nat /\
    Forall (fun a => StoreInventory.inStock a = true) alts /\
    StoreInventory.inStock (ProductInfo.inventory info) = false.
Proof.
  assert (H : exists info,
             getProductInfo "012345" (Some "90210") sameNumberSite
             = (Ok (Some info), mkWorld (net sameNumberSite) 5) /\
             exists alts, ProductInfo.alternativeStores info = Some alts).
  { eexists. split; [vm_compute; reflexivity |]. eexists. reflexivity. }
  destruct H as (info & Hget & alts & Halts).
  destruct (proj2 (alternativeStores_properties _ _ _ _ info Hget) alts Halts)
    as (H1 & H2 & H3 & H4).
  exists info, alts. auto 10.
Defined.

(** C3 (as stated) fails on the store ids: the nearest store (Walmart 100)
    is out of stock, and the alternative that is reported (Target 100) has
    the same store id as the primary inventory. *)
Lemma alternative_with_the_primary_store_id :
  exists info alt,
    fst (getProductInfo "012345" (Some "90210") sameNumberSite) = Ok (Some info) /\
    ProductInfo.alternativeStores info = Some [alt] /\
    StoreInventory.storeId (ProductInfo.inventory info) = "100" /\
    StoreInventory.storeId alt = "100".
Proof.
  eexists. eexists. split; [vm_compute; reflexivity |].
  split; [reflexivity |]. split; reflexivity.
Qed.

(** ** Sorting with a comparator that compares integer keys *)

Section SortByKey.
Context {A R : Type}.
Variable positive : R -> bool.
Variable comparefn : A -> A -> R.
Variable key : A -> Z.
Variable ok : A -> Prop.
Hypothesis comparefn_key :
  forall x y, ok x -> ok y -> positive (comparefn x y) = (key y <? key x).

Lemma insertSorted_perm (x : A) (l : list A) :
  Permutation (x :: l) (insertSorted positive comparefn x l).
Proof.
  induction l as [| y r IH]; simpl; [reflexivity |].
  destruct (positive (comparefn x y)); [| reflexivity].
  rewrite perm_swap. apply perm_skip. exact IH.
Qed.

Lemma sortWith_perm (l : list A) :
  Permutation l (sortWith positive comparefn l).
Proof.
  induction l as [| x r IH]; simpl; [reflexivity |].
  rewrite <- insertSorted_perm. apply perm_skip. exact IH.
Qed.

Lemma insertSorted_sorted_on (x : A) (l : list A) :
  ok x -> Forall ok l ->
  StronglySorted (fun x y => key x <= key y) l ->
  StronglySorted (fun x y => key x <= key y) (insertSorted positive comparefn x l).
Proof.
  intros Hx Hl. induction 1 as [| y r Hr IH Hy]; simpl.
  - repeat constructor.
  - inversion Hl as [| ? ? Hoy Hor]; subst.
    rewrite (comparefn_key x y Hx Hoy). destruct (key y <? key x) eqn:E.
    + apply Z.ltb_lt in E. constructor; [exact (IH Hor) |].
      rewrite <- insertSorted_perm. constructor; [cbv beta; lia | exact Hy].
    + apply Z.ltb_ge in E. constructor; [constructor; assumption |].
      constructor; [exact E |].
      eapply Forall_impl; [| exact Hy]. cbv beta. intros; lia.
Qed.

Lemma sortWith_sorted_on (l : list A) :
  Forall ok l ->
  StronglySorted (fun x y => key x <= key y) (sortWith positive comparefn l).
Proof.
  induction 1 as [| x r Hx Hr IH]; simpl; [constructor |].
  apply insertSorted_sorted_on; [exact Hx | | exact IH].
  apply (Permutation_Forall (sortWith_perm r)). exact Hr.
Qed.

(** Stability: the elements of one key keep their order. *)
Lemma insertSorted_stable_on (k : Z) (x : A) (l : list A) :
  ok x -> Forall ok l ->
  filter (fun y => key y =? k) (insertSorted positive comparefn x l)
  = filter (fun y => key y =? k) (x :: l).
Proof.
  intros Hx. induction 1 as [| y r Hy Hr IH]; simpl; [reflexivity |].
  rewrite (comparefn_key x y Hx Hy).
  destruct (key y <? key x) eqn:E; [| reflexivity].
  apply Z.ltb_lt in E. simpl. rewrite IH. simpl.
  destruct (key y =? k) eqn:Ey; destruct (key x =? k) eqn:Ex; try reflexivity.
  apply Z.eqb_eq in Ey, Ex. lia.
Qed.

Lemma sortWith_stable_on (k : Z) (l : list A) :
  Forall ok l ->
  filter (fun y => key y =? k) (sortWith positive comparefn l)
  = filter (fun y => key y =? k) l.
Proof.
  induction 1 as [| x r Hx Hr IH]; simpl; [reflexivity |].
  rewrite insertSorted_stable_on; [simpl; rewrite IH; reflexivity | exact Hx |].
  apply (Permutation_Forall (sortWith_perm r)). exact Hr.
Qed.
End SortByKey.

Section SortByTotalKey.
Context {A R : Type}.
Variable positive : R -> bool.
Variable comparefn : A -> A -> R.
Variable key : A -> Z.
Hypothesis comparefn_key :
  forall x y, positive (comparefn x y) = (key y <? key x).

Lemma sortWith_sorted (l : list A) :
  StronglySorted (fun x y => key x <= key y) (sortWith positive comparefn l).
Proof.
  apply (sortWith_sorted_on positive comparefn key (fun _ => True)).
  - intros x y _ _. apply comparefn_key.
  - apply Forall_forall. trivial.
Qed.

Lemma sortWith_stable (k : Z) (l : list A) :
  filter (fun y => key y =? k) (sortWith positive comparefn l)
  = filter (fun y => key y =? k) l.
Proof.
  apply (sortWith_stable_on positive comparefn key (fun _ => True)).
  - intros x y _ _. apply comparefn_key.
  - apply Forall_forall. trivial.
Qed.
End SortByTotalKey.

(** ** The order of the candidates *)

Lemma digits2_pos_bounds (m : positive) :
  2 ^ (Z.pos (digits2_pos m) - 1) <= Z.pos m < 2 ^ Z.pos (digits2_pos m).
Proof.
  induction m as [p IH | p IH |]; simpl digits2_pos.
  - rewrite Pos2Z.inj_succ.
    replace (Z.succ (Z.pos (digits2_pos p)) - 1) with (Z.succ (Z.pos (digits2_pos p) - 1)) by lia.
    rewrite !Z.pow_succ_r by lia. lia.
  - rewrite Pos2Z.inj_succ.
    replace (Z.succ (Z.pos (digits2_pos p)) - 1) with (Z.succ (Z.pos (digits2_pos p) - 1)) by lia.
    rewrite !Z.pow_succ_r by lia. lia.
  - simpl. lia.
Qed.

Lemma valid_finite_bounds (s : bool) (m : positive) (e : Z) :
  isNumber (S754_finite s m e) = true ->
  -1074 <= e <= 971 /\ Z.pos (digits2_pos m) <= 53.
Proof.
  unfold isNumber, valid_binary, bounded, canonical_mantissa, fexp, emin, prec, emax.
  rewrite andb_true_iff, Z.eqb_eq, Z.leb_le. lia.
Qed.

Lemma shr_1_m (mrs : shr_record) :
  0 <= shr_m mrs -> shr_m (shr_1 mrs) = shr_m mrs / 2 /\ 0 <= shr_m (shr_1 mrs).
Proof.
  destruct mrs as [m r s]. simpl. intros Hm.
  destruct m as [| [p | p |] | p]; try lia; simpl shr_m.
  - split; [reflexivity | lia].
  - split; [| lia]. apply (Z.div_unique _ _ _ 1); lia.
  - split; [| lia]. apply (Z.div_unique _ _ _ 0); lia.
  - split; [reflexivity | lia].
Qed.

Lemma iter_pos_shr_1 (n : positive) :
  forall mrs, 0 <= shr_m mrs ->
    shr_m (iter_pos shr_1 n mrs) = shr_m mrs / 2 ^ Z.pos n /\
    0 <= shr_m (iter_pos shr_1 n mrs).
Proof.
  induction n as [n IH | n IH |]; intros mrs Hm; simpl iter_pos.
  - destruct (shr_1_m mrs Hm) as [H1 P1].
    destruct (IH _ P1) as [H2 P2]. destruct (IH _ P2) as [H3 P3].
    split; [| exact P3]. rewrite H3, H2, H1.
    rewrite !Z.div_div by lia.
    replace (Z.pos n~1) with (1 + Z.pos n + Z.pos n) by lia.
    rewrite !Z.pow_add_r by lia. f_equal; rewrite ?Z.pow_1_r; try ring.
  - destruct (IH _ Hm) as [H2 P2]. destruct (IH _ P2) as [H3 P3].
    split; [| exact P3]. rewrite H3, H2.
    rewrite !Z.div_div by lia.
    replace (Z.pos n~0) with (Z.pos n + Z.pos n) by lia.
    rewrite !Z.pow_add_r by lia. f_equal; rewrite ?Z.pow_1_r; try ring.
  - destruct (shr_1_m mrs Hm) as [H1 P1]. split; [| exact P1].
    rewrite H1. reflexivity.
Qed.

Lemma shr_record_of_loc_m (m : Z) (l : location) :
  shr_m (shr_record_of_loc m l) = m.
Proof. destruct l as [| []]; reflexivity. Qed.

(** One normalisation step keeps a positive significand positive, when the
    exponent is at least that of the subnormal numbers. *)
Lemma shr_fexp_positive (q : positive) (e : Z) (l : location) :
  -1074 <= e ->
  1 <= shr_m (fst (shr_fexp prec emax (Z.pos q) e l)) /\
  -1074 <= snd (shr_fexp prec emax (Z.pos q) e l).
Proof.
  intros He. unfold shr_fexp, shr, fexp, emin, prec, emax. cbn [Zdigits2].
  pose proof (digits2_pos_bounds q) as [Hlo _].
  destruct (Z.max (Z.pos (digits2_pos q) + e - 53) (3 - 1024 - 53) - e) as [| n | n] eqn:En;
    cbn [fst snd]; rewrite ?shr_record_of_loc_m; try lia.
  destruct (iter_pos_shr_1 n (shr_record_of_loc (Z.pos q) l)) as [Hm _];
    [rewrite shr_record_of_loc_m; lia |].
  rewrite Hm, shr_record_of_loc_m. split; [| lia].
  apply Z.div_le_lower_bound; [apply Z.pow_pos_nonneg; lia |].
  rewrite Z.mul_1_r. apply Z.le_trans with (2 ^ (Z.pos (digits2_pos q) - 1)); [| exact Hlo].
  apply Z.pow_le_mono_r; lia.
Qed.

Lemma round_nearest_even_ge (m : Z) (l : location) :
  m <= round_nearest_even m l.
Proof.
  unfold round_nearest_even. destruct l as [| []]; try lia.
  destruct (Z.even m); lia.
Qed.

Lemma binary_round_aux_positive (q : positive) (e : Z) (l : location) :
  -1074 <= e ->
  isPositive (binary_round_aux prec emax false (Z.pos q) e l) = true.
Proof.
  intros He. unfold binary_round_aux.
  destruct (shr_fexp_positive q e l He) as [H1 He1].
  destruct (shr_fexp prec emax (Z.pos q) e l) as [mrs1 e1]. cbn [fst snd] in *.
  pose proof (round_nearest_even_ge (shr_m mrs1) (loc_of_shr_record mrs1)) as Hr.
  destruct (round_nearest_even (shr_m mrs1) (loc_of_shr_record mrs1)) as [| q1 | q1];
    try lia.
  destruct (shr_fexp_positive q1 e1 loc_Exact He1) as [H2 _].
  destruct (shr_fexp prec emax (Z.pos q1) e1 loc_Exact) as [mrs2 e2]. cbn [fst snd] in *.
  destruct (shr_m mrs2) as [| q2 | q2]; try lia.
  destruct (e2 <=? emax - prec); reflexivity.
Qed.

Lemma binary_round_aux_not_positive (m e : Z) (l : location) :
  isPositive (binary_round_aux prec emax true m e l) = false.
Proof.
  unfold binary_round_aux.
  destruct (shr_fexp prec emax m e l) as [mrs1 e1].
  destruct (shr_fexp prec emax _ e1 loc_Exact) as [mrs2 e2].
  destruct (shr_m mrs2); try reflexivity.
  destruct (e2 <=? emax - prec); reflexivity.
Qed.

Lemma iter_xO (m d : positive) :
  Z.pos (Pos.iter xO m d) = Z.pos m * 2 ^ Z.pos d.
Proof.
  induction d as [| d IH] using Pos.peano_ind.
  - simpl. lia.
  - rewrite Pos.iter_succ, Pos2Z.inj_succ, Z.pow_succ_r by lia.
    rewrite Pos2Z.inj_xO, IH. ring.
Qed.

Lemma shl_align_spec (m : positive) (e e' : Z) :
  e' <= e ->
  Z.pos (fst (shl_align m e e')) = Z.pos m * 2 ^ (e - e') /\
  snd (shl_align m e e') = e'.
Proof.
  intros H. unfold shl_align. destruct (e' - e) as [| d | d] eqn:Ed; try lia.
  - replace (e - e') with 0 by lia. simpl. split; lia.
  - cbn [fst snd]. rewrite iter_xO. replace (e - e') with (Z.pos d) by lia. auto.
Qed.

Lemma shl_align_exponent (m : positive) (e e' : Z) :
  -1074 <= e -> -1074 <= e' -> -1074 <= snd (shl_align m e e').
Proof.
  intros H H'. unfold shl_align. destruct (e' - e); assumption.
Qed.

Lemma binary_normalize_positive (m e : Z) :
  -1074 <= e ->
  isPositive (binary_normalize prec emax m e false) = (0 <? m).
Proof.
  intros He. destruct m as [| q | q]; simpl; try reflexivity.
  - unfold binary_round.
    pose proof (shl_align_exponent q e (fexp prec emax (Z.pos (digits2_pos q) + e)) He) as Hs.
    destruct (shl_align q e _) as [mz ez]. cbn [snd] in Hs.
    apply binary_round_aux_positive. apply Hs.
    unfold fexp, emin, prec, emax. lia.
  - unfold binary_round. destruct (shl_align q e _) as [mz ez].
    apply binary_round_aux_not_positive.
Qed.

Lemma scaled_finite_bounds (s : bool) (m : positive) (e : Z) :
  isNumber (S754_finite s m e) = true ->
  0 < Z.pos m * 2 ^ (e + 1074) < beyond.
Proof.
  intros H. destruct (valid_finite_bounds s m e H) as [He Hd].
  pose proof (digits2_pos_bounds m) as [_ Hm].
  assert (H53 : Z.pos m < 2 ^ 53).
  { apply Z.lt_le_trans with (2 ^ Z.pos (digits2_pos m)); [exact Hm |].
    apply Z.pow_le_mono_r; lia. }
  assert (Hp : 0 < 2 ^ (e + 1074)) by (apply Z.pow_pos_nonneg; lia).
  split; [apply Z.mul_pos_pos; lia |].
  apply Z.lt_le_trans with (2 ^ 53 * 2 ^ (e + 1074)).
  - apply Z.mul_lt_mono_pos_r; assumption.
  - unfold beyond. rewrite <- Z.pow_add_r by lia. apply Z.pow_le_mono_r; lia.
Qed.

Lemma sign_scaled (a b p : Z) :
  0 < p -> (0 <? a - b) = (b * p <? a * p).
Proof.
  intros Hp. destruct (0 <? a - b) eqn:E1; destruct (b * p <? a * p) eqn:E2;
    trivial; rewrite ?Z.ltb_lt, ?Z.ltb_ge in *; nia.
Qed.

Lemma isPositive_sign (x : number) :
  isPositive x
  = match x with
    | S754_finite s _ _ | S754_infinity s => negb s
    | _ => false
    end.
Proof. destruct x as [s | s | | s m e]; try destruct s; reflexivity. Qed.

Lemma ltb_cases (b : bool) (u v : Z) :
  (if b then u < v else v <= u) -> b = (u <? v).
Proof.
  destruct b; intros H; symmetry; [apply Z.ltb_lt | apply Z.ltb_ge]; exact H.
Qed.

Lemma isNumber_inRange (x : number) : isNumber x = true -> inRange x.
Proof.
  destruct x as [s | s | | s m e]; try exact (fun _ => I).
  intros H. split.
  - apply (valid_finite_bounds s m e H).
  - apply (scaled_finite_bounds s m e H).
Qed.

Lemma inRange_scaled (s : bool) (m : positive) (e : Z) :
  inRange (S754_finite s m e) -> 0 < Z.pos m * 2 ^ (e + 1074) < beyond.
Proof.
  intros [He Hm]. split; [| exact Hm].
  apply Z.mul_pos_pos; [lia | apply Z.pow_pos_nonneg; lia].
Qed.

(** The difference of two numbers is positive exactly when the first is the
    greater one. *)
Lemma subNumber_positive_inRange (x y : number) :
  inRange x -> inRange y ->
  isNaN x = false -> isNaN y = false ->
  isPositive (subNumber x y) = (scaledValue y <? scaledValue x).
Proof.
  intros Vx Vy Nx Ny.
  assert (Hbig : 0 < beyond) by (apply Z.pow_pos_nonneg; lia).
  destruct x as [sx | sx | | sx mx ex]; try discriminate;
    destruct y as [sy | sy | | sy my ey]; try discriminate;
    try pose proof (inRange_scaled _ _ _ Vx) as Bx;
    try pose proof (inRange_scaled _ _ _ Vy) as By.
  9:{ destruct Vx as [Hex _].
      destruct Vy as [Hey _].
      unfold subNumber, SFsub.
      rewrite binary_normalize_positive by lia.
      destruct (shl_align_spec mx ex (Z.min ex ey)) as [HX _]; [lia |].
      destruct (shl_align_spec my ey (Z.min ex ey)) as [HY _]; [lia |].
      rewrite HX, HY.
      rewrite (sign_scaled _ _ (2 ^ (Z.min ex ey + 1074)))
        by (apply Z.pow_pos_nonneg; lia).
      assert (Ex : Z.pos mx * 2 ^ (ex - Z.min ex ey) * 2 ^ (Z.min ex ey + 1074)
                   = Z.pos mx * 2 ^ (ex + 1074)).
      { rewrite <- Z.mul_assoc, <- Z.pow_add_r by lia. do 2 f_equal. lia. }
      assert (Ey : Z.pos my * 2 ^ (ey - Z.min ex ey) * 2 ^ (Z.min ex ey + 1074)
                   = Z.pos my * 2 ^ (ey + 1074)).
      { rewrite <- Z.mul_assoc, <- Z.pow_add_r by lia. do 2 f_equal. lia. }
      destruct sx, sy; cbn [cond_Zopp scaledValue];
        rewrite ?Z.mul_opp_l, Ex, Ey; reflexivity. }
  all: rewrite isPositive_sign; unfold subNumber; cbn [SFsub scaledValue];
    apply ltb_cases; destruct sx, sy; cbn [negb]; lia.
Qed.

Lemma subNumber_positive (x y : number) :
  isNumber x = true -> isNumber y = true ->
  isNaN x = false -> isNaN y = false ->
  isPositive (subNumber x y) = (scaledValue y <? scaledValue x).
Proof.
  intros Vx Vy. apply subNumber_positive_inRange; apply isNumber_inRange; assumption.
Qed.

(** *** Integers as Numbers *)

Lemma shr_fexp_small (q : positive) (e : Z) (l : location) :
  -1074 <= e ->
  shr_m (fst (shr_fexp prec emax (Z.pos q) e l)) < 2 ^ 53.
Proof.
  intros He. unfold shr_fexp, shr, fexp, emin, prec, emax. cbn [Zdigits2].
  pose proof (digits2_pos_bounds q) as [_ Hhi].
  destruct (Z.max (Z.pos (digits2_pos q) + e - 53) (3 - 1024 - 53) - e) as [| n | n] eqn:En;
    cbn [fst snd]; rewrite ?shr_record_of_loc_m.
  - apply Z.lt_le_trans with (1 := Hhi). apply Z.pow_le_mono_r; lia.
  - destruct (iter_pos_shr_1 n (shr_record_of_loc (Z.pos q) l)) as [Hm _];
      [rewrite shr_record_of_loc_m; lia |].
    rewrite Hm, shr_record_of_loc_m.
    apply Z.div_lt_upper_bound; [apply Z.pow_pos_nonneg; lia |].
    rewrite <- Z.pow_add_r by lia.
    apply Z.lt_le_trans with (1 := Hhi). apply Z.pow_le_mono_r; lia.
  - apply Z.lt_le_trans with (1 := Hhi). apply Z.pow_le_mono_r; lia.
Qed.

Lemma binary_round_aux_inRange (s : bool) (q : positive) (e : Z) (l : location) :
  -1074 <= e ->
  inRange (binary_round_aux prec emax s (Z.pos q) e l) /\
  isNaN (binary_round_aux prec emax s (Z.pos q) e l) = false.
Proof.
  intros He. unfold binary_round_aux.
  destruct (shr_fexp_positive q e l He) as [H1 He1].
  destruct (shr_fexp prec emax (Z.pos q) e l) as [mrs1 e1]. cbn [fst snd] in *.
  pose proof (round_nearest_even_ge (shr_m mrs1) (loc_of_shr_record mrs1)) as Hr.
  destruct (round_nearest_even (shr_m mrs1) (loc_of_shr_record mrs1)) as [| q1 | q1];
    try lia.
  destruct (shr_fexp_positive q1 e1 loc_Exact He1) as [H2 He2].
  pose proof (shr_fexp_small q1 e1 loc_Exact He1) as H3.
  destruct (shr_fexp prec emax (Z.pos q1) e1 loc_Exact) as [mrs2 e2]. cbn [fst snd] in *.
  destruct (shr_m mrs2) as [| q2 | q2]; try lia.
  destruct (e2 <=? emax - prec) eqn:E; cbn [inRange isNaN]; [| auto].
  split; [| reflexivity]. split; [exact He2 |].
  apply Z.leb_le in E. unfold emax, prec in E.
  apply Z.lt_le_trans with (2 ^ 53 * 2 ^ (e2 + 1074)).
  - apply Z.mul_lt_mono_pos_r; [apply Z.pow_pos_nonneg; lia | exact H3].
  - unfold beyond. rewrite <- Z.pow_add_r by lia. apply Z.pow_le_mono_r; lia.
Qed.

Lemma ofInteger_number (n : Z) :
  inRange (ofInteger n) /\ isNaN (ofInteger n) = false.
Proof.
  unfold ofInteger.
  destruct n as [| q | q]; simpl; [split; [exact I | reflexivity] | |];
    unfold binary_round;
    pose proof (shl_align_exponent q 0 (fexp prec emax (Z.pos (digits2_pos q) + 0))) as Hs;
    destruct (shl_align q 0 _) as [mz ez]; cbn [snd] in Hs;
    apply binary_round_aux_inRange; apply Hs;
    unfold fexp, emin, prec, emax; lia.
Qed.

Lemma digits2_pos_iter_xO (q d : positive) :
  digits2_pos (Pos.iter xO q d) = (digits2_pos q + d)%positive.
Proof.
  induction d as [| d IH] using Pos.peano_ind.
  - simpl. lia.
  - rewrite Pos.iter_succ. simpl. rewrite IH. lia.
Qed.

Lemma binary_round_aux_exact (s : bool) (m : positive) (e : Z) :
  digits2_pos m = 53%positive -> -1074 <= e <= 971 ->
  binary_round_aux prec emax s (Z.pos m) e loc_Exact = S754_finite s m e.
Proof.
  intros Hd He.
  assert (Hs : shr_fexp prec emax (Z.pos m) e loc_Exact
               = (shr_record_of_loc (Z.pos m) loc_Exact, e)).
  { unfold shr_fexp, shr, fexp, emin, prec, emax. cbn [Zdigits2]. rewrite Hd.
    replace (Z.max (53 + e - 53) (3 - 1024 - 53) - e) with 0 by lia. reflexivity. }
  unfold binary_round_aux. rewrite Hs. cbn [shr_record_of_loc shr_m loc_of_shr_record round_nearest_even].
  rewrite Hs. cbn [shr_record_of_loc shr_m].
  unfold emax, prec. destruct (e <=? 1024 - 53) eqn:E; [reflexivity |].
  apply Z.leb_gt in E. lia.
Qed.

(** An integer below [2^53] is a Number. *)
Lemma ofInteger_exact (n : Z) :
  0 <= n < 2 ^ 53 -> scaledValue (ofInteger n) = n * 2 ^ 1074.
Proof.
  intros Hn. unfold ofInteger. destruct n as [| q | q]; [reflexivity | | lia].
  cbn [binary_normalize]. unfold binary_round.
  pose proof (digits2_pos_bounds q) as [Hlo _].
  assert (Hd : Z.pos (digits2_pos q) <= 53).
  { destruct (Z.le_gt_cases (Z.pos (digits2_pos q)) 53) as [H | H]; [exact H |].
    assert (2 ^ 53 <= 2 ^ (Z.pos (digits2_pos q) - 1)) by (apply Z.pow_le_mono_r; lia).
    lia. }
  unfold shl_align, fexp, emin, prec, emax.
  destruct (Z.max (Z.pos (digits2_pos q) + 0 - 53) (3 - 1024 - 53) - 0) as [| d | d] eqn:Ed;
    try lia.
  - rewrite binary_round_aux_exact; [| lia | lia].
    cbn [scaledValue]. reflexivity.
  - rewrite binary_round_aux_exact.
    + cbn [scaledValue]. rewrite iter_xO, <- Z.mul_assoc, <- Z.pow_add_r by lia.
      do 2 f_equal. lia.
    + rewrite digits2_pos_iter_xO. lia.
    + lia.
Qed.

Lemma orInfinity_number (d : option number) :
  match d with Some x => isNumber x = true | None => True end ->
  isNumber (orInfinity d) = true /\ isNaN (orInfinity d) = false.
Proof.
  destruct d as [x |]; simpl; [| auto].
  unfold orNumber. destruct x; simpl; auto.
Qed.

Lemma byDistance_key (a b : StoreLocation.t) :
  numericDistance a -> numericDistance b ->
  isPositive (byDistance a b) = (effectiveDistance b <? effectiveDistance a).
Proof.
  intros Ha Hb. unfold byDistance, effectiveDistance.
  destruct (orInfinity_number _ Ha) as [Va Na].
  destruct (orInfinity_number _ Hb) as [Vb Nb].
  apply subNumber_positive; assumption.
Qed.

(** What the candidate sort achieves: when the distances are Numbers, the
    merged list is rearranged in ascending order of the effective distance,
    stores of equal effective distance keeping their order; the effective
    distance of a store is its distance, except that a missing distance,
    [NaN] and zero all count as [Infinity]. *)
Lemma sortStores_by_effective_distance (walmartStores targetStores : list StoreLocation.t) :
  Forall numericDistance (walmartStores ++ targetStores) ->
  Permutation (walmartStores ++ targetStores)
              (sortStores walmartStores targetStores) /\
  StronglySorted (fun a b => effectiveDistance a <= effectiveDistance b)
                 (sortStores walmartStores targetStores) /\
  (forall k,
     filter (fun s => effectiveDistance s =? k)
            (sortStores walmartStores targetStores)
     = filter (fun s => effectiveDistance s =? k)
              (walmartStores ++ targetStores)).
Proof.
  intros H. unfold sortStores. split; [apply sortWith_perm |]. split.
  - apply (sortWith_sorted_on isPositive byDistance effectiveDistance
             numericDistance byDistance_key _ H).
  - intros k.
    apply (sortWith_stable_on isPositive byDistance effectiveDistance
             numericDistance byDistance_key k _ H).
Qed.

Lemma effectiveDistance_unknown (s : StoreLocation.t) :
  match StoreLocation.distance s with
  | Some d => falsy d = true
  | None => True
  end ->
  effectiveDistance s = beyond.
Proof.
  unfold effectiveDistance, orInfinity, orNumber.
  destruct (StoreLocation.distance s) as [d |]; [| reflexivity].
  intros ->. reflexivity.
Qed.

(** C1 at a store that is zero miles away: the Target store (0 miles) is the
    candidate with the smallest distance, yet the sort puts it after the
    Walmart store (2.5 miles), and the primary inventory is asked of the
    Walmart store. *)
Lemma store_at_zero_miles_sorted_last :
  exists walmartStore targetStore info far,
    fst (findWalmartStores "90210" zeroMilesSite) = Ok [walmartStore] /\
    fst (findTargetStores "90210" zeroMilesSite) = Ok [targetStore] /\
    StoreLocation.distance targetStore = Some (S754_zero false) /\
    StoreLocation.distance walmartStore = Some far /\
    isPositive far = true /\
    sortStores [walmartStore] [targetStore] = [walmartStore; targetStore] /\
    fst (getProductInfo "012345" (Some "90210") zeroMilesSite) = Ok (Some info) /\
    inventoryKey (ProductInfo.inventory info) = storeKey walmartStore.
Proof.
  do 4 eexists.
  split; [vm_compute; reflexivity |].
  split; [vm_compute; reflexivity |].
  split; [reflexivity |]. split; [reflexivity |]. split; [reflexivity |].
  split; [vm_compute; reflexivity |].
  split; [vm_compute; reflexivity | reflexivity].
Qed.

(** ** Association lists in creation order *)

Lemma lookup_app {V : Type} (k : string) (m m' : list (string * V)) :
  lookup k (m ++ m')
  = match lookup k m with Some v => Some v | None => lookup k m' end.
Proof.
  induction m as [| [k' v] r IH]; simpl; [reflexivity |].
  destruct (String.eqb k' k); [reflexivity | exact IH].
Qed.

Lemma lookup_pushTo {A : Type} (k k' : string) (x : A) (m : list (string * list A)) :
  lookup k (pushTo k' x m)
  = match lookup k m with
    | Some v => Some (if String.eqb k' k then v ++ [x] else v)
    | None => None
    end.
Proof.
  induction m as [| [k0 v] r IH]; simpl; [reflexivity |].
  destruct (String.eqb k0 k') eqn:E0; simpl.
  - apply String.eqb_eq in E0. subst k0. clear IH.
    destruct (String.eqb k' k); [reflexivity |].
    destruct (lookup k r); reflexivity.
  - destruct (String.eqb k0 k) eqn:E1; [| exact IH].
    apply String.eqb_eq in E1. subst k0.
    rewrite String.eqb_sym, E0. reflexivity.
Qed.

Lemma keys_pushTo {A : Type} (k : string) (x : A) (m : list (string * list A)) :
  map fst (pushTo k x m) = map fst m.
Proof.
  induction m as [| [k0 v] r IH]; simpl; [reflexivity |].
  destruct (String.eqb k0 k); simpl; [| rewrite IH]; reflexivity.
Qed.

Lemma lookup_None {V : Type} (k : string) (m : list (string * V)) :
  lookup k m = None <-> memString k (map fst m) = false.
Proof.
  unfold memString. induction m as [| [k' v] r IH]; simpl; [tauto |].
  rewrite (String.eqb_sym k k'). destruct (String.eqb k' k); simpl; [| exact IH].
  split; discriminate.
Qed.

Lemma memString_In (k : string) (l : list string) :
  memString k l = true <-> In k l.
Proof.
  unfold memString. rewrite existsb_exists. split.
  - intros (y & Hy & E). apply String.eqb_eq in E. subst. exact Hy.
  - intros H. exists k. split; [exact H | apply String.eqb_refl].
Qed.

Lemma pushTo_new {A : Type} (k : string) (x : A) (v : list A)
    (m : list (string * list A)) :
  lookup k m = None ->
  pushTo k x (m ++ [(k, v)]) = m ++ [(k, v ++ [x])].
Proof.
  induction m as [| [k' v'] r IH]; simpl.
  - rewrite String.eqb_refl. reflexivity.
  - destruct (String.eqb k' k); [discriminate |].
    intros H. rewrite (IH H). reflexivity.
Qed.

Lemma lookup_ensureKey {A : Type} (k k' : string) (m : list (string * list A)) :
  lookup k (ensureKey k' m)
  = match lookup k m with
    | Some v => Some v
    | None => if String.eqb k' k then Some [] else None
    end.
Proof.
  unfold ensureKey. destruct (lookup k' m) eqn:E.
  - destruct (lookup k m) eqn:Ek; [reflexivity |].
    destruct (String.eqb k' k) eqn:Ekk; [| reflexivity].
    apply String.eqb_eq in Ekk. congruence.
  - rewrite lookup_app. simpl. destruct (lookup k m); reflexivity.
Qed.

Lemma keys_ensureKey {A : Type} (k : string) (m : list (string * list A)) :
  map fst (ensureKey k m)
  = if memString k (map fst m) then map fst m else map fst m ++ [k].
Proof.
  unfold ensureKey. destruct (lookup k m) eqn:E.
  - destruct (memString k (map fst m)) eqn:Em; [reflexivity |].
    apply lookup_None in Em. congruence.
  - apply lookup_None in E. rewrite E, map_app. reflexivity.
Qed.

Lemma appearances_In (l : list string) (y : string) :
  In y (appearances l) <-> In y l.
Proof.
  induction l as [| x r IH]; simpl; [tauto |].
  rewrite filter_In, IH, negb_true_iff.
  destruct (String.eqb y x) eqn:E.
  - apply String.eqb_eq in E. subst. intuition congruence.
  - apply String.eqb_neq in E. intuition congruence.
Qed.

Lemma appearances_NoDup (l : list string) : NoDup (appearances l).
Proof.
  induction l as [| x r IH]; simpl; constructor.
  - rewrite filter_In, String.eqb_refl. intros [_ H]. discriminate.
  - apply NoDup_filter. exact IH.
Qed.

Lemma filter_filter {A : Type} (f g : A -> bool) (l : list A) :
  filter f (filter g l) = filter (fun x => g x && f x) l.
Proof.
  induction l as [| x r IH]; simpl; [reflexivity |].
  destruct (g x); simpl; [destruct (f x) |]; rewrite IH; reflexivity.
Qed.

Lemma filter_all {A : Type} (f : A -> bool) (l : list A) :
  (forall x, In x l -> f x = true) -> filter f l = l.
Proof.
  induction l as [| x r IH]; simpl; intros H; [reflexivity |].
  rewrite (H x (or_introl eq_refl)), IH; auto.
Qed.

(** An association list with distinct keys is its keys paired with what
    [lookup] finds. *)
Lemma assoc_by_keys {V : Type} (f : string -> V) (m : list (string * V)) :
  NoDup (map fst m) ->
  (forall k, In k (map fst m) -> lookup k m = Some (f k)) ->
  m = map (fun k => (k, f k)) (map fst m).
Proof.
  induction m as [| [k v] r IH]; simpl; intros Hnd Hl; [reflexivity |].
  inversion Hnd as [| ? ? Hnotin Hnd']; subst.
  pose proof (Hl k (or_introl eq_refl)) as Hk.
  rewrite String.eqb_refl in Hk. inversion Hk; subst.
  f_equal. apply IH; [exact Hnd' |].
  intros k' Hin. specialize (Hl k' (or_intror Hin)).
  destruct (String.eqb k k') eqn:E; [| exact Hl].
  apply String.eqb_eq in E. subst. contradiction.
Qed.

(** ** The two grouping loops *)

Section Grouping.
Context {A : Type}.
Variable keyOf : A -> option string.
Variable keep : A -> bool.

Lemma lookup_place (k : string) (m : list (string * list A)) (x : A) :
  lookup k (place keyOf keep m x)
  = match lookup k m with
    | Some v => Some (v ++ filter (fun y => hasKey keyOf k y && keep y) [x])
    | None =>
        if hasKey keyOf k x
        then Some (filter (fun y => hasKey keyOf k y && keep y) [x])
        else None
    end.
Proof.
  unfold place, hasKey. simpl. destruct (keyOf x) as [k' |]; simpl.
  - destruct (keep x); [rewrite lookup_pushTo |]; rewrite lookup_ensureKey;
      destruct (lookup k m) as [v |]; destruct (String.eqb k' k); simpl;
      rewrite ?app_nil_r; reflexivity.
  - destruct (lookup k m); rewrite ?app_nil_r; reflexivity.
Qed.

Lemma lookup_fold_place (k : string) (xs : list A) :
  forall m,
    lookup k (fold_left (place keyOf keep) xs m)
    = match lookup k m with
      | Some v => Some (v ++ filter (fun y => hasKey keyOf k y && keep y) xs)
      | None =>
          if existsb (hasKey keyOf k) xs
          then Some (filter (fun y => hasKey keyOf k y && keep y) xs)
          else None
      end.
Proof.
  induction xs as [| x r IH]; intros m; simpl.
  - destruct (lookup k m); rewrite ?app_nil_r; reflexivity.
  - rewrite IH, lookup_place. simpl.
    destruct (lookup k m) as [v |].
    + rewrite <- app_assoc. destruct (hasKey keyOf k x && keep x); reflexivity.
    + destruct (hasKey keyOf k x); simpl; [| reflexivity].
      destruct (keep x); reflexivity.
Qed.

Lemma keys_place (m : list (string * list A)) (x : A) :
  map fst (place keyOf keep m x)
  = map fst m
    ++ filter (fun k => negb (memString k (map fst m))) (keysOf keyOf [x]).
Proof.
  unfold place, keysOf. simpl. destruct (keyOf x) as [k |]; simpl.
  - assert (H : map fst (ensureKey k m)
                = map fst m ++ (if negb (memString k (map fst m)) then [k] else [])).
    { rewrite keys_ensureKey. destruct (memString k (map fst m)); simpl;
        rewrite ?app_nil_r; reflexivity. }
    destruct (keep x); [rewrite keys_pushTo |]; exact H.
  - rewrite app_nil_r. reflexivity.
Qed.

Lemma keys_fold_place (xs : list A) :
  forall m,
    map fst (fold_left (place keyOf keep) xs m)
    = map fst m
      ++ filter (fun k => negb (memString k (map fst m)))
           (appearances (keysOf keyOf xs)).
Proof.
  induction xs as [| x r IH]; intros m; simpl.
  - rewrite app_nil_r. reflexivity.
  - rewrite IH, keys_place. unfold keysOf at 1 3. simpl.
    fold (keysOf keyOf r).
    destruct (keyOf x) as [k |]; simpl.
    + destruct (memString k (map fst m)) eqn:Em; simpl.
      * rewrite app_nil_r. f_equal.
        rewrite filter_filter. apply filter_ext_in. intros y _.
        destruct (String.eqb y k) eqn:E; simpl; [| reflexivity].
        apply String.eqb_eq in E. subst. rewrite Em. reflexivity.
      * rewrite <- app_assoc. simpl. do 2 f_equal.
        rewrite filter_filter. apply filter_ext_in. intros y _.
        unfold memString. rewrite existsb_app. simpl.
        rewrite orb_false_r, negb_orb, andb_comm. reflexivity.
    + rewrite app_nil_r. reflexivity.
Qed.

(** Starting from the empty list: the keys are those of the elements, in
    order of first appearance, and each key holds the kept elements that
    carry it, in order. *)
Lemma fold_place_entries (xs : list A) :
  fold_left (place keyOf keep) xs []
  = map (fun k => (k, filter (fun y => hasKey keyOf k y && keep y) xs))
        (appearances (keysOf keyOf xs)).
Proof.
  assert (Hk : map fst (fold_left (place keyOf keep) xs [])
               = appearances (keysOf keyOf xs)).
  { rewrite keys_fold_place. simpl. apply filter_all. reflexivity. }
  rewrite <- Hk. apply assoc_by_keys.
  - rewrite Hk. apply appearances_NoDup.
  - intros k Hin. rewrite lookup_fold_place. simpl.
    rewrite Hk in Hin. apply (proj1 (appearances_In _ _)) in Hin.
    assert (He : existsb (hasKey keyOf k) xs = true).
    { apply existsb_exists. unfold keysOf in Hin. apply in_flat_map in Hin.
      destruct Hin as (x & Hx & Hkx). exists x. split; [exact Hx |].
      unfold hasKey. destruct (keyOf x) as [k' |]; [| contradiction].
      destruct Hkx as [-> | []]. apply String.eqb_refl. }
    rewrite He. reflexivity.
Qed.
End Grouping.

(** ** Grouping by aisle *)

Lemma addToGroup_place (groups groups' : list (string * list PantryItem.t))
    (item : PantryItem.t) :
  addToGroup groups item = Ok groups' ->
  groups' = place (fun x => Some (labelOf x)) (fun _ => true) groups item.
Proof.
  unfold addToGroup, place, ensureKey. fold (labelOf item).
  destruct (lookup (labelOf item) groups) eqn:E.
  - intros H. inversion H. reflexivity.
  - destruct (memString (labelOf item) objectPrototypeKeys); [discriminate |].
    intros H. inversion H. rewrite (pushTo_new _ _ _ _ E). reflexivity.
Qed.

Lemma groupByAisle_place (items : list PantryItem.t) :
  forall groups groups',
    groupByAisle groups items = Ok groups' ->
    groups' = fold_left (place (fun x => Some (labelOf x)) (fun _ => true))
                        items groups.
Proof.
  induction items as [| item rest IH]; intros groups groups' H; simpl in *.
  - inversion H. reflexivity.
  - destruct (addToGroup groups item) as [g1 | e] eqn:E; [| discriminate].
    rewrite <- (addToGroup_place _ _ _ E). apply IH. exact H.
Qed.

Lemma groupByAisle_total (items : list PantryItem.t) :
  Forall (fun item => safeLabel item = true) items ->
  forall groups, exists groups', groupByAisle groups items = Ok groups'.
Proof.
  induction 1 as [| item rest Hsafe _ IH]; intros groups; simpl; [eauto |].
  unfold addToGroup. fold (labelOf item).
  unfold safeLabel in Hsafe. apply negb_true_iff in Hsafe. rewrite Hsafe.
  destruct (lookup (labelOf item) groups); apply IH.
Qed.

Lemma lookup_map_keys {V : Type} (f : string -> V) (k : string) (keys : list string) :
  In k keys -> lookup k (map (fun k => (k, f k)) keys) = Some (f k).
Proof.
  induction keys as [| k' r IH]; simpl; [contradiction |].
  destruct (String.eqb k' k) eqn:E.
  - apply String.eqb_eq in E. subst. reflexivity.
  - intros [-> | H]; [rewrite String.eqb_refl in E; discriminate | auto].
Qed.

Lemma filter_partition_perm {A : Type} (f : A -> bool) (l : list A) :
  Permutation (filter f l ++ filter (fun x => negb (f x)) l) l.
Proof.
  induction l as [| x r IH]; simpl; [reflexivity |].
  destruct (f x); simpl.
  - apply perm_skip. exact IH.
  - rewrite <- Permutation_middle. apply perm_skip. exact IH.
Qed.

Lemma objectKeys_perm {V : Type} (o : list (string * V)) :
  Permutation (objectKeys o) (map fst o).
Proof.
  unfold objectKeys.
  rewrite <- (filter_partition_perm isArrayIndex (map fst o)) at 3.
  apply Permutation_app_tail. symmetry. apply sortWith_perm.
Qed.

Lemma getAisleNumber_number (aisle : option string) :
  inRange (getAisleNumber aisle) /\ isNaN (getAisleNumber aisle) = false.
Proof.
  unfold getAisleNumber, parseInt.
  destruct aisle as [a |]; [| apply ofInteger_number].
  destruct (negb (truthy a)); [apply ofInteger_number |].
  destruct (matchDigits a); apply ofInteger_number.
Qed.

(** The aisle sort compares the exact values of the aisle numbers. *)
Lemma byAisleNumber_key (a b : string) :
  isPositive (byAisleNumber a b)
  = (scaledValue (getAisleNumber (Some b)) <? scaledValue (getAisleNumber (Some a))).
Proof.
  unfold byAisleNumber.
  destruct (getAisleNumber_number (Some a)) as [Ra Na].
  destruct (getAisleNumber_number (Some b)) as [Rb Nb].
  apply subNumber_positive_inRange; assumption.
Qed.

Lemma flat_map_ext_in {A B : Type} (f g : A -> list B) (l : list A) :
  (forall a, In a l -> f a = g a) -> flat_map f l = flat_map g l.
Proof.
  induction l as [| a r IH]; simpl; intros H; [reflexivity |].
  rewrite (H a (or_introl eq_refl)), IH; auto.
Qed.

Lemma keysOf_labels (items : list PantryItem.t) :
  keysOf (fun x => Some (labelOf x)) items = map labelOf items.
Proof.
  unfold keysOf. induction items as [| x r IH]; simpl; [| rewrite IH]; reflexivity.
Qed.

(** The path is the groups of the items, one after the other, the labels
    taken in ascending order of their number. *)
Lemma optimizeRoute_groups (items path : list PantryItem.t) :
  optimizeRoute items = Ok path ->
  exists labels,
    Permutation labels (appearances (map labelOf items)) /\
    StronglySorted
      (fun a b => leNumber (getAisleNumber (Some a)) (getAisleNumber (Some b)))
      labels /\
    path = flat_map (fun l => filter (labelIs l) items) labels.
Proof.
  unfold optimizeRoute.
  destruct (groupByAisle [] items) as [groups | e] eqn:E; [| discriminate].
  intros H. inversion H. clear H.
  apply groupByAisle_place in E. rewrite fold_place_entries in E.
  rewrite keysOf_labels in E.
  set (labels := sortWith isPositive byAisleNumber (objectKeys groups)).
  assert (Hperm : Permutation labels (appearances (map labelOf items))).
  { unfold labels. rewrite <- sortWith_perm, objectKeys_perm. subst groups.
    rewrite map_map. simpl. rewrite map_id. reflexivity. }
  exists labels. split; [exact Hperm |]. split.
  - apply (sortWith_sorted isPositive byAisleNumber
             (fun a => scaledValue (getAisleNumber (Some a))) byAisleNumber_key).
  - apply flat_map_ext_in. intros l Hl.
    unfold groupOf. subst groups. rewrite lookup_map_keys.
    + apply filter_ext. intros x. unfold hasKey, labelIs.
      rewrite andb_true_r. reflexivity.
    + apply (Permutation_in _ Hperm). exact Hl.
Qed.

Lemma flat_map_nil {A B : Type} (l : list A) :
  flat_map (fun _ : A => @nil B) l = [].
Proof. induction l; simpl; auto. Qed.

(** Groups taken over distinct labels that cover the items hold every item
    once. *)
Lemma groups_perm (labels : list string) (items : list PantryItem.t) :
  NoDup labels ->
  (forall x, In x items -> In (labelOf x) labels) ->
  Permutation (flat_map (fun l => filter (labelIs l) items) labels) items.
Proof.
  intros Hnd. induction items as [| x r IH]; intros Hcover; simpl.
  - rewrite flat_map_nil. reflexivity.
  - destruct (in_split _ _ (Hcover x (or_introl eq_refl))) as (l1 & l2 & Hsplit).
    rewrite Hsplit in Hnd. pose proof (NoDup_remove_2 _ _ _ Hnd) as Hnotin.
    assert (Hother : forall l, In l (l1 ++ l2) -> labelIs l x = false).
    { intros l Hl. unfold labelIs. apply String.eqb_neq. intros Heq.
      apply Hnotin. rewrite Heq. exact Hl. }
    assert (Hrest : Permutation
                      (flat_map (fun l => filter (labelIs l) r) labels) r)
      by (apply IH; intros y Hy; apply Hcover; right; exact Hy).
    rewrite Hsplit in *. rewrite flat_map_app in *. simpl in *.
    assert (Hself : labelIs (labelOf x) x = true)
      by (unfold labelIs; apply String.eqb_refl).
    rewrite Hself.
    rewrite (flat_map_ext_in _ (fun l => filter (labelIs l) r) l1),
            (flat_map_ext_in _ (fun l => filter (labelIs l) r) l2).
    + simpl. rewrite <- Permutation_middle. apply perm_skip. exact Hrest.
    + intros l Hl. rewrite (Hother l); [reflexivity |].
      apply in_or_app. right. exact Hl.
    + intros l Hl. rewrite (Hother l); [reflexivity |].
      apply in_or_app. left. exact Hl.
Qed.

Lemma filter_flat_map {A B : Type} (p : B -> bool) (g : A -> list B) (l : list A) :
  filter p (flat_map g l) = flat_map (fun a => filter p (g a)) l.
Proof.
  induction l as [| a r IH]; simpl; [reflexivity |].
  rewrite filter_app, IH. reflexivity.
Qed.

Lemma filter_none {A : Type} (f : A -> bool) (l : list A) :
  (forall x, In x l -> f x = false) -> filter f l = [].
Proof.
  induction l as [| x r IH]; simpl; intros H; [reflexivity |].
  rewrite (H x (or_introl eq_refl)). apply IH. auto.
Qed.

(** A filter that only lets one label through sees, in the grouped path,
    the items in their input order. *)
Lemma filter_groups (p : PantryItem.t -> bool) (l0 : string)
    (labels : list string) (items : list PantryItem.t) :
  (forall x, p x = true -> labelOf x = l0) ->
  NoDup labels ->
  (forall x, In x items -> In (labelOf x) labels) ->
  filter p (flat_map (fun l => filter (labelIs l) items) labels)
  = filter p items.
Proof.
  intros Hp Hnd Hcover.
  assert (H : forall ls, NoDup ls ->
                filter p (flat_map (fun l => filter (labelIs l) items) ls)
                = if memString l0 ls then filter p items else []).
  { induction 1 as [| l ls Hnotin Hnd' IH]; [reflexivity |].
    change (memString l0 (l :: ls)) with (String.eqb l0 l || memString l0 ls).
    simpl flat_map. rewrite filter_app, IH, filter_filter.
    destruct (String.eqb l0 l) eqn:E; simpl orb.
    - apply String.eqb_eq in E. subst l.
      assert (Hm : memString l0 ls = false).
      { destruct (memString l0 ls) eqn:Em; [| reflexivity].
        apply memString_In in Em. contradiction. }
      rewrite Hm, app_nil_r.
      apply filter_ext. intros x. destruct (p x) eqn:Ex.
      + unfold labelIs. rewrite (Hp x Ex), String.eqb_refl. reflexivity.
      + apply andb_false_r.
    - rewrite filter_none; [reflexivity |].
      intros x _. destruct (p x) eqn:Ex; [| apply andb_false_r].
      unfold labelIs. rewrite (Hp x Ex), E. reflexivity. }
  rewrite (H labels Hnd).
  destruct (memString l0 labels) eqn:Em; [reflexivity |].
  symmetry. apply filter_none. intros x Hx.
  destruct (p x) eqn:Ex; [| reflexivity].
  assert (Hin : In l0 labels) by (rewrite <- (Hp x Ex); apply Hcover; exact Hx).
  apply memString_In in Hin. congruence.
Qed.

Lemma labelIs_hasAisle (l : string) (x : PantryItem.t) :
  labelIs l x && hasAisle x = aisleIs l x.
Proof.
  unfold labelIs, hasAisle, aisleIs, labelOf, orString.
  destruct (PantryItem.aisle x) as [a |]; [| apply andb_false_r].
  destruct (truthy a); [apply andb_true_r | apply andb_false_r].
Qed.

Lemma aisleIs_label (l : string) (x : PantryItem.t) :
  aisleIs l x = true -> labelOf x = l /\ PantryItem.aisle x = Some l.
Proof.
  unfold aisleIs, labelOf, orString.
  destruct (PantryItem.aisle x) as [a |]; [| discriminate].
  destruct (truthy a); [| discriminate]. simpl.
  intros H. apply String.eqb_eq in H. subst. auto.
Qed.

Lemma sorted_block (c : Z) (l1 l2 : list Z) :
  (forall y, In y l1 -> y = c) ->
  Forall (fun z => c <= z) l2 ->
  StronglySorted Z.le l2 ->
  StronglySorted Z.le (l1 ++ l2).
Proof.
  intros H1 H2 Hs. induction l1 as [| y r IH]; simpl; [exact Hs |].
  constructor.
  - apply IH. intros z Hz. apply H1. right. exact Hz.
  - rewrite (H1 y (or_introl eq_refl)). apply Forall_app. split.
    + apply Forall_forall. intros z Hz.
      rewrite (H1 z (or_intror Hz)). lia.
    + exact H2.
Qed.

(** Blocks of one key each, the keys ascending, make an ascending list. *)
Lemma sorted_blocks {A : Type} (key : A -> Z) (block : A -> list Z) (l : list A) :
  (forall a y, In y (block a) -> y = key a) ->
  StronglySorted (fun a b => key a <= key b) l ->
  StronglySorted Z.le (flat_map block l).
Proof.
  intros Hb. induction 1 as [| a r Hr IH Ha]; simpl; [constructor |].
  apply (sorted_block (key a)); [apply Hb | | exact IH].
  apply Forall_forall. intros z Hz. apply in_flat_map in Hz.
  destruct Hz as (b & Hbin & Hzb). rewrite (Hb b z Hzb).
  rewrite Forall_forall in Ha. apply Ha. exact Hbin.
Qed.

Lemma sorted_by_value {A : Type} (f : A -> Z) (l : list A) :
  StronglySorted Z.le (map f l) -> StronglySorted (fun a b => f a <= f b) l.
Proof.
  induction l as [| x r IH]; simpl; intros H; [constructor |].
  inversion H as [| ? ? Hr Hx]; subst. constructor; [apply IH; exact Hr |].
  rewrite Forall_map in Hx. exact Hx.
Qed.

(** What [optimizeRoute] returns, when it returns. *)
Lemma optimizeRoute_spec (items path : list PantryItem.t) :
  optimizeRoute items = Ok path ->
  Permutation items path /\
  (exists labels,
     NoDup labels /\
     StronglySorted
       (fun a b => leNumber (getAisleNumber (Some a)) (getAisleNumber (Some b)))
       labels /\
     filter hasAisle path = flat_map (fun l => filter (aisleIs l) items) labels) /\
  StronglySorted leNumber (aisleNumbers path) /\
  (forall l, filter (aisleIs l) path = filter (aisleIs l) items).
Proof.
  intros H. destruct (optimizeRoute_groups items path H) as (labels & Hperm & Hsorted & ->).
  assert (Hnd : NoDup labels).
  { apply (Permutation_NoDup (Permutation_sym Hperm)). apply appearances_NoDup. }
  assert (Hcover : forall x, In x items -> In (labelOf x) labels).
  { intros x Hx. apply (Permutation_in _ (Permutation_sym Hperm)).
    apply appearances_In. apply in_map. exact Hx. }
  assert (Hfiltered :
            filter hasAisle (flat_map (fun l => filter (labelIs l) items) labels)
            = flat_map (fun l => filter (aisleIs l) items) labels).
  { rewrite filter_flat_map. apply flat_map_ext. intros l.
    rewrite filter_filter. apply filter_ext. intros x. apply labelIs_hasAisle. }
  split; [symmetry; apply groups_perm; assumption |].
  split; [exists labels; auto |]. split.
  - apply (sorted_by_value scaledValue). unfold aisleNumbers. rewrite map_map.
    rewrite Hfiltered, flat_map_concat_map, concat_map, map_map.
    rewrite <- flat_map_concat_map.
    apply (sorted_blocks (fun l => scaledValue (getAisleNumber (Some l))));
      [| exact Hsorted].
    intros l y Hy. apply in_map_iff in Hy. destruct Hy as (x & <- & Hx).
    apply filter_In in Hx. destruct Hx as [_ Hx].
    apply aisleIs_label in Hx. destruct Hx as [_ ->]. reflexivity.
  - intros l. apply (filter_groups _ l); [| exact Hnd | exact Hcover].
    intros x Hx. apply aisleIs_label in Hx. apply Hx.
Qed.

Lemma optimizeRoute_total (items : list PantryItem.t) :
  Forall (fun item => safeLabel item = true) items ->
  exists path, optimizeRoute items = Ok path.
Proof.
  intros H. unfold optimizeRoute.
  destruct (groupByAisle_total items H []) as (groups & ->). eauto.
Qed.

(** ** Routes by store *)

Lemma addToStore_place (storeMap : list (string * list PantryItem.t))
    (item : PantryItem.t) :
  addToStore storeMap item
  = place firstStore (fun x => 0 <? PantryItem.quantity x) storeMap item.
Proof.
  unfold addToStore, place, ensureKey, firstStore.
  destruct (PantryItem.prices item) as [| first rest]; reflexivity.
Qed.

Lemma fold_left_ext {A B : Type} (f g : A -> B -> A) (l : list B) (a : A) :
  (forall x y, f x y = g x y) -> fold_left f l a = fold_left g l a.
Proof.
  intros H. revert a. induction l as [| y r IH]; intros a; simpl; [reflexivity |].
  rewrite H. apply IH.
Qed.

(** The partition holds, for each store in order of first appearance, the
    items bought there in a positive quantity, in input order. *)
Lemma partitionByStore_entries (items : list PantryItem.t) :
  partitionByStore items
  = map (fun s => (s, routeItems items s)) (storeOrder items).
Proof.
  unfold partitionByStore.
  rewrite (fold_left_ext _ (place firstStore (fun x => 0 <? PantryItem.quantity x)))
    by apply addToStore_place.
  rewrite fold_place_entries. reflexivity.
Qed.

Lemma sumQuantities_total (items : list PantryItem.t) :
  sumQuantities items = totalQuantity items.
Proof.
  unfold sumQuantities, totalQuantity.
  assert (H : forall acc,
             fold_left (fun sum item => sum + PantryItem.quantity item) items acc
             = acc + fold_right (fun item sum => PantryItem.quantity item + sum) 0 items).
  { induction items as [| x r IH]; intros acc; simpl; [lia |].
    rewrite IH. lia. }
  rewrite H. lia.
Qed.

(** A route is built for each entry that has items, in the order of the
    entries. *)
Lemma buildRoutes_spec (entries : list (string * list PantryItem.t)) :
  forall routes,
    buildRoutes entries = Ok routes ->
    Forall2 (fun r e =>
               StoreRoute.store r = fst e /\
               StoreRoute.items r = snd e /\
               optimizeRoute (snd e) = Ok (StoreRoute.optimizedPath r) /\
               StoreRoute.totalItems r = totalQuantity (snd e))
            routes (filter (fun e => nonEmpty (snd e)) entries).
Proof.
  induction entries as [| [store items] rest IH]; intros routes H; simpl in *.
  - inversion H. constructor.
  - destruct items as [| item items']; simpl; [apply IH; exact H |].
    destruct (optimizeRoute (item :: items')) as [path | e] eqn:Ep; [| discriminate].
    destruct (buildRoutes rest) as [routes' | e]; [| discriminate].
    inversion H. constructor; [| apply IH; reflexivity].
    simpl. rewrite sumQuantities_total. auto.
Qed.

Lemma buildRoutes_total (entries : list (string * list PantryItem.t)) :
  Forall (fun e => Forall (fun item => safeLabel item = true) (snd e)) entries ->
  exists routes, buildRoutes entries = Ok routes.
Proof.
  induction 1 as [| [store items] rest Hsafe _ IH]; simpl; [eauto |].
  destruct IH as (routes & ->). simpl in Hsafe.
  destruct items as [| item items']; [eauto |].
  destruct (optimizeRoute_total _ Hsafe) as (path & ->). eauto.
Qed.

Lemma byTotalItems_key (a b : StoreRoute.t) :
  (0 <? byTotalItems a b)
  = (- StoreRoute.totalItems b <? - StoreRoute.totalItems a).
Proof.
  unfold byTotalItems.
  destruct (0 <? _) eqn:E1; destruct (_ <? - StoreRoute.totalItems a) eqn:E2;
    trivial; rewrite ?Z.ltb_lt, ?Z.ltb_ge in *; lia.
Qed.

Lemma Forall2_map_filter {A B C : Type} (R : A -> B -> Prop) (f : A -> C)
    (g : B -> C) (p : A -> bool) (q : B -> bool) (l : list A) (l' : list B) :
  Forall2 R l l' ->
  (forall a b, R a b -> f a = g b /\ p a = q b) ->
  map f (filter p l) = map g (filter q l').
Proof.
  intros H HR. induction H as [| a b r r' Hab _ IH]; simpl; [reflexivity |].
  destruct (HR a b Hab) as [Hf Hp]. rewrite Hp.
  destruct (q b); simpl; [rewrite Hf |]; rewrite IH; reflexivity.
Qed.

Lemma Forall2_In_l {A B : Type} (R : A -> B -> Prop) (l : list A) (l' : list B)
    (a : A) :
  Forall2 R l l' -> In a l -> exists b, In b l' /\ R a b.
Proof.
  induction 1 as [| x y r r' Hxy _ IH]; simpl; [contradiction |].
  intros [-> | H]; [eauto |]. destruct (IH H) as (b & Hb & Hab). eauto.
Qed.

Lemma qualifies_spec (store : string) (item : PantryItem.t) :
  qualifies store item = true <->
  firstStore item = Some store /\ 0 < PantryItem.quantity item.
Proof.
  unfold qualifies. rewrite andb_true_iff, Z.ltb_lt.
  destruct (firstStore item) as [s |].
  - rewrite String.eqb_eq. split; intros [H1 H2]; split; congruence.
  - split; intros [H1 H2]; discriminate.
Qed.

Lemma StronglySorted_weaken {A : Type} (R R' : A -> A -> Prop) (l : list A) :
  (forall a b, R a b -> R' a b) -> StronglySorted R l -> StronglySorted R' l.
Proof.
  intros HR. induction 1 as [| a r _ IH Ha]; constructor; [exact IH |].
  eapply Forall_impl; [apply HR | exact Ha].
Qed.

(** The routes before they are ranked, and the ranking. *)
Lemma organizeByStore_unsorted (items : list PantryItem.t) (routes : list StoreRoute.t) :
  organizeByStore items = Ok routes ->
  exists unsorted,
    routes = sortWith (Z.ltb 0) byTotalItems unsorted /\
    Forall2 (fun r s =>
               StoreRoute.store r = s /\
               StoreRoute.items r = routeItems items s /\
               optimizeRoute (routeItems items s) = Ok (StoreRoute.optimizedPath r) /\
               StoreRoute.totalItems r = totalQuantity (routeItems items s))
            unsorted
            (filter (fun s => nonEmpty (routeItems items s)) (storeOrder items)).
Proof.
  unfold organizeByStore.
  destruct (buildRoutes (partitionByStore items)) as [unsorted | e] eqn:E;
    [| discriminate].
  intros H. inversion H. exists unsorted. split; [reflexivity |].
  apply buildRoutes_spec in E. rewrite partitionByStore_entries in E.
  clear H H1. revert unsorted E.
  induction (storeOrder items) as [| s r IH]; intros unsorted E; simpl in *.
  - inversion E. constructor.
  - destruct (nonEmpty (routeItems items s)); [| apply IH; exact E].
    inversion E; subst. constructor; [assumption | apply IH; assumption].
Qed.

Lemma organizeByStore_total (items : list PantryItem.t) :
  Forall (fun item => safeLabel item = true) items ->
  exists routes, organizeByStore items = Ok routes.
Proof.
  intros Hsafe. unfold organizeByStore.
  destruct (buildRoutes_total (partitionByStore items)) as (routes & ->); [| eauto].
  rewrite partitionByStore_entries. apply Forall_forall.
  intros e He. apply in_map_iff in He. destruct He as (s & <- & _). simpl.
  apply Forall_forall. intros item Hitem. apply filter_In in Hitem.
  rewrite Forall_forall in Hsafe. apply Hsafe. apply Hitem.
Qed.

(** C6: [organizeByStore] returns a route list whenever no aisle label
    collides with a property of [Object.prototype], and every list it
    returns satisfies: the items of a route are the items whose first price
    names the route's store and whose quantity is positive, in input order,
    so that an item without a price is in no route; no route is empty, and
    every store with such an item has a route; [totalItems] is the sum of
    the quantities of the route's items; the routes are in descending order
    of [totalItems], and routes of equal [totalItems] are in the order in
    which the item list first names their stores. *)
Theorem organizeByStore_routes (items : list PantryItem.t) :
  (Forall (fun item => safeLabel item = true) items ->
   exists routes, organizeByStore items = Ok routes)
  /\ forall routes,
       organizeByStore items = Ok routes ->
       (forall r, In r routes ->
          StoreRoute.items r = routeItems items (StoreRoute.store r) /\
          StoreRoute.items r <> [] /\
          StoreRoute.totalItems r = totalQuantity (StoreRoute.items r) /\
          (forall item,
             In item (StoreRoute.items r) \/ In item (StoreRoute.optimizedPath r) ->
             In item items /\
             firstStore item = Some (StoreRoute.store r) /\
             0 < PantryItem.quantity item)) /\
       Permutation (map StoreRoute.store routes)
         (filter (fun s => nonEmpty (routeItems items s)) (storeOrder items)) /\
       StronglySorted
         (fun a b => StoreRoute.totalItems b <= StoreRoute.totalItems a) routes /\
       (forall t,
          map StoreRoute.store
              (filter (fun r => StoreRoute.totalItems r =? t) routes)
          = filter (fun s => nonEmpty (routeItems items s)
                             && (totalQuantity (routeItems items s) =? t))
                   (storeOrder items)).
Proof.
  split; [apply organizeByStore_total |].
  intros routes H.
  destruct (organizeByStore_unsorted items routes H) as (unsorted & -> & Hu).
  pose proof (sortWith_perm (Z.ltb 0) byTotalItems unsorted) as Hperm.
  split; [| split; [| split]].
  - intros r Hr. apply (Permutation_in _ (Permutation_sym Hperm)) in Hr.
    destruct (Forall2_In_l _ _ _ _ Hu Hr) as (s & Hs & Hstore & Hitems & Hpath & Htotal).
    apply filter_In in Hs. destruct Hs as [_ Hne].
    rewrite Hstore, Hitems. split; [reflexivity |]. split.
    { destruct (routeItems items s); [discriminate | discriminate]. }
    split; [exact Htotal |].
    assert (Hq : forall item, In item (routeItems items s) ->
                   In item items /\ firstStore item = Some s /\
                   0 < PantryItem.quantity item).
    { intros item Hin. apply filter_In in Hin. destruct Hin as [Hin Hq].
      apply qualifies_spec in Hq. tauto. }
    intros item [Hin | Hin]; [apply Hq; exact Hin |].
    apply Hq. destruct (optimizeRoute_spec _ _ Hpath) as (Hp & _).
    apply (Permutation_in _ (Permutation_sym Hp)). exact Hin.
  - rewrite <- Hperm.
    assert (Hm : map StoreRoute.store unsorted
                 = filter (fun s => nonEmpty (routeItems items s)) (storeOrder items)).
    { clear Hperm H. induction Hu as [| r s rs ss (Hs & _) _ IH]; simpl;
        [reflexivity |]. rewrite Hs, IH. reflexivity. }
    rewrite Hm. reflexivity.
  - pose proof (sortWith_sorted (Z.ltb 0) byTotalItems
                  (fun r => - StoreRoute.totalItems r) byTotalItems_key unsorted) as Hs.
    eapply StronglySorted_weaken; [| exact Hs]. cbv beta. intros; lia.
  - intros t.
    assert (Hf : filter (fun r => StoreRoute.totalItems r =? t)
                   (sortWith (Z.ltb 0) byTotalItems unsorted)
                 = filter (fun r => StoreRoute.totalItems r =? t) unsorted).
    { assert (Heq : forall r : StoreRoute.t,
                 (StoreRoute.totalItems r =? t) = (- StoreRoute.totalItems r =? - t)).
      { intros r. destruct (StoreRoute.totalItems r =? t) eqn:E1;
          destruct (- StoreRoute.totalItems r =? - t) eqn:E2; trivial;
          rewrite ?Z.eqb_eq, ?Z.eqb_neq in *; lia. }
      rewrite (filter_ext _ _ Heq (sortWith (Z.ltb 0) byTotalItems unsorted)).
      rewrite (filter_ext _ _ Heq unsorted).
      apply (sortWith_stable (Z.ltb 0) byTotalItems
               (fun r => - StoreRoute.totalItems r) byTotalItems_key). }
    rewrite Hf.
    rewrite (Forall2_map_filter _ StoreRoute.store (fun s => s) _
               (fun s => totalQuantity (routeItems items s) =? t) _ _ Hu).
    + rewrite map_id, filter_filter. reflexivity.
    + intros r s (Hs & _ & _ & Ht). rewrite Ht. auto.
Qed.

(** ** The aisle number *)

Lemma spanDigits_app (digits post : string) :
  everyChar isDigit digits = true ->
  noLeadingDigit post = true ->
  spanDigits (digits ++ post) = (digits, post).
Proof.
  intros Hd Hp. induction digits as [| c r IH]; simpl in *.
  - destruct post as [| c r]; [reflexivity |]. simpl in *.
    apply negb_true_iff in Hp. rewrite Hp. reflexivity.
  - apply andb_true_iff in Hd. destruct Hd as [Hc Hr].
    rewrite Hc, (IH Hr). reflexivity.
Qed.

Lemma matchDigits_first_run (pre digits post : string) :
  everyChar (fun c => negb (isDigit c)) pre = true ->
  everyChar isDigit digits = true ->
  digits <> EmptyString ->
  noLeadingDigit post = true ->
  matchDigits (pre ++ digits ++ post) = Some digits.
Proof.
  intros Hpre Hd Hne Hpost. induction pre as [| c r IH]; simpl in *.
  - destruct digits as [| d ds]; [congruence |].
    change ((String d ds ++ post)%string) with (String d (ds ++ post)%string).
    cbn [matchDigits]. simpl in Hd. apply andb_true_iff in Hd.
    destruct Hd as [Hc Hr]. rewrite Hc.
    change (String d (ds ++ post)%string) with ((String d ds ++ post)%string).
    rewrite spanDigits_app; [reflexivity | simpl; rewrite Hc, Hr; reflexivity | exact Hpost].
  - apply andb_true_iff in Hpre. destruct Hpre as [Hc Hr].
    apply negb_true_iff in Hc. rewrite Hc. apply IH. exact Hr.
Qed.

Lemma matchDigits_none (s : string) :
  everyChar (fun c => negb (isDigit c)) s = true -> matchDigits s = None.
Proof.
  induction s as [| c r IH]; simpl; [reflexivity |].
  intros H. apply andb_true_iff in H. destruct H as [Hc Hr].
  apply negb_true_iff in Hc. rewrite Hc. apply IH. exact Hr.
Qed.

(** The number of an aisle label is the Number for the value of its first
    run of digits, and 998 when it has no digit; it is never [NaN], and an
    integer below [2^53] is its own Number. *)
Lemma getAisleNumber_label :
  (forall pre digits post,
     everyChar (fun c => negb (isDigit c)) pre = true ->
     everyChar isDigit digits = true ->
     digits <> EmptyString ->
     noLeadingDigit post = true ->
     getAisleNumber (Some (pre ++ digits ++ post)%string)
     = ofInteger (digitsValue 0 digits))
  /\ (forall a,
        a <> EmptyString ->
        everyChar (fun c => negb (isDigit c)) a = true ->
        getAisleNumber (Some a) = ofInteger 998)
  /\ (forall aisle, isNaN (getAisleNumber aisle) = false)
  /\ (forall n, 0 <= n < 2 ^ 53 -> isInteger (ofInteger n) n).
Proof.
  split; [| split; [| split]].
  - intros pre digits post Hpre Hd Hne Hpost. unfold getAisleNumber.
    rewrite (matchDigits_first_run pre digits post Hpre Hd Hne Hpost).
    destruct pre; [destruct digits; [congruence |] |]; reflexivity.
  - intros a Hne Ha. unfold getAisleNumber. rewrite (matchDigits_none a Ha).
    destruct a; [congruence | reflexivity].
  - intros aisle. apply getAisleNumber_number.
  - intros n Hn. split; [apply ofInteger_number | apply ofInteger_exact; exact Hn].
Qed.

(** C5 (as amended): [organizeByStore] returns routes whenever no aisle label
    collides with a property of [Object.prototype], and in every route it
    returns [optimizedPath] is a permutation of the route's items; the items
    that have an aisle appear grouped by aisle label, the groups in
    ascending order of the label's number, so their aisle numbers ascend
    along the path; and the items of one label keep their input order.  The
    number of a label is the Number that [parseInt] reads from its first
    run of digits - the integer they spell when that is below [2^53], the
    nearest Number otherwise - and 998 when the label has no digit; it is
    never [NaN]. *)
Theorem optimizedPath_grouped_by_aisle (items : list PantryItem.t) :
  (Forall (fun item => safeLabel item = true) items ->
   exists routes, organizeByStore items = Ok routes)
  /\ (forall routes r,
        organizeByStore items = Ok routes ->
        In r routes ->
        Permutation (StoreRoute.items r) (StoreRoute.optimizedPath r) /\
        (exists labels,
           NoDup labels /\
           StronglySorted
             (fun a b => leNumber (getAisleNumber (Some a)) (getAisleNumber (Some b)))
             labels /\
           filter hasAisle (StoreRoute.optimizedPath r)
           = flat_map (fun l => filter (aisleIs l) (StoreRoute.items r)) labels) /\
        StronglySorted leNumber (aisleNumbers (StoreRoute.optimizedPath r)) /\
        (forall l,
           filter (aisleIs l) (StoreRoute.optimizedPath r)
           = filter (aisleIs l) (StoreRoute.items r)))
  /\ (forall pre digits post,
        everyChar (fun c => negb (isDigit c)) pre = true ->
        everyChar isDigit digits = true ->
        digits <> EmptyString ->
        noLeadingDigit post = true ->
        getAisleNumber (Some (pre ++ digits ++ post)%string)
        = ofInteger (digitsValue 0 digits))
  /\ (forall a,
        a <> EmptyString ->
        everyChar (fun c => negb (isDigit c)) a = true ->
        getAisleNumber (Some a) = ofInteger 998)
  /\ (forall aisle, isNaN (getAisleNumber aisle) = false)
  /\ (forall n, 0 <= n < 2 ^ 53 -> isInteger (ofInteger n) n).
Proof.
  split; [apply organizeByStore_total |].
  split; [| exact getAisleNumber_label].
  intros routes r H Hr.
  destruct (organizeByStore_unsorted items routes H) as (unsorted & -> & Hu).
  apply (Permutation_in _ (Permutation_sym (sortWith_perm _ _ unsorted))) in Hr.
  destruct (Forall2_In_l _ _ _ _ Hu Hr) as (s & _ & _ & Hitems & Hpath & _).
  rewrite Hitems. apply optimizeRoute_spec. exact Hpath.
Qed.

Lemma optimizedPath_grouped_by_aisle_witness :
  Permutation [soup; bread; beans] [soup; beans; bread] /\
  StronglySorted leNumber (aisleNumbers [soup; beans; bread]) /\
  filter (aisleIs "A1") [soup; beans; bread] = filter (aisleIs "A1") [soup; bread; beans].
Proof.
  destruct (proj1 (proj2 (optimizedPath_grouped_by_aisle [soup; bread; beans]))
              [StoreRoute.mk "X" [soup; bread; beans] [soup; beans; bread] 3]
              (StoreRoute.mk "X" [soup; bread; beans] [soup; beans; bread] 3))
    as (Hperm & _ & Hsorted & Hstable).
  - vm_compute. reflexivity.
  - left. reflexivity.
  - split; [exact Hperm |]. split; [exact Hsorted | apply Hstable].
Defined.

(** C5 (as stated) fails twice.  Soup, bread and beans are in aisles A1, B1
    and A1, all of number 1: the path is soup, beans, bread, so bread and
    beans, of equal aisle number, have changed places.  And batteries, which
    have no aisle (number 999), come before apples, whose aisle "Produce"
    has no digit (number 998). *)
Lemma equal_aisle_numbers_change_places :
  (organizeByStore [soup; bread; beans]
   = Ok [StoreRoute.mk "X" [soup; bread; beans] [soup; beans; bread] 3]
   /\ map (fun item => getAisleNumber (PantryItem.aisle item)) [soup; bread; beans]
      = [ofInteger 1; ofInteger 1; ofInteger 1])
  /\ (organizeByStore [batteries; apples]
      = Ok [StoreRoute.mk "X" [batteries; apples] [batteries; apples] 2]
      /\ map (fun item => getAisleNumber (PantryItem.aisle item)) [batteries; apples]
         = [ofInteger 999; ofInteger 998]).
Proof. repeat split; vm_compute; reflexivity. Qed.

Lemma organizeByStore_routes_witness :
  organizeByStore scenarioItems
  = Ok [StoreRoute.mk "X"
          [listItem "a" "X" (Some "12") 1; listItem "c" "X" (Some "7") 2]
          [listItem "c" "X" (Some "7") 2; listItem "a" "X" (Some "12") 1] 3]
  /\ StronglySorted
       (fun a b => StoreRoute.totalItems b <= StoreRoute.totalItems a)
       [StoreRoute.mk "X"
          [listItem "a" "X" (Some "12") 1; listItem "c" "X" (Some "7") 2]
          [listItem "c" "X" (Some "7") 2; listItem "a" "X" (Some "12") 1] 3].
Proof.
  assert (H : organizeByStore scenarioItems
              = Ok [StoreRoute.mk "X"
                      [listItem "a" "X" (Some "12") 1; listItem "c" "X" (Some "7") 2]
                      [listItem "c" "X" (Some "7") 2; listItem "a" "X" (Some "12") 1] 3])
    by (vm_compute; reflexivity).
  split; [exact H |].
  apply (proj2 (organizeByStore_routes scenarioItems) _ H).
Defined.

(** * Further properties *)

(** ** Retried and settled attempts *)

Lemma later_0 (w : World) : later w 0 = w.
Proof. destruct w as [n a]. unfold later. simpl. rewrite Nat.add_0_r. reflexivity. Qed.

Lemma later_S (w : World) (k : nat) :
  later (mkWorld (net w) (S (attempts w))) k = later w (S k).
Proof. unfold later. simpl. f_equal. lia. Qed.

Lemma attempt_fst_snd (url : string) (w : World) :
  attempt url w = (fst (attempt url w), mkWorld (net w) (S (attempts w))).
Proof.
  rewrite <- (attempt_world url w). destruct (attempt url w); reflexivity.
Qed.

Lemma requestWithRetry_skip (url : string) (k : nat) :
  forall budget w,
    (forall i, (i < k)%nat -> retriedFailure url w i) ->
    requestWithRetry (k + budget) url w = requestWithRetry budget url (later w k).
Proof.
  induction k as [| k IH]; intros budget w H.
  - rewrite later_0. reflexivity.
  - destruct (H 0%nat) as [e [He Hr]]; [lia |].
    rewrite later_0 in He.
    change (S k + budget)%nat with (S (k + budget)).
    rewrite (requestWithRetry_retry (k + budget) url w
               (mkWorld (net w) (S (attempts w))) e).
    + rewrite IH.
      * rewrite later_S. reflexivity.
      * intros i Hi. destruct (H (S i)) as [e' [He' Hr']]; [lia |].
        exists e'. rewrite later_S. auto.
    + rewrite attempt_fst_snd, He. reflexivity.
    + exact Hr.
Qed.

(** X1: [axios.get] settles with the outcome of the first attempt that is
    not a retried failure, and with the fourth attempt at the latest: when
    the first [k <= 3] attempts fail with errors that the retry condition
    accepts, a reply to the next attempt is returned, and an error of the
    next attempt is thrown when the retry condition refuses it or when it is
    the fourth attempt. *)
Theorem axiosGet_settles (url : string) (w : World) (k : nat) :
  (k <= 3)%nat ->
  (forall i, (i < k)%nat -> retriedFailure url w i) ->
  (forall data,
     fst (attempt url (later w k)) = Ok data ->
     axiosGet url w = (Ok data, later w (S k))) /\
  (forall e,
     fst (attempt url (later w k)) = Throw (AxiosFailure e) ->
     retryCondition e = false \/ k = 3%nat ->
     axiosGet url w = (Throw (AxiosFailure e), later w (S k))).
Proof.
  intros Hk H.
  assert (Hskip : axiosGet url w = requestWithRetry (3 - k) url (later w k)).
  { unfold axiosGet, retries.
    replace 3%nat with (k + (3 - k))%nat at 1 by lia.
    apply requestWithRetry_skip. exact H. }
  assert (Hw : mkWorld (net (later w k)) (S (attempts (later w k))) = later w (S k)).
  { unfold later. simpl. f_equal. lia. }
  split.
  - intros data Hd. rewrite Hskip.
    rewrite (requestWithRetry_success _ url _ (later w (S k)) data); [reflexivity |].
    rewrite attempt_fst_snd, Hd, Hw. reflexivity.
  - intros e He [Hr | ->].
    + rewrite Hskip.
      apply requestWithRetry_no_retry; [| exact Hr].
      rewrite attempt_fst_snd, He, Hw. reflexivity.
    + rewrite Hskip. simpl requestWithRetry.
      rewrite attempt_fst_snd, He, Hw. reflexivity.
Qed.

Lemma axiosGet_settles_witness :
  axiosGet "https://www.walmart.com/ip/012345" busyThenDown
  = (Throw (AxiosFailure (mkAxiosError (Some "ERR_BAD_RESPONSE") (Some 503)
                            (Some "get"))),
     later busyThenDown 4).
Proof.
  refine (proj2 (axiosGet_settles "https://www.walmart.com/ip/012345"
                   busyThenDown 3 _ _) _ _ _).
  - lia.
  - intros i Hi.
    destruct i as [| [| [| i]]]; [| | | lia];
      exists (mkAxiosError (Some "ERR_BAD_REQUEST") (Some 429) (Some "get"));
      split; reflexivity.
  - reflexivity.
  - right. reflexivity.
Defined.

(** X2: which failed attempts of a GET request are retried: one that got no
    response, unless its code is ECONNABORTED (a timeout); one that got a
    response with a status from 500 to 599, or with status 429; and no
    other. *)
Theorem retried_get_errors (url : string) (w : World) (e : AxiosError) :
  fst (attempt url w) = Throw (AxiosFailure e) ->
  retryCondition e
  = match response e with
    | None => negb (codeIs e "ECONNABORTED")
    | Some status => (500 <=? status) && (status <=? 599) || (status =? 429)
    end.
Proof.
  unfold attempt.
  destruct (net w (attempts w) url) as [status data | c]; simpl.
  - destruct (validateStatus status) eqn:Hv; simpl; [discriminate |].
    intros H. injection H as <-. simpl.
    unfold retryCondition, isNetworkOrIdempotentRequestError, isNetworkError,
      isIdempotentRequestError, isRetryableError, hasResponse, statusIs, codeIs.
    simpl.
    assert (Hc : match statusCode status with
                 | Some c' => String.eqb c' "ECONNABORTED"
                 | None => false
                 end = false).
    { unfold statusCode.
      destruct ((400 <=? status) && (status <? 500)); [reflexivity |].
      destruct ((500 <=? status) && (status <? 600)); reflexivity. }
    rewrite Hc. simpl.
    rewrite andb_true_r. reflexivity.
  - intros H. injection H as <-.
    unfold retryCondition, isNetworkOrIdempotentRequestError, isNetworkError,
      isIdempotentRequestError, isRetryableError, hasResponse, statusIs, codeIs.
    simpl.
    destruct c as [c |]; simpl.
    + destruct (String.eqb c "ECONNABORTED"); simpl.
      * rewrite orb_true_r. simpl. rewrite andb_false_r. reflexivity.
      * rewrite orb_false_r.
        destruct (truthy c && negb (String.eqb c "ERR_CANCELED" || false)
                  && isRetryAllowed (mkAxiosError (Some c) None (Some "get")));
          reflexivity.
    + reflexivity.
Qed.

Lemma retried_get_errors_witness :
  retryCondition (mkAxiosError (Some "ECONNRESET") None (Some "get"))
  = negb (codeIs (mkAxiosError (Some "ECONNRESET") None (Some "get")) "ECONNABORTED").
Proof.
  exact (retried_get_errors "https://www.walmart.com/ip/012345" alwaysReset
           (mkAxiosError (Some "ECONNRESET") None (Some "get")) eq_refl).
Defined.

(** ** The use of the network *)

Lemma within_ret {A : Type} (a : A) : within 0 (ret a).
Proof. intros w. unfold ret. simpl. split; [reflexivity | lia]. Qed.

Lemma within_weaken {A : Type} (n n' : nat) (m : Js A) :
  (n <= n')%nat -> within n m -> within n' m.
Proof. intros Hn H w. destruct (H w) as [Hnet Ha]. split; [exact Hnet | lia]. Qed.

Lemma within_bind {A B : Type} (n1 n2 : nat) (m : Js A) (k : A -> Js B) :
  within n1 m -> (forall a, within n2 (k a)) -> within (n1 + n2) (bind m k).
Proof.
  intros Hm Hk w. unfold bind.
  destruct (Hm w) as [Hnet Ha].
  destruct (m w) as [[a | e] w1]; simpl in *.
  - destruct (Hk a w1) as [Hnet' Ha']. split; [congruence | lia].
  - split; [exact Hnet | lia].
Qed.

Lemma within_tryCatch {A : Type} (n1 n2 : nat) (body : Js A)
    (handler : Exception -> Js A) :
  within n1 body -> (forall e, within n2 (handler e)) ->
  within (n1 + n2) (tryCatch body handler).
Proof.
  intros Hm Hk w. unfold tryCatch.
  destruct (Hm w) as [Hnet Ha].
  destruct (body w) as [[a | e] w1]; simpl in *.
  - split; [exact Hnet | lia].
  - destruct (Hk e w1) as [Hnet' Ha']. split; [congruence | lia].
Qed.

Lemma within_axiosGet (url : string) : within 4 (axiosGet url).
Proof.
  intros w. unfold axiosGet, retries.
  destruct (requestWithRetry_attempts 3 url w) as [Hnet Ha].
  split; [exact Hnet | lia].
Qed.

Lemma within_load (data : Body) : within 0 (load data).
Proof.
  intros w. destruct data; simpl; split; try reflexivity; lia.
Qed.

Lemma within_storeFinder (c : Chain) (zipCode : string) :
  within 4 (storeFinder c zipCode).
Proof.
  destruct c; unfold storeFinder, findWalmartStores, findTargetStores;
    (apply (within_tryCatch 4 0);
     [ apply (within_bind 4 0);
       [ apply within_axiosGet
       | intros response; apply (within_bind 0 0);
         [apply within_load | intros; apply within_ret] ]
     | intros; apply within_ret ]).
Qed.

Lemma within_inventoryAdapter (c : Chain) (storeId barcode : string) :
  within 4 (inventoryAdapter c storeId barcode).
Proof.
  destruct c; unfold inventoryAdapter, getWalmartInventory, getTargetInventory;
    (apply (within_tryCatch 4 0);
     [ apply (within_bind 4 0);
       [ apply within_axiosGet
       | intros response; apply (within_bind 0 0);
         [apply within_load | intros; apply within_ret] ]
     | intros; apply within_ret ]).
Qed.

Lemma within_scraper (c : Chain) (barcode : string) :
  within 4 (scraper c barcode).
Proof.
  destruct c; unfold scraper, scrapeWalmartProduct, scrapeTargetProduct;
    (apply (within_tryCatch 4 0);
     [ apply (within_bind 4 0);
       [ apply within_axiosGet
       | intros response; apply (within_bind 0 0);
         [ apply within_load
         | intros doc; cbv zeta;
           match goal with |- within _ (if ?b then _ else _) => destruct b end;
           apply within_ret ] ]
     | intros; apply within_ret ]).
Qed.

Lemma within_getInventory (store : StoreLocation.t) (barcode : string) :
  within 4 (getInventory store barcode).
Proof. rewrite getInventory_adapter. apply within_inventoryAdapter. Qed.

Lemma within_checkAlternatives (stores : list StoreLocation.t) (barcode : string) :
  forall acc, within (4 * List.length stores) (checkAlternatives stores barcode acc).
Proof.
  induction stores as [| store rest IH]; intros acc; simpl checkAlternatives.
  - apply within_ret.
  - apply (within_weaken (4 + 4 * List.length rest)); [simpl List.length; lia |].
    apply within_bind; [apply within_getInventory | intros r; apply IH].
Qed.

Lemma within_lookupAll (stores : list StoreLocation.t) (barcode : string) :
  within (4 * List.length stores) (lookupAll stores barcode).
Proof.
  induction stores as [| store rest IH]; simpl lookupAll.
  - apply within_ret.
  - apply (within_weaken (4 + (4 * List.length rest + 0))); [simpl List.length; lia |].
    apply within_bind; [apply within_getInventory | intros r].
    apply within_bind; [exact IH | intros; apply within_ret].
Qed.

Lemma within_identify (barcode : string) : within 8 (identify barcode).
Proof.
  unfold identify. apply (within_bind 4 4).
  - apply (within_scraper walmart).
  - intros [p |].
    + apply (within_weaken 0); [lia | apply within_ret].
    + apply (within_scraper target).
Qed.

Lemma within_candidateStores (zipCode : string) :
  within 8 (candidateStores zipCode).
Proof.
  unfold candidateStores. apply (within_bind 4 4).
  - apply (within_storeFinder walmart).
  - intros ws. apply (within_bind 4 0).
    + apply (within_storeFinder target).
    + intros; apply within_ret.
Qed.

Lemma slice_1_4 {A : Type} (x : A) (l : list A) :
  slice 1 4 (x :: l) = firstn 3 l.
Proof. reflexivity. Qed.

Lemma within_resolveInventory (p : ProductInfo.t) (barcode zipCode : string) :
  within 24 (resolveInventory p barcode zipCode).
Proof.
  unfold resolveInventory.
  apply (within_bind 4 20); [apply (within_storeFinder walmart) | intros ws].
  apply (within_bind 4 16); [apply (within_storeFinder target) | intros ts].
  cbv zeta.
  destruct (sortStores ws ts) as [| nearest others] eqn:Hs.
  - apply (within_weaken 0); [lia | apply within_ret].
  - apply (within_bind 4 12); [apply within_getInventory | intros primary].
    destruct (negb (inStockOf primary)).
    + apply (within_bind 12 0); [| intros; apply within_ret].
      rewrite slice_1_4.
      apply (within_weaken (4 * List.length (firstn 3 others))).
      * pose proof (firstn_3_length others). lia.
      * apply within_checkAlternatives.
    + apply (within_weaken 0); [lia | apply within_ret].
Qed.

Lemma within_afterIdentify (barcode : string) (zipCode : option string)
    (found : option ProductInfo.t) :
  within (match zipGiven zipCode with Some _ => 24 | None => 0 end)
    (match found with
     | None => ret None
     | Some productInfo =>
         match zipGiven zipCode with
         | Some zip =>
             productInfo <- resolveInventory productInfo barcode zip ;;
             ret (Some productInfo)
         | None => ret (Some productInfo)
         end
     end).
Proof.
  destruct found as [p |].
  - destruct (zipGiven zipCode) as [zip |].
    + apply (within_bind 24 0);
        [apply within_resolveInventory | intros; apply within_ret].
    + apply within_ret.
  - apply (within_weaken 0); [lia | apply within_ret].
Qed.

Lemma getProductInfo_identify (barcode : string) (zipCode : option string)
    (w : World) :
  getProductInfo barcode zipCode w
  = tryCatch
      (found <- identify barcode ;;
       match found with
       | None => ret None
       | Some productInfo =>
           match zipGiven zipCode with
           | Some zip =>
               productInfo <- resolveInventory productInfo barcode zip ;;
               ret (Some productInfo)
           | None => ret (Some productInfo)
           end
       end)
      (fun error => ret None) w.
Proof.
  unfold getProductInfo, identify, tryCatch, bind.
  destruct (scrapeWalmartProduct barcode w) as [[[p |] | e] w1]; reflexivity.
Qed.

(** ** The steps of [getProductInfo] *)

Lemma scraper_product (c : Chain) (barcode : string) (w w' : World)
    (p : ProductInfo.t) :
  scraper c barcode w = (Ok (Some p), w') ->
  ProductInfo.barcode p = barcode /\
  ProductInfo.name p <> EmptyString /\
  ProductInfo.alternativeStores p = None /\
  ProductInfo.inventory p = unknownInventory c /\
  exists doc,
    axiosGet (productUrl c barcode) w = (Ok (Markup doc), w') /\
    ProductInfo.name p = trim (text (select doc (titleSelector c))).
Proof.
  intros H. pose proof (scraper_cases c barcode w) as Hc.
  destruct (axiosGet (productUrl c barcode) w) as [[[doc |] | e] w1].
  - destruct Hc as [image [brand Hc]]. rewrite Hc in H.
    injection H as H Hw. subst w1. cbv zeta in H.
    destruct (truthy (trim (text (select doc (titleSelector c))))) eqn:Hn;
      [| discriminate].
    injection H as <-. simpl.
    repeat split; try reflexivity.
    + intros Hempty. rewrite Hempty in Hn. discriminate.
    + exists doc. split; reflexivity.
  - rewrite Hc in H. discriminate.
  - rewrite Hc in H. discriminate.
Qed.

Lemma identify_product (barcode : string) (w w1 : World) (p : ProductInfo.t) :
  identify barcode w = (Ok (Some p), w1) ->
  ProductInfo.barcode p = barcode /\
  ProductInfo.name p <> EmptyString /\
  ProductInfo.alternativeStores p = None /\
  exists c, ProductInfo.inventory p = unknownInventory c.
Proof.
  unfold identify, bind. intros H.
  destruct (scrapeWalmartProduct barcode w) as [[[q |] | e] w0] eqn:Hw.
  - unfold ret in H. injection H as -> ->.
    destruct (scraper_product walmart barcode w w1 p Hw) as (Hb & Hn & Ha & Hi & _).
    repeat split; auto. exists walmart. exact Hi.
  - destruct (scraper_product target barcode w0 w1 p H) as (Hb & Hn & Ha & Hi & _).
    repeat split; auto. exists target. exact Hi.
  - discriminate.
Qed.

Lemma candidateStores_cases (zipCode : string) (w : World) :
  exists walmartStores w1 targetStores w2,
    findWalmartStores zipCode w = (Ok walmartStores, w1) /\
    findTargetStores zipCode w1 = (Ok targetStores, w2) /\
    candidateStores zipCode w = (Ok (sortStores walmartStores targetStores), w2).
Proof.
  destruct (storeFinder_total walmart zipCode w) as [ws [w1 Hw]].
  destruct (storeFinder_total target zipCode w1) as [ts [w2 Ht]].
  simpl in Hw, Ht.
  exists ws, w1, ts, w2. repeat split; auto.
  unfold candidateStores, bind. rewrite Hw, Ht. reflexivity.
Qed.

Lemma getProductInfo_resolved (barcode : string) (zipCode : option string)
    (w w' : World) (info : ProductInfo.t) :
  getProductInfo barcode zipCode w = (Ok (Some info), w') ->
  exists p w1,
    identify barcode w = (Ok (Some p), w1) /\
    sameIdentity info p /\
    match zipGiven zipCode with
    | None => info = p /\ w' = w1
    | Some zip =>
        exists stores w2,
          candidateStores zip w1 = (Ok stores, w2) /\
          match stores with
          | [] => info = p /\ w' = w2
          | nearest :: others =>
              exists primary w3,
                getInventory nearest barcode w2 = (Ok primary, w3) /\
                ProductInfo.inventory info
                = match primary with
                  | Some i => i
                  | None => ProductInfo.inventory p
                  end /\
                if inStockOf primary
                then ProductInfo.alternativeStores info
                     = ProductInfo.alternativeStores p /\ w' = w3
                else exists results,
                    lookupAll (firstn 3 others) barcode w3 = (Ok results, w') /\
                    Forall2 (fun r s => forall i, r = Some i ->
                                                  inventoryKey i = storeKey s)
                            results (firstn 3 others) /\
                    ProductInfo.alternativeStores info
                    = match inStockOnly results with
                      | [] => ProductInfo.alternativeStores p
                      | _ :: _ => Some (inStockOnly results)
                      end
          end
    end.
Proof.
  rewrite getProductInfo_identify. unfold tryCatch, bind. intros H.
  destruct (identify barcode w) as [[[p |] | e] w1] eqn:Hid;
    [| unfold ret in H; discriminate | unfold ret in H; discriminate].
  exists p, w1. split; [reflexivity |].
  destruct (zipGiven zipCode) as [zip |].
  - destruct (resolveInventory_cases p barcode zip w1)
      as (ws & w2 & ts & w3 & Hw & Ht & Hcases).
    destruct (candidateStores_cases zip w1)
      as (ws' & w2' & ts' & w3' & Hw' & Ht' & Hcand).
    rewrite Hw in Hw'. injection Hw' as <- <-.
    rewrite Ht in Ht'. injection Ht' as <- <-.
    destruct (resolveInventory_identity p barcode zip w1) as (p' & w'' & Hres & Hsame).
    rewrite Hres in H. unfold ret in H. injection H as -> ->.
    split; [exact Hsame |].
    exists (sortStores ws ts), w3. split; [exact Hcand |].
    destruct (sortStores ws ts) as [| nearest others].
    + rewrite Hcases in Hres. injection Hres as <- <-. split; reflexivity.
    + destruct Hcases as (primary & w4 & Hinv & Hkey & Hcases).
      exists primary, w4. split; [exact Hinv |].
      cbv zeta in Hcases.
      destruct (inStockOf primary).
      * rewrite Hcases in Hres. injection Hres as <- <-.
        destruct primary as [i |]; simpl; repeat split; reflexivity.
      * destruct Hcases as (results & w5 & Hall & Hkeys & Hcases).
        rewrite Hcases in Hres. injection Hres as <- <-.
        split.
        -- destruct (inStockOnly results); destruct primary as [i |]; reflexivity.
        -- exists results. repeat split; auto.
           destruct (inStockOnly results); destruct primary as [i |]; reflexivity.
  - unfold ret in H. injection H as -> ->.
    repeat split; reflexivity.
Qed.

(** ** What a product lookup costs and returns *)

Lemma scraper_world (c : Chain) (barcode : string) (w : World) :
  snd (scraper c barcode w) = snd (axiosGet (productUrl c barcode) w).
Proof.
  pose proof (scraper_cases c barcode w) as Hc.
  destruct (axiosGet (productUrl c barcode) w) as [[[doc |] | e] w1].
  - destruct Hc as [image [brand Hc]]. rewrite Hc. reflexivity.
  - rewrite Hc. reflexivity.
  - rewrite Hc. reflexivity.
Qed.

Lemma tryCatch_bind_world {A B : Type} (n1 n2 : nat) (m : Js A) (k : A -> Js B)
    (handler : Exception -> Js B) :
  within n1 m -> (forall a, within n2 (k a)) -> (forall e, within 0 (handler e)) ->
  forall w,
    net (snd (tryCatch (bind m k) handler w)) = net w /\
    (attempts (snd (m w)) <= attempts (snd (tryCatch (bind m k) handler w))
     <= attempts w + (n1 + n2))%nat.
Proof.
  intros Hm Hk Hh w. unfold tryCatch, bind.
  destruct (Hm w) as [Hnet Ha].
  destruct (m w) as [[a | e] w1]; simpl in *.
  - destruct (Hk a w1) as [Hnet' Ha'].
    destruct (k a w1) as [[b | e] w2]; simpl in *.
    + split; [congruence | lia].
    + destruct (Hh e w2) as [Hnet'' Ha''].
      split; [congruence | lia].
  - destruct (Hh e w1) as [Hnet' Ha']. split; [congruence | lia].
Qed.

(** X3: a product lookup never throws, leaves the network as it is, and
    makes at least one and at most 32 attempts (eight requests of at most
    four attempts each); without a usable zip code it makes at most 8. *)
Theorem getProductInfo_network_use (barcode : string) (zipCode : option string)
    (w : World) :
  (exists r, fst (getProductInfo barcode zipCode w) = Ok r) /\
  net (snd (getProductInfo barcode zipCode w)) = net w /\
  (attempts w + 1 <= attempts (snd (getProductInfo barcode zipCode w))
   <= attempts w + 32)%nat /\
  (zipGiven zipCode = None ->
   (attempts (snd (getProductInfo barcode zipCode w)) <= attempts w + 8)%nat).
Proof.
  assert (HK : forall a,
             within (4 + match zipGiven zipCode with Some _ => 24 | None => 0 end)
               (found <- match a with
                         | Some p => ret (Some p)
                         | None => scrapeTargetProduct barcode
                         end ;;
                match found with
                | None => ret None
                | Some productInfo =>
                    match zipGiven zipCode with
                    | Some zip =>
                        productInfo <- resolveInventory productInfo barcode zip ;;
                        ret (Some productInfo)
                    | None => ret (Some productInfo)
                    end
                end)).
  { intros a. apply within_bind.
    - destruct a as [p |].
      + apply (within_weaken 0); [lia | apply within_ret].
      + apply (within_scraper target).
    - intros found. apply within_afterIdentify. }
  pose proof (tryCatch_bind_world 4 _ (scrapeWalmartProduct barcode) _
                (fun error => ret None)
                (within_scraper walmart barcode) HK
                (fun e => within_ret None) w) as [Hnet Ha].
  fold (getProductInfo barcode zipCode) in Hnet, Ha.
  pose proof (scraper_world walmart barcode w) as Hsw. simpl in Hsw.
  rewrite Hsw in Ha.
  destruct (requestWithRetry_attempts 3 (productUrl walmart barcode) w) as [_ Hlow].
  fold retries in Hlow. fold (axiosGet (productUrl walmart barcode)) in Hlow.
  simpl productUrl in *.
  split; [| split; [exact Hnet | split]].
  - unfold getProductInfo, tryCatch.
    match goal with |- exists r, fst (let (r0, w') := ?b in _) = _ =>
      destruct b as [[r | e] w1] end; simpl; eexists; reflexivity.
  - destruct (zipGiven zipCode); lia.
  - intros Hz. rewrite Hz in Ha. lia.
Qed.

(** X4: the inventory reported for a store is read from the product page
    alone: asked in the same state of the network about any two stores of a
    chain, the adapter gives the same answer but for the store id it copies
    into it. *)
Theorem inventory_same_at_every_store (c : Chain) (storeId1 storeId2 barcode : string)
    (w : World) :
  exists r w',
    inventoryAdapter c storeId1 barcode w = (Ok r, w') /\
    inventoryAdapter c storeId2 barcode w = (Ok (option_map (atStore storeId2) r), w').
Proof.
  pose proof (inventoryAdapter_cases c storeId1 barcode w) as H1.
  pose proof (inventoryAdapter_cases c storeId2 barcode w) as H2.
  destruct (axiosGet (productUrl c barcode) w) as [[[doc |] | e] w'].
  - eexists. exists w'. split; [exact H1 |]. rewrite H2. reflexivity.
  - exists None, w'. split; [exact H1 | exact H2].
  - exists None, w'. split; [exact H1 | exact H2].
Qed.

(** X5: a product that is returned carries the barcode that was asked for
    and a name that is not empty, whichever chain identified it and whatever
    the stores reported. *)
Theorem product_carries_barcode_and_name (barcode : string)
    (zipCode : option string) (w w' : World) (info : ProductInfo.t) :
  getProductInfo barcode zipCode w = (Ok (Some info), w') ->
  ProductInfo.barcode info = barcode /\ ProductInfo.name info <> EmptyString.
Proof.
  intros H.
  destruct (getProductInfo_resolved barcode zipCode w w' info H)
    as (p & w1 & Hid & (Hname & _ & Hbar & _) & _).
  destruct (identify_product barcode w w1 p Hid) as (Hb & Hn & _).
  split; congruence.
Qed.

Lemma product_carries_barcode_and_name_witness :
  exists info w',
    getProductInfo "012345" (Some "90210") zeroMilesSite = (Ok (Some info), w') /\
    ProductInfo.barcode info = "012345" /\ ProductInfo.name info <> EmptyString.
Proof.
  eexists. eexists. split; [vm_compute; reflexivity |].
  apply (product_carries_barcode_and_name "012345" (Some "90210") zeroMilesSite
           (mkWorld (net zeroMilesSite) 4)).
  vm_compute. reflexivity.
Defined.

(** ** A network that answers by URL alone *)

Lemma requestWithRetry_stable (url : string) (budget : nat) :
  forall w1 w2,
    answersByUrl w1 -> net w2 = net w1 ->
    fst (requestWithRetry budget url w2) = fst (requestWithRetry budget url w1).
Proof.
  induction budget as [| b IH]; intros w1 w2 Hs Hn.
  - simpl. unfold attempt. rewrite Hn, (Hs (attempts w2) (attempts w1) url).
    destruct (net w1 (attempts w1) url) as [status data | c]; simpl.
    + destruct (validateStatus status); reflexivity.
    + reflexivity.
  - simpl. unfold attempt. rewrite Hn, (Hs (attempts w2) (attempts w1) url).
    destruct (net w1 (attempts w1) url) as [status data | c]; simpl.
    + destruct (validateStatus status); simpl; [reflexivity |].
      destruct (retryCondition _); [| reflexivity].
      apply IH; [| reflexivity].
      intros n m u. simpl. apply Hs.
    + destruct (retryCondition _); [| reflexivity].
      apply IH; [| reflexivity].
      intros n m u. simpl. apply Hs.
Qed.

Lemma inventoryAdapter_fst (c : Chain) (storeId barcode : string) (w : World) :
  fst (inventoryAdapter c storeId barcode w)
  = match fst (axiosGet (productUrl c barcode) w) with
    | Ok (Markup doc) =>
        Ok (Some (StoreInventory.mk storeId c
                    (includes (toLowerCase (text (select doc ".fulfillment-status")))
                              "in stock")
                    None
                    (orString (trim (text (select doc ".aisle-location")))
                              "Ask store associate")
                    (orUndefined (parseFloat (priceTextOf c doc)))))
    | Ok NoData | Throw _ => Ok None
    end.
Proof.
  pose proof (inventoryAdapter_cases c storeId barcode w) as H.
  destruct (axiosGet (productUrl c barcode) w) as [[[doc |] | e] w1];
    rewrite H; reflexivity.
Qed.

Lemma inventoryAdapter_stable (c : Chain) (storeId1 storeId2 barcode : string)
    (w1 w2 : World) (primary : option StoreInventory.t) :
  answersByUrl w1 -> net w2 = net w1 ->
  fst (inventoryAdapter c storeId1 barcode w1) = Ok primary ->
  fst (inventoryAdapter c storeId2 barcode w2)
  = Ok (option_map (atStore storeId2) primary).
Proof.
  intros Hs Hn. rewrite !inventoryAdapter_fst.
  unfold axiosGet. rewrite (requestWithRetry_stable _ _ w1 w2 Hs Hn).
  destruct (fst (requestWithRetry retries (productUrl c barcode) w1))
    as [[doc |] | e];
    intros H; injection H as <-; reflexivity.
Qed.

Lemma lookupAll_same_chain (c : Chain) (storeId barcode : string) (w1 : World)
    (primary : option StoreInventory.t) (stores : list StoreLocation.t) :
  answersByUrl w1 ->
  fst (inventoryAdapter c storeId barcode w1) = Ok primary ->
  inStockOf primary = false ->
  forall w3 results w4,
    net w3 = net w1 ->
    lookupAll stores barcode w3 = (Ok results, w4) ->
    Forall2 (fun r s => StoreLocation.chain s = c -> inStockOf r = false)
            results stores.
Proof.
  intros Hs Hp Hout.
  induction stores as [| store rest IH]; intros w3 results w4 Hn H.
  - simpl in H. unfold ret in H. injection H as <- _. constructor.
  - simpl in H. unfold bind in H.
    pose proof (within_getInventory store barcode w3) as [Hnet _].
    destruct (getInventory store barcode w3) as [[r | e] w3'] eqn:Hr; [| discriminate].
    destruct (lookupAll rest barcode w3') as [[others | e] w3''] eqn:Hrest;
      [| discriminate].
    unfold ret in H. injection H as <- <-.
    constructor.
    + intros Hc. subst c.
      rewrite getInventory_adapter in Hr.
      pose proof (inventoryAdapter_stable (StoreLocation.chain store) storeId
                    (StoreLocation.storeId store) barcode w1 w3 primary Hs Hn Hp) as Hst.
      rewrite Hr in Hst. simpl in Hst. injection Hst as ->.
      destruct primary as [i |]; [exact Hout | reflexivity].
    + apply (IH w3' others w3''); [| exact Hrest].
      simpl in Hnet. congruence.
Qed.

Lemma Forall2_and {A B : Type} (R R' : A -> B -> Prop) (l : list A) (l' : list B) :
  Forall2 R l l' -> Forall2 R' l l' -> Forall2 (fun a b => R a b /\ R' a b) l l'.
Proof.
  intros H. induction H; intros H'; inversion H'; subst; constructor; auto.
Qed.

Lemma inStockOnly_In (results : list (option StoreInventory.t))
    (a : StoreInventory.t) :
  In a (inStockOnly results) ->
  In (Some a) results /\ StoreInventory.inStock a = true.
Proof.
  induction results as [| [i |] rest IH]; simpl; [tauto | |].
  - destruct (StoreInventory.inStock i) eqn:Hi.
    + intros [-> | H]; [auto | destruct (IH H); auto].
    + intros H. destruct (IH H); auto.
  - intros H. destruct (IH H); auto.
Qed.

(** X6: on a network that answers every URL the same way at each attempt,
    the alternative stores of a returned product all belong to the other
    chain than the nearest store: the stores of the nearest store's chain
    are answered from the page that already showed the product out of
    stock. *)
Theorem alternatives_of_the_other_chain (barcode : string)
    (zipCode : option string) (w w' : World) (info : ProductInfo.t)
    (alts : list StoreInventory.t) :
  answersByUrl w ->
  getProductInfo barcode zipCode w = (Ok (Some info), w') ->
  ProductInfo.alternativeStores info = Some alts ->
  exists zip w1 w2 nearest others,
    zipGiven zipCode = Some zip /\
    net w1 = net w /\
    candidateStores zip w1 = (Ok (nearest :: others), w2) /\
    Forall (fun a => StoreInventory.chain a <> StoreLocation.chain nearest) alts.
Proof.
  intros Hs H Halts.
  destruct (getProductInfo_resolved barcode zipCode w w' info H)
    as (p & w1 & Hid & _ & Hcases).
  destruct (identify_product barcode w w1 p Hid) as (_ & _ & Hfresh & _).
  pose proof (within_identify barcode w) as [Hn1 _]. rewrite Hid in Hn1. simpl in Hn1.
  destruct (zipGiven zipCode) as [zip |];
    [| destruct Hcases as [-> _]; congruence].
  destruct Hcases as (stores & w2 & Hcand & Hcases).
  pose proof (within_candidateStores zip w1) as [Hn2 _].
  rewrite Hcand in Hn2. simpl in Hn2.
  destruct stores as [| nearest others];
    [destruct Hcases as [-> _]; congruence |].
  destruct Hcases as (primary & w3 & Hinv & _ & Hcases).
  pose proof (within_getInventory nearest barcode w2) as [Hn3 _].
  rewrite Hinv in Hn3. simpl in Hn3.
  destruct (inStockOf primary) eqn:Hout;
    [destruct Hcases as [Ha _]; congruence |].
  destruct Hcases as (results & Hall & Hkeys & Ha).
  exists zip, w1, w2, nearest, others.
  repeat split; auto.
  assert (Hres : alts = inStockOnly results).
  { rewrite Halts in Ha. destruct (inStockOnly results); congruence. }
  subst alts.
  assert (Hs2 : answersByUrl w2).
  { intros n m url. rewrite Hn2, Hn1. apply Hs. }
  rewrite getInventory_adapter in Hinv.
  pose proof (lookupAll_same_chain (StoreLocation.chain nearest)
                (StoreLocation.storeId nearest) barcode w2 primary
                (firstn 3 others) Hs2
                (f_equal fst Hinv) Hout w3 results w' Hn3 Hall) as Hsame.
  pose proof (Forall2_and _ _ _ _ Hkeys Hsame) as Hboth.
  apply Forall_forall. intros a Hin.
  destruct (inStockOnly_In results a Hin) as [Hin' Hstock].
  destruct (Forall2_In_l _ _ _ _ Hboth Hin') as (s & _ & Hkey & Hchain).
  specialize (Hkey a eq_refl).
  unfold inventoryKey, storeKey in Hkey. injection Hkey as _ Hc.
  intros Heq. rewrite Hc in Heq. specialize (Hchain Heq).
  simpl in Hchain. congruence.
Qed.

Lemma alternatives_of_the_other_chain_witness :
  exists info alts,
    getProductInfo "012345" (Some "90210") sameNumberSite
    = (Ok (Some info), mkWorld (net sameNumberSite) 5) /\
    ProductInfo.alternativeStores info = Some alts /\
    exists zip w1 w2 nearest others,
      zipGiven (Some "90210") = Some zip /\
      net w1 = net sameNumberSite /\
      candidateStores zip w1 = (Ok (nearest :: others), w2) /\
      Forall (fun a => StoreInventory.chain a <> StoreLocation.chain nearest) alts.
Proof.
  eexists. eexists.
  split; [vm_compute; reflexivity |].
  split; [vm_compute; reflexivity |].
  eapply (alternatives_of_the_other_chain "012345" (Some "90210") sameNumberSite
           (mkWorld (net sameNumberSite) 5)).
  - intros n m url. reflexivity.
  - vm_compute. reflexivity.
  - vm_compute. reflexivity.
Defined.

(** ** The scanner *)







(** ** The pantry *)

Lemma findIndex_None {A : Type} (p : A -> bool) (l : list A) :
  findIndex p l = None <-> forall x, In x l -> p x = false.
Proof.
  induction l as [| x r IH]; simpl.
  - split; [intros _ y [] | reflexivity].
  - destruct (p x) eqn:Hp.
    + split; [discriminate |]. intros H. rewrite (H x) in Hp; [discriminate | auto].
    + destruct (findIndex p r) as [i |]; simpl.
      * split; [discriminate |]. intros H.
        apply proj2 in IH. discriminate IH. intros y Hy. apply H. auto.
      * split; [| reflexivity]. intros _ y [<- | Hy]; [exact Hp |].
        apply (proj1 IH); auto.
Qed.

Lemma findIndex_Some {A : Type} (p : A -> bool) (l : list A) :
  forall i,
    findIndex p l = Some i ->
    exists l1 x l2,
      l = l1 ++ x :: l2 /\ List.length l1 = i /\ p x = true /\
      (forall y, In y l1 -> p y = false).
Proof.
  induction l as [| x r IH]; simpl; intros i H; [discriminate |].
  destruct (p x) eqn:Hp.
  - injection H as <-. exists [], x, r. repeat split; auto. intros y [].
  - destruct (findIndex p r) as [j |]; [| discriminate].
    simpl in H. injection H as <-.
    destruct (IH j eq_refl) as (l1 & y & l2 & -> & Hlen & Hy & Hbefore).
    exists (x :: l1), y, l2. repeat split; simpl; auto.
    intros z [<- | Hz]; auto.
Qed.

Lemma updateAt_app {A : Type} (f : A -> A) (l1 : list A) (x : A) (l2 : list A) :
  updateAt (List.length l1) f (l1 ++ x :: l2) = l1 ++ f x :: l2.
Proof. induction l1 as [| y l1 IH]; simpl; [| rewrite IH]; reflexivity. Qed.

(** The two ways [handleScanned] can go. *)
Lemma handleScanned_cases (id : string) (now : Z) (data : ScanData.t)
    (prev : list PantryItem.t) :
  (~ In (ScanData.barcode data) (map PantryItem.barcode prev) /\
   handleScanned id now data prev = prev ++ [newItem id now data])
  \/ (exists l1 item l2,
        prev = l1 ++ item :: l2 /\
        PantryItem.barcode item = ScanData.barcode data /\
        ~ In (ScanData.barcode data) (map PantryItem.barcode l1) /\
        handleScanned id now data prev
        = l1 ++ rescanned (ScanData.prices data) item :: l2).
Proof.
  unfold handleScanned.
  destruct (findIndex _ prev) as [i |] eqn:Hf.
  - right.
    destruct (findIndex_Some _ _ _ Hf) as (l1 & x & l2 & -> & <- & Hx & Hbefore).
    exists l1, x, l2. rewrite updateAt_app.
    apply String.eqb_eq in Hx.
    repeat split; auto.
    intros Hin. apply in_map_iff in Hin. destruct Hin as (y & Hy & Hin).
    specialize (Hbefore y Hin). apply String.eqb_neq in Hbefore. auto.
  - left. split; [| reflexivity].
    intros Hin. apply in_map_iff in Hin. destruct Hin as (y & Hy & Hin).
    pose proof (proj1 (findIndex_None _ _) Hf y Hin) as Hn.
    apply String.eqb_neq in Hn. auto.
Qed.

Lemma totalQuantity_app (l1 l2 : list PantryItem.t) :
  totalQuantity (l1 ++ l2) = totalQuantity l1 + totalQuantity l2.
Proof.
  unfold totalQuantity. induction l1 as [| x l1 IH]; simpl; [reflexivity |].
  rewrite IH. lia.
Qed.

(** X9: what a scan does to the pantry: the quantities in the pantry grow by
    exactly one in total, the scanned barcode is in the pantry afterwards,
    the items with other barcodes stay as they are, and a pantry without
    repeated barcodes or with quantities of at least one stays so. *)
Theorem handleScanned_pantry (id : string) (now : Z) (data : ScanData.t)
    (prev : list PantryItem.t) :
  totalQuantity (handleScanned id now data prev) = totalQuantity prev + 1 /\
  In (ScanData.barcode data)
     (map PantryItem.barcode (handleScanned id now data prev)) /\
  filter (fun item => negb (String.eqb (PantryItem.barcode item)
                                        (ScanData.barcode data)))
         (handleScanned id now data prev)
  = filter (fun item => negb (String.eqb (PantryItem.barcode item)
                                          (ScanData.barcode data))) prev /\
  (distinctBarcodes prev -> distinctBarcodes (handleScanned id now data prev)) /\
  (positiveQuantities prev -> positiveQuantities (handleScanned id now data prev)).
Proof.
  destruct (handleScanned_cases id now data prev)
    as [[Hnew ->] | (l1 & item & l2 & -> & Hb & Hbefore & ->)].
  - repeat split.
    + rewrite totalQuantity_app. unfold totalQuantity. simpl. lia.
    + rewrite map_app. apply in_or_app. right. simpl. auto.
    + rewrite filter_app. simpl. rewrite String.eqb_refl. simpl.
      apply app_nil_r.
    + unfold distinctBarcodes. intros Hd. rewrite map_app. simpl.
      apply NoDup_app; [exact Hd | constructor; [intros [] | constructor] |].
      intros a Ha [<- | []]. auto.
    + unfold positiveQuantities. intros Hq. apply Forall_app. split; [exact Hq |].
      constructor; [simpl; lia | constructor].
  - repeat split.
    + rewrite !totalQuantity_app. unfold totalQuantity. simpl. lia.
    + rewrite map_app. apply in_or_app. right. simpl. auto.
    + rewrite !filter_app. simpl. rewrite Hb, String.eqb_refl. reflexivity.
    + unfold distinctBarcodes. rewrite !map_app. simpl. auto.
    + unfold positiveQuantities. intros Hq.
      apply Forall_app in Hq. destruct Hq as [H1 H2].
      inversion H2; subst.
      apply Forall_app. split; [exact H1 |].
      constructor; [simpl; lia | assumption].
Qed.

Lemma findIndex_app_new {A : Type} (p : A -> bool) (l : list A) (x : A) :
  (forall y, In y l -> p y = false) -> p x = true ->
  findIndex p (l ++ [x]) = Some (List.length l).
Proof.
  intros Hl Hx. induction l as [| y l IH]; simpl.
  - rewrite Hx. reflexivity.
  - rewrite (Hl y (or_introl eq_refl)), IH; [reflexivity |].
    intros z Hz. apply Hl. right. exact Hz.
Qed.

(** X10: scanning a product that is not in the pantry twice leaves one entry
    for it, with quantity 2: the entry keeps the id, the name, the image, the
    date and the aisle text of the first scan and takes the prices of the
    second. *)
Theorem scanned_again (id1 id2 : string) (now1 now2 : Z) (first second : ScanData.t)
    (prev : list PantryItem.t) :
  ~ In (ScanData.barcode first) (map PantryItem.barcode prev) ->
  ScanData.barcode second = ScanData.barcode first ->
  handleScanned id2 now2 second (handleScanned id1 now1 first prev)
  = prev ++ [PantryItem.mk id1 (ScanData.barcode first)
               (ScanData.productName first) 2 now1 (ScanData.productImage first)
               (ScanData.prices second)
               (PantryItem.aisle (newItem id1 now1 first))].
Proof.
  intros Hnew Hsame.
  assert (Hnone : forall y, In y prev ->
                   String.eqb (PantryItem.barcode y) (ScanData.barcode first) = false).
  { intros y Hy. apply String.eqb_neq. intros Heq. apply Hnew.
    rewrite <- Heq. apply in_map. exact Hy. }
  unfold handleScanned at 2.
  rewrite (proj2 (findIndex_None _ prev) Hnone).
  unfold handleScanned. rewrite Hsame.
  rewrite (findIndex_app_new _ prev (newItem id1 now1 first) Hnone).
  - rewrite updateAt_app. reflexivity.
  - simpl. apply String.eqb_refl.
Qed.

Lemma scanned_again_witness :
  handleScanned "zz91" 20 (scanOf "0003") (handleScanned "ab12" 10 (scanOf "0003") smallPantry)
  = smallPantry ++ [PantryItem.mk "ab12" "0003" "Product 0003" 2 10 "" []
                      (Some "Out of stock at both Walmart and Target")].
Proof.
  apply (scanned_again "ab12" "zz91" 10 20 (scanOf "0003") (scanOf "0003") smallPantry).
  - simpl. intros [H | [H | []]]; discriminate.
  - reflexivity.
Defined.

Lemma filter_keeps_distinct {K : Type} (key : PantryItem.t -> K)
    (keep : PantryItem.t -> bool) (items : list PantryItem.t) :
  NoDup (map key items) -> NoDup (map key (filter keep items)).
Proof.
  intros Hd. induction items as [| item rest IH]; simpl; [constructor |].
  simpl in Hd. apply NoDup_cons_iff in Hd. destruct Hd as [Hnew Hrest].
  destruct (keep item); simpl; [| exact (IH Hrest)].
  apply NoDup_cons_iff. split; [| exact (IH Hrest)].
  intros Hin. apply Hnew. apply in_map_iff in Hin.
  destruct Hin as (other & Hkey & Hother). apply filter_In in Hother.
  rewrite <- Hkey. apply in_map. tauto.
Qed.

Lemma Forall_filter {A : Type} (P : A -> Prop) (p : A -> bool) (l : list A) :
  Forall P l -> Forall P (filter p l).
Proof.
  intros H. apply Forall_forall. intros x Hx. apply filter_In in Hx.
  rewrite Forall_forall in H. apply H. tauto.
Qed.

Lemma filter_id_gone (id : string) (l : list PantryItem.t) :
  ~ In id (map PantryItem.id
             (filter (fun item => negb (String.eqb (PantryItem.id item) id)) l)).
Proof.
  intros Hin. apply in_map_iff in Hin. destruct Hin as (x & Hx & Hin).
  apply filter_In in Hin. destruct Hin as [_ Hne].
  rewrite Hx, String.eqb_refl in Hne. discriminate.
Qed.

(** X11: the two edit handlers of the pantry keep a pantry without repeated
    barcodes and with quantities of at least one that way: a quantity below
    one is refused and leaves the pantry as it is, another quantity changes
    nothing but quantities, and after a deletion no item has the deleted
    id. *)
Theorem pantry_edits (id : string) (newQuantity : Z) (prev : list PantryItem.t) :
  distinctBarcodes prev -> positiveQuantities prev ->
  (distinctBarcodes (handleUpdateQuantity id newQuantity prev) /\
   positiveQuantities (handleUpdateQuantity id newQuantity prev) /\
   (newQuantity < 1 -> handleUpdateQuantity id newQuantity prev = prev) /\
   map (fun item => withQuantity item 0) (handleUpdateQuantity id newQuantity prev)
   = map (fun item => withQuantity item 0) prev) /\
  (distinctBarcodes (handleDelete id prev) /\
   positiveQuantities (handleDelete id prev) /\
   ~ In id (map PantryItem.id (handleDelete id prev))).
Proof.
  intros Hd Hq. split; [| repeat split].
  - unfold handleUpdateQuantity.
    destruct (newQuantity <? 1) eqn:Hn.
    + repeat split; auto.
    + apply Z.ltb_ge in Hn.
      assert (Hshape : map (fun item => withQuantity item 0)
                         (map (fun item => if String.eqb (PantryItem.id item) id
                                           then withQuantity item newQuantity
                                           else item) prev)
                       = map (fun item => withQuantity item 0) prev).
      { rewrite map_map. apply map_ext. intros x.
        destruct (String.eqb (PantryItem.id x) id); reflexivity. }
      repeat split.
      * unfold distinctBarcodes in *.
        replace (map PantryItem.barcode
                   (map (fun item => if String.eqb (PantryItem.id item) id
                                     then withQuantity item newQuantity
                                     else item) prev))
          with (map PantryItem.barcode prev); [exact Hd |].
        rewrite map_map. apply map_ext. intros x.
        destruct (String.eqb (PantryItem.id x) id); reflexivity.
      * unfold positiveQuantities in *. apply Forall_map.
        apply (Forall_impl _ (P := fun item => 1 <= PantryItem.quantity item));
          [| exact Hq].
        intros x Hx. destruct (String.eqb (PantryItem.id x) id); simpl; lia.
      * lia.
      * exact Hshape.
  - apply filter_keeps_distinct. exact Hd.
  - apply Forall_filter. exact Hq.
  - apply filter_id_gone.
Qed.

Lemma pantry_edits_witness :
  (distinctBarcodes (handleUpdateQuantity "k3x9" 5 smallPantry) /\
   positiveQuantities (handleUpdateQuantity "k3x9" 5 smallPantry) /\
   (5 < 1 -> handleUpdateQuantity "k3x9" 5 smallPantry = smallPantry) /\
   map (fun item => withQuantity item 0) (handleUpdateQuantity "k3x9" 5 smallPantry)
   = map (fun item => withQuantity item 0) smallPantry) /\
  (distinctBarcodes (handleDelete "k3x9" smallPantry) /\
   positiveQuantities (handleDelete "k3x9" smallPantry) /\
   ~ In "k3x9" (map PantryItem.id (handleDelete "k3x9" smallPantry))).
Proof.
  apply (pantry_edits "k3x9" 5 smallPantry).
  - unfold distinctBarcodes. simpl.
    constructor; [intros [H | []]; discriminate |].
    constructor; [intros [] | constructor].
  - unfold positiveQuantities, smallPantry.
    constructor; [simpl; lia |]. constructor; [simpl; lia | constructor].
Defined.

(** ** The shopping list *)

Lemma find_none_iff (id : string) (l : list PantryItem.t) :
  List.find (fun item => String.eqb (PantryItem.id item) id) l = None
  <-> ~ In id (map PantryItem.id l).
Proof.
  split.
  - intros H Hin. apply in_map_iff in Hin. destruct Hin as (x & Hx & Hin).
    pose proof (find_none _ _ H x Hin) as Hn. simpl in Hn.
    rewrite Hx, String.eqb_refl in Hn. discriminate.
  - intros H. destruct (List.find _ l) as [x |] eqn:Hf; [| reflexivity].
    apply find_some in Hf. destruct Hf as [Hin Hx].
    apply String.eqb_eq in Hx. exfalso. apply H. rewrite <- Hx.
    apply in_map. exact Hin.
Qed.

(** X12: adding a pantry item to the shopping list: an id that no pantry
    item has leaves the stored list untouched; otherwise the list is stored
    with the quantities grown by exactly one in total, an entry with that id
    in it, the entries with other ids as they were, and ids that were
    distinct and quantities that were at least one still so.  A new entry
    is a copy of the first pantry item with that id, with quantity 1
    whatever quantity the pantry holds. *)
Theorem handleAddToList_list (id : string) (pantryItems : list PantryItem.t)
    (savedList : option (list PantryItem.t)) :
  (~ In id (map PantryItem.id pantryItems) ->
   handleAddToList id pantryItems savedList = savedList) /\
  (In id (map PantryItem.id pantryItems) ->
   exists newList,
     handleAddToList id pantryItems savedList = Some newList /\
     totalQuantity newList = totalQuantity (storedList savedList) + 1 /\
     In id (map PantryItem.id newList) /\
     filter (fun item => negb (String.eqb (PantryItem.id item) id)) newList
     = filter (fun item => negb (String.eqb (PantryItem.id item) id))
              (storedList savedList) /\
     (distinctIds (storedList savedList) -> distinctIds newList) /\
     (positiveQuantities (storedList savedList) -> positiveQuantities newList) /\
     (~ In id (map PantryItem.id (storedList savedList)) ->
      exists itemToAdd,
        List.find (fun item => String.eqb (PantryItem.id item) id) pantryItems
        = Some itemToAdd /\
        newList = storedList savedList ++ [withQuantity itemToAdd 1])).
Proof.
  split.
  - intros Hno. unfold handleAddToList.
    rewrite (proj2 (find_none_iff id pantryItems) Hno). reflexivity.
  - intros Hin. unfold handleAddToList. fold (storedList savedList).
    destruct (List.find _ pantryItems) as [itemToAdd |] eqn:Hfind;
      [| apply find_none_iff in Hfind; contradiction].
    pose proof (find_some _ _ Hfind) as [_ Hid]. apply String.eqb_eq in Hid.
    eexists. split; [reflexivity |].
    destruct (findIndex _ (storedList savedList)) as [i |] eqn:Hf.
    + destruct (findIndex_Some _ _ _ Hf) as (l1 & x & l2 & Hl & <- & Hx & Hbefore).
      rewrite Hl, updateAt_app. apply String.eqb_eq in Hx.
      repeat split.
      * rewrite !totalQuantity_app. unfold totalQuantity. simpl. lia.
      * rewrite map_app. apply in_or_app. right. simpl. auto.
      * rewrite !filter_app. simpl. rewrite Hx, String.eqb_refl. reflexivity.
      * unfold distinctIds. rewrite !map_app. simpl. auto.
      * unfold positiveQuantities. intros Hq.
        apply Forall_app in Hq. destruct Hq as [H1 H2]. inversion H2; subst.
        apply Forall_app. split; [exact H1 |].
        constructor; [simpl; lia | assumption].
      * intros Hno. exfalso. apply Hno. rewrite map_app. apply in_or_app.
        right. simpl. auto.
    + pose proof (proj1 (findIndex_None _ _) Hf) as Hnone.
      repeat split.
      * rewrite totalQuantity_app. unfold totalQuantity. simpl. lia.
      * rewrite map_app. apply in_or_app. right. simpl. auto.
      * rewrite filter_app. simpl. rewrite Hid, String.eqb_refl. simpl.
        apply app_nil_r.
      * unfold distinctIds. intros Hd. rewrite map_app. simpl.
        apply NoDup_app; [exact Hd | constructor; [intros [] | constructor] |].
        intros a Ha [<- | []]. apply in_map_iff in Ha.
        destruct Ha as (y & Hy & Hyin). specialize (Hnone y Hyin).
        simpl in Hnone. rewrite Hy, Hid, String.eqb_refl in Hnone. discriminate.
      * unfold positiveQuantities. intros Hq. apply Forall_app.
        split; [exact Hq |]. constructor; [simpl; lia | constructor].
      * intros _. exists itemToAdd. split; reflexivity.
Qed.

(** X13: the quantity buttons of the shopping list: a new quantity of zero
    or less removes every entry with the id, a positive one is written into
    the entries with the id and changes nothing else; either way ids that
    were distinct and quantities that were at least one stay so. *)
Theorem updateQuantity_list (id : string) (newQuantity : Z)
    (shoppingList : list PantryItem.t) :
  (newQuantity <= 0 ->
   updateQuantity id newQuantity shoppingList = removeFromList id shoppingList /\
   ~ In id (map PantryItem.id (updateQuantity id newQuantity shoppingList))) /\
  (0 < newQuantity ->
   map (fun item => withQuantity item 0) (updateQuantity id newQuantity shoppingList)
   = map (fun item => withQuantity item 0) shoppingList /\
   map PantryItem.quantity (updateQuantity id newQuantity shoppingList)
   = map (fun item => if String.eqb (PantryItem.id item) id
                      then newQuantity else PantryItem.quantity item)
         shoppingList) /\
  (distinctIds shoppingList ->
   distinctIds (updateQuantity id newQuantity shoppingList)) /\
  (positiveQuantities shoppingList ->
   positiveQuantities (updateQuantity id newQuantity shoppingList)).
Proof.
  unfold updateQuantity, removeFromList.
  destruct (newQuantity <=? 0) eqn:Hn.
  - apply Z.leb_le in Hn. repeat split.
    + apply filter_id_gone.
    + lia.
    + lia.
    + apply filter_keeps_distinct.
    + apply Forall_filter.
  - apply Z.leb_gt in Hn. repeat split.
    + lia.
    + lia.
    + rewrite map_map. apply map_ext. intros x.
      destruct (String.eqb (PantryItem.id x) id); reflexivity.
    + rewrite map_map. apply map_ext. intros x.
      destruct (String.eqb (PantryItem.id x) id); reflexivity.
    + unfold distinctIds. intros Hd.
      replace (map PantryItem.id
                 (map (fun item => if String.eqb (PantryItem.id item) id
                                   then withQuantity item newQuantity
                                   else item) shoppingList))
        with (map PantryItem.id shoppingList); [exact Hd |].
      rewrite map_map. apply map_ext. intros x.
      destruct (String.eqb (PantryItem.id x) id); reflexivity.
    + unfold positiveQuantities. intros Hq. apply Forall_map.
      apply (Forall_impl _ (P := fun item => 1 <= PantryItem.quantity item));
        [| exact Hq].
      intros x Hx. destruct (String.eqb (PantryItem.id x) id); simpl; lia.
Qed.

(** ** Every routed item is on one route *)

Lemma filter_or_disjoint {A : Type} (f g : A -> bool) (l : list A) :
  (forall x, f x = true -> g x = false) ->
  Permutation (filter (fun x => f x || g x) l) (filter f l ++ filter g l).
Proof.
  intros Hd. induction l as [| x l IH]; simpl; [constructor |].
  destruct (f x) eqn:Hf; simpl.
  - rewrite (Hd x Hf). constructor. exact IH.
  - destruct (g x); [| exact IH].
    apply Permutation_cons_app. exact IH.
Qed.

Lemma partition_by_key {A : Type} (sel : string -> A -> bool) (l : list A) :
  (forall x s s', sel s x = true -> sel s' x = true -> s = s') ->
  forall labels,
    NoDup labels ->
    Permutation (flat_map (fun s => filter (sel s) l) labels)
                (filter (fun x => existsb (fun s => sel s x) labels) l).
Proof.
  intros Huniq labels Hnd. induction Hnd as [| s labels Hs Hnd IH]; simpl.
  - rewrite filter_none; [constructor | reflexivity].
  - rewrite filter_or_disjoint.
    + apply Permutation_app_head. exact IH.
    + intros x Hx. destruct (existsb (fun s0 => sel s0 x) labels) eqn:He;
        [| reflexivity].
      apply existsb_exists in He. destruct He as (s' & Hin & Hs').
      rewrite (Huniq x s s' Hx Hs') in Hs. contradiction.
Qed.

Lemma qualifies_unique (x : PantryItem.t) (s s' : string) :
  qualifies s x = true -> qualifies s' x = true -> s = s'.
Proof.
  intros H H'. apply qualifies_spec in H. apply qualifies_spec in H'.
  destruct H as [H _]. destruct H' as [H' _]. congruence.
Qed.

Lemma firstStore_in_storeOrder (items : list PantryItem.t) (x : PantryItem.t)
    (s : string) :
  In x items -> firstStore x = Some s -> In s (storeOrder items).
Proof.
  intros Hin Hs. unfold storeOrder. apply appearances_In.
  apply in_flat_map. exists x. split; [exact Hin |]. rewrite Hs. simpl. auto.
Qed.

Lemma routed_spec (items : list PantryItem.t) (x : PantryItem.t) :
  In x items ->
  existsb (fun s => qualifies s x) (storeOrder items) = routed x.
Proof.
  intros Hin. unfold routed.
  destruct (existsb (fun s => qualifies s x) (storeOrder items)) eqn:He.
  - apply existsb_exists in He. destruct He as (s & _ & Hq).
    unfold qualifies, firstStore in Hq.
    destruct (PantryItem.prices x) as [| first rest]; simpl in *; [discriminate |].
    apply andb_true_iff in Hq. destruct Hq as [_ ->]. reflexivity.
  - destruct (PantryItem.prices x) as [| first rest] eqn:Hp; [reflexivity |].
    simpl. destruct (0 <? PantryItem.quantity x) eqn:Hq; [| reflexivity].
    assert (Hfalse : existsb (fun s => qualifies s x) (storeOrder items) = true);
      [| congruence].
    apply existsb_exists. exists (PriceInfo.store first). split.
    + apply (firstStore_in_storeOrder items x); [exact Hin |].
      unfold firstStore. rewrite Hp. reflexivity.
    + unfold qualifies, firstStore. rewrite Hp, String.eqb_refl, Hq. reflexivity.
Qed.

Lemma flat_map_filter_nonEmpty {A B : Type} (f : A -> list B) (l : list A) :
  flat_map f (filter (fun a => nonEmpty (f a)) l) = flat_map f l.
Proof.
  induction l as [| a l IH]; simpl; [reflexivity |].
  destruct (f a) eqn:Hf; simpl; [exact IH |].
  rewrite Hf, IH. reflexivity.
Qed.

Lemma flat_map_perm {A B : Type} (f g : A -> list B) (l : list A) :
  (forall a, In a l -> Permutation (f a) (g a)) ->
  Permutation (flat_map f l) (flat_map g l).
Proof.
  induction l as [| a l IH]; simpl; intros H; [constructor |].
  apply Permutation_app; [apply H; auto | apply IH; auto].
Qed.

Lemma totalQuantity_perm (l l' : list PantryItem.t) :
  Permutation l l' -> totalQuantity l = totalQuantity l'.
Proof.
  unfold totalQuantity. induction 1; simpl; lia.
Qed.

Lemma itemsOnRoutes_perm (l l' : list StoreRoute.t) :
  Permutation l l' -> itemsOnRoutes l = itemsOnRoutes l'.
Proof.
  unfold itemsOnRoutes. induction 1; simpl; lia.
Qed.

Lemma routes_of_stores (items : list PantryItem.t) (unsorted : list StoreRoute.t)
    (stores : list string) :
  Forall2 (fun r s =>
             StoreRoute.store r = s /\
             StoreRoute.items r = routeItems items s /\
             optimizeRoute (routeItems items s) = Ok (StoreRoute.optimizedPath r) /\
             StoreRoute.totalItems r = totalQuantity (routeItems items s))
          unsorted stores ->
  map StoreRoute.store unsorted = stores /\
  flat_map StoreRoute.items unsorted = flat_map (routeItems items) stores /\
  Permutation (flat_map StoreRoute.optimizedPath unsorted)
              (flat_map (routeItems items) stores) /\
  itemsOnRoutes unsorted = totalQuantity (flat_map (routeItems items) stores).
Proof.
  induction 1 as [| r s unsorted stores (Hs & Hi & Ho & Ht) _ IH]; simpl.
  - repeat split; constructor.
  - destruct IH as (IH1 & IH2 & IH3 & IH4).
    repeat split.
    + congruence.
    + congruence.
    + apply Permutation_app; [| exact IH3].
      apply Permutation_sym. apply (optimizeRoute_spec _ _ Ho).
    + rewrite totalQuantity_app. unfold itemsOnRoutes in *. simpl. lia.
Qed.

(** X14: the routes divide the routed items among them: the items of all
    routes together, and the optimised paths of all routes together, are
    the items of the list that have a price and a positive quantity, each
    as often as the list has it; no two routes are for the same store; and
    the per-route totals add up to the total quantity of those items.  In a
    list whose quantities are all at least one, these are the items with a
    price. *)
Theorem routes_divide_the_list (items : list PantryItem.t)
    (routes : list StoreRoute.t) :
  organizeByStore items = Ok routes ->
  Permutation (flat_map StoreRoute.items routes) (filter routed items) /\
  Permutation (flat_map StoreRoute.optimizedPath routes) (filter routed items) /\
  NoDup (map StoreRoute.store routes) /\
  itemsOnRoutes routes = totalQuantity (filter routed items) /\
  (positiveQuantities items ->
   filter routed items
   = filter (fun item => nonEmpty (PantryItem.prices item)) items).
Proof.
  intros H.
  destruct (organizeByStore_unsorted items routes H) as (unsorted & -> & Hf2).
  destruct (routes_of_stores items unsorted _ Hf2) as (Hst & Hit & Hop & Htot).
  pose proof (sortWith_perm (Z.ltb 0) byTotalItems unsorted) as Hperm.
  assert (Hpart : Permutation
                    (flat_map (routeItems items)
                       (filter (fun s => nonEmpty (routeItems items s))
                               (storeOrder items)))
                    (filter routed items)).
  { rewrite (flat_map_filter_nonEmpty (routeItems items)).
    unfold routeItems.
    rewrite (partition_by_key qualifies items qualifies_unique
               (storeOrder items) (appearances_NoDup _)).
    rewrite (filter_ext_in _ routed); [reflexivity |].
    intros x Hx. apply routed_spec. exact Hx. }
  repeat split.
  - rewrite <- Hpart, <- Hit. apply Permutation_sym.
    apply Permutation_flat_map. exact Hperm.
  - rewrite <- Hpart, <- Hop. apply Permutation_sym.
    apply Permutation_flat_map. exact Hperm.
  - apply (Permutation_NoDup (Permutation_map StoreRoute.store Hperm)).
    rewrite Hst. apply NoDup_filter. apply appearances_NoDup.
  - rewrite <- (itemsOnRoutes_perm _ _ Hperm), Htot.
    apply totalQuantity_perm. exact Hpart.
  - intros Hq. apply filter_ext_in. intros x Hx.
    unfold positiveQuantities in Hq. rewrite Forall_forall in Hq.
    specialize (Hq x Hx). unfold routed.
    replace (0 <? PantryItem.quantity x) with true; [apply andb_true_r |].
    symmetry. apply Z.ltb_lt. lia.
Qed.

Lemma routes_divide_the_list_witness :
  Permutation
    (flat_map StoreRoute.items
       [StoreRoute.mk "X"
          [listItem "a" "X" (Some "12") 1; listItem "c" "X" (Some "7") 2]
          [listItem "c" "X" (Some "7") 2; listItem "a" "X" (Some "12") 1] 3])
    (filter routed scenarioItems) /\
  itemsOnRoutes
    [StoreRoute.mk "X"
       [listItem "a" "X" (Some "12") 1; listItem "c" "X" (Some "7") 2]
       [listItem "c" "X" (Some "7") 2; listItem "a" "X" (Some "12") 1] 3]
  = totalQuantity (filter routed scenarioItems).
Proof.
  destruct (routes_divide_the_list scenarioItems
              [StoreRoute.mk "X"
                 [listItem "a" "X" (Some "12") 1; listItem "c" "X" (Some "7") 2]
                 [listItem "c" "X" (Some "7") 2; listItem "a" "X" (Some "12") 1] 3])
    as (H1 & _ & _ & H4 & _).
  - vm_compute. reflexivity.
  - split; [exact H1 | exact H4].
Defined.

(** ** When the route screen fails *)

Lemma lookup_Some_key {V : Type} (k : string) (v : V) (m : list (string * V)) :
  lookup k m = Some v -> In k (map fst m).
Proof.
  intros H. apply memString_In.
  destruct (memString k (map fst m)) eqn:Hm; [reflexivity |].
  apply lookup_None in Hm. congruence.
Qed.

Lemma groupByAisle_throws (items : list PantryItem.t) :
  forall groups,
    (forall k, In k (map fst groups) -> memString k objectPrototypeKeys = false) ->
    existsb (fun item => negb (safeLabel item)) items = true ->
    groupByAisle groups items = Throw notAFunction.
Proof.
  induction items as [| item rest IH]; intros groups Hkeys Hex;
    [discriminate Hex |].
  cbn [existsb] in Hex. cbn [groupByAisle].
  unfold addToGroup. fold (labelOf item).
  destruct (lookup (labelOf item) groups) as [g |] eqn:Hl.
  - pose proof (Hkeys _ (lookup_Some_key _ _ _ Hl)) as Hsafe.
    assert (Hs : safeLabel item = true).
    { unfold safeLabel. rewrite Hsafe. reflexivity. }
    rewrite Hs in Hex. cbn [negb orb] in Hex.
    apply IH; [| exact Hex].
    intros k Hk. rewrite keys_pushTo in Hk. apply Hkeys. exact Hk.
  - destruct (memString (labelOf item) objectPrototypeKeys) eqn:Hm; [reflexivity |].
    assert (Hs : safeLabel item = true).
    { unfold safeLabel. rewrite Hm. reflexivity. }
    rewrite Hs in Hex. cbn [negb orb] in Hex.
    apply IH; [| exact Hex].
    intros k Hk. rewrite map_app in Hk. apply in_app_or in Hk.
    destruct Hk as [Hk | [<- | []]]; [apply Hkeys; exact Hk | exact Hm].
Qed.

Lemma optimizeRoute_throws (items : list PantryItem.t) :
  existsb (fun item => negb (safeLabel item)) items = true ->
  optimizeRoute items = Throw notAFunction.
Proof.
  intros H. unfold optimizeRoute.
  rewrite (groupByAisle_throws items [] (fun k (Hk : In k []) => match Hk with end) H).
  reflexivity.
Qed.

Lemma all_safe (items : list PantryItem.t) :
  existsb (fun item => negb (safeLabel item)) items = false ->
  Forall (fun item => safeLabel item = true) items.
Proof.
  induction items as [| x l IH]; simpl; intros H; constructor.
  - destruct (safeLabel x); [reflexivity | discriminate].
  - apply IH. destruct (existsb _ l); [| reflexivity].
    rewrite orb_true_r in H. discriminate.
Qed.

Lemma buildRoutes_throws (entries : list (string * list PantryItem.t)) :
  existsb (fun e => existsb (fun item => negb (safeLabel item)) (snd e)) entries = true ->
  buildRoutes entries = Throw notAFunction.
Proof.
  induction entries as [| [store items] rest IH]; simpl; intros H; [discriminate |].
  destruct items as [| item items']; [simpl in H; auto |].
  destruct (existsb (fun item => negb (safeLabel item)) (item :: items')) eqn:He.
  - rewrite (optimizeRoute_throws _ He). reflexivity.
  - simpl in H. destruct (optimizeRoute_total _ (all_safe _ He)) as [path ->].
    rewrite (IH H). reflexivity.
Qed.

Lemma organizeByStore_throws (items : list PantryItem.t) :
  existsb (fun item => routed item && negb (safeLabel item)) items = true ->
  organizeByStore items = Throw notAFunction.
Proof.
  intros H. unfold organizeByStore.
  rewrite buildRoutes_throws; [reflexivity |].
  rewrite partitionByStore_entries.
  apply existsb_exists in H. destruct H as (x & Hin & Hx).
  apply andb_true_iff in Hx. destruct Hx as [Hr Hu].
  unfold routed in Hr. apply andb_true_iff in Hr. destruct Hr as [Hp Hq].
  destruct (PantryItem.prices x) as [| first others] eqn:Hprices;
    [discriminate |].
  assert (Hfirst : firstStore x = Some (PriceInfo.store first)).
  { unfold firstStore. rewrite Hprices. reflexivity. }
  apply existsb_exists.
  exists (PriceInfo.store first, routeItems items (PriceInfo.store first)).
  split.
  - apply in_map_iff. exists (PriceInfo.store first). split; [reflexivity |].
    apply (firstStore_in_storeOrder items x); assumption.
  - simpl. apply existsb_exists. exists x. split; [| exact Hu].
    unfold routeItems. apply filter_In. split; [exact Hin |].
    apply qualifies_spec. split; [exact Hfirst |].
    apply Z.ltb_lt. exact Hq.
Qed.

Lemma qualifies_routed (s : string) (x : PantryItem.t) :
  qualifies s x = true -> routed x = true.
Proof.
  intros Hq. apply qualifies_spec in Hq. destruct Hq as [Hf Hpos].
  unfold routed, firstStore in *.
  destruct (PantryItem.prices x); [discriminate |]. simpl.
  apply Z.ltb_lt. exact Hpos.
Qed.

Lemma organizeByStore_returns (items : list PantryItem.t) :
  existsb (fun item => routed item && negb (safeLabel item)) items = false ->
  exists routes, organizeByStore items = Ok routes.
Proof.
  intros H. unfold organizeByStore.
  destruct (buildRoutes_total (partitionByStore items)) as [routes ->];
    [| eexists; reflexivity].
  rewrite partitionByStore_entries.
  apply Forall_forall. intros e He.
  apply in_map_iff in He. destruct He as (s & <- & _). simpl.
  apply Forall_forall. intros x Hx.
  unfold routeItems in Hx. apply filter_In in Hx. destruct Hx as [Hin Hq].
  destruct (safeLabel x) eqn:Hs; [reflexivity |].
  assert (Hfalse : existsb (fun item => routed item && negb (safeLabel item))
                           items = true); [| congruence].
  apply existsb_exists. exists x. split; [exact Hin |].
  rewrite Hs, (qualifies_routed s x Hq). reflexivity.
Qed.

(** X15: [organizeByStore] fails exactly when an item with a price and a
    positive quantity has an aisle text that is the name of a property of
    [Object.prototype]: it then throws a [TypeError], and the route screen,
    which catches it, keeps the routes it had; in every other case the
    routes are computed and shown. *)
Theorem organizeByStore_failure (items : list PantryItem.t) :
  (existsb (fun item => routed item && negb (safeLabel item)) items = true ->
   organizeByStore items = Throw notAFunction /\
   forall storeRoutes, loadPantryItems (Some items) storeRoutes = storeRoutes) /\
  (existsb (fun item => routed item && negb (safeLabel item)) items = false ->
   exists routes,
     organizeByStore items = Ok routes /\
     forall storeRoutes, loadPantryItems (Some items) storeRoutes = routes).
Proof.
  split; intros H.
  - pose proof (organizeByStore_throws items H) as Hthrow.
    split; [exact Hthrow |].
    intros storeRoutes. unfold loadPantryItems. rewrite Hthrow. reflexivity.
  - destruct (organizeByStore_returns items H) as [routes Hok].
    exists routes. split; [exact Hok |].
    intros storeRoutes. unfold loadPantryItems. rewrite Hok. reflexivity.
Qed.

(** ** Aisle texts composed by the scanner *)

Lemma aisleInfoOf_cases (p : ProductInfo.t) :
  (StoreInventory.inStock (ProductInfo.inventory p) = true /\
   exists c,
     aisleInfoOf p
     = (chainLabel c ++ ": " ++ StoreInventory.aisle (ProductInfo.inventory p))%string)
  \/ (StoreInventory.inStock (ProductInfo.inventory p) = false /\
      ((exists c, aisleInfoOf p
                  = ("Out of stock here. Available at " ++ chainLabel c)%string)
       \/ aisleInfoOf p = "Out of stock at both Walmart and Target")).
Proof.
  unfold aisleInfoOf.
  destruct (StoreInventory.inStock (ProductInfo.inventory p)).
  - left. split; [reflexivity |]. eexists. reflexivity.
  - right. split; [reflexivity |].
    destruct (ProductInfo.alternativeStores p) as [[| first rest] |].
    + right. reflexivity.
    + left. eexists. reflexivity.
    + right. reflexivity.
Qed.

(** X16: the aisle text that the scanner composes is never empty and never
    the name of a property of [Object.prototype]; it is the aisle text of
    the pantry item made from the scan, so that the fallback text "Unknown"
    is never used for it; and its aisle number is the one of the inventory's
    aisle text when the product is in stock, and 998 when it is not. *)
Theorem scanner_aisle_text (p : ProductInfo.t) :
  aisleInfoOf p <> EmptyString /\
  memString (aisleInfoOf p) objectPrototypeKeys = false /\
  (forall id now type data now',
     PantryItem.aisle (newItem id now (scanData type data p now'))
     = Some (aisleInfoOf p)) /\
  getAisleNumber (Some (aisleInfoOf p))
  = if StoreInventory.inStock (ProductInfo.inventory p)
    then match matchDigits (StoreInventory.aisle (ProductInfo.inventory p)) with
         | Some m => parseInt m
         | None => ofInteger 998
         end
    else ofInteger 998.
Proof.
  destruct (aisleInfoOf_cases p)
    as [[Hin [c Hl]] | [Hout [[c Hl] | Hl]]]; rewrite ?Hin, ?Hout.
  - assert (Hne : aisleInfoOf p <> EmptyString).
    { rewrite Hl. destruct c; discriminate. }
    repeat split.
    + exact Hne.
    + rewrite Hl. destruct c; reflexivity.
    + intros. unfold newItem, scanData. simpl. f_equal.
      unfold orString. destruct (aisleInfoOf p); [contradiction | reflexivity].
    + rewrite Hl. destruct c; reflexivity.
  - assert (Hne : aisleInfoOf p <> EmptyString).
    { rewrite Hl. destruct c; discriminate. }
    repeat split.
    + exact Hne.
    + rewrite Hl. destruct c; reflexivity.
    + intros. unfold newItem, scanData. simpl. f_equal.
      unfold orString. destruct (aisleInfoOf p); [contradiction | reflexivity].
    + rewrite Hl. destruct c; reflexivity.
  - repeat split.
    + rewrite Hl. discriminate.
    + rewrite Hl. reflexivity.
    + intros. unfold newItem, scanData. simpl. rewrite Hl. reflexivity.
    + rewrite Hl. reflexivity.
Qed.

Lemma scannedLabel_safe (item : PantryItem.t) :
  scannedLabel item -> safeLabel item = true.
Proof.
  intros [p Hp]. unfold safeLabel, labelOf. rewrite Hp.
  destruct (aisleInfoOf_cases p) as [[_ [c Hl]] | [_ [[c Hl] | Hl]]];
    rewrite Hl; try destruct c; reflexivity.
Qed.

(** X17: the route screen does not fail on a shopping list whose aisle
    texts were all composed by the scanner: the routes are computed and
    shown. *)
Theorem routes_of_scanned_items (items : list PantryItem.t) :
  Forall scannedLabel items ->
  exists routes,
    organizeByStore items = Ok routes /\
    forall storeRoutes, loadPantryItems (Some items) storeRoutes = routes.
Proof.
  intros H.
  destruct (organizeByStore_total items) as [routes Hok].
  - apply Forall_forall. intros x Hx. apply scannedLabel_safe.
    rewrite Forall_forall in H. apply H. exact Hx.
  - exists routes. split; [exact Hok |].
    intros storeRoutes. unfold loadPantryItems. rewrite Hok. reflexivity.
Qed.

Lemma routes_of_scanned_items_witness :
  exists routes,
    organizeByStore [milkItem; pantryEntry "p07q" "0002" 1] = Ok routes /\
    forall storeRoutes,
      loadPantryItems (Some [milkItem; pantryEntry "p07q" "0002" 1]) storeRoutes
      = routes.
Proof.
  apply (routes_of_scanned_items [milkItem; pantryEntry "p07q" "0002" 1]).
  constructor; [exists milk; reflexivity |].
  constructor; [| constructor].
  exists (ProductInfo.mk "" "" "" (unknownInventory walmart) None None).
  reflexivity.
Defined.

(** ** The store that is asked first *)

Lemma filter_head_split {A : Type} (p : A -> bool) (l : list A) :
  forall x r,
    filter p l = x :: r ->
    exists l1 l2, l = l1 ++ x :: l2 /\ forall y, In y l1 -> p y = false.
Proof.
  induction l as [| a l IH]; simpl; intros x r H; [discriminate |].
  destruct (p a) eqn:Hp.
  - injection H as -> _. exists [], l. split; [reflexivity | intros y []].
  - destruct (IH x r H) as (l1 & l2 & -> & Hl1).
    exists (a :: l1), l2. split; [reflexivity |].
    intros y [<- | Hy]; auto.
Qed.

(** X18: the store that is asked first.  When the distances of the
    candidates are Numbers, the sort loses and adds no store, and the store
    it puts first has the least effective distance (the distance, or
    infinity when the distance is missing, NaN or zero) of all candidates;
    among the candidates with that distance it is the first in the order
    Walmart's list, then Target's list. *)
Theorem nearest_candidate (walmartStores targetStores : list StoreLocation.t)
    (nearest : StoreLocation.t) (others : list StoreLocation.t) :
  Forall numericDistance (walmartStores ++ targetStores) ->
  sortStores walmartStores targetStores = nearest :: others ->
  Permutation (walmartStores ++ targetStores) (nearest :: others) /\
  (forall s, In s (walmartStores ++ targetStores) ->
             effectiveDistance nearest <= effectiveDistance s) /\
  exists before after,
    walmartStores ++ targetStores = before ++ nearest :: after /\
    forall s, In s before -> effectiveDistance nearest < effectiveDistance s.
Proof.
  intros Hnum Hsort.
  destruct (sortStores_by_effective_distance walmartStores targetStores Hnum)
    as (Hperm & Hsorted & Hstable).
  rewrite Hsort in Hperm, Hsorted.
  assert (Hmin : forall s, In s (walmartStores ++ targetStores) ->
                           effectiveDistance nearest <= effectiveDistance s).
  { intros s Hs. apply (Permutation_in _ Hperm) in Hs.
    apply StronglySorted_inv in Hsorted. destruct Hsorted as [_ Hall].
    destruct Hs as [<- | Hs]; [lia |].
    rewrite Forall_forall in Hall. apply Hall. exact Hs. }
  repeat split; [exact Hperm | exact Hmin |].
  specialize (Hstable (effectiveDistance nearest)).
  rewrite Hsort in Hstable. simpl in Hstable.
  rewrite Z.eqb_refl in Hstable. symmetry in Hstable.
  destruct (filter_head_split _ _ _ _ Hstable) as (before & after & Heq & Hbefore).
  exists before, after. split; [exact Heq |].
  intros s Hs.
  assert (Hle : effectiveDistance nearest <= effectiveDistance s).
  { apply Hmin. rewrite Heq. apply in_or_app. left. exact Hs. }
  specialize (Hbefore s Hs). apply Z.eqb_neq in Hbefore. lia.
Qed.

Lemma nearest_candidate_witness :
  Permutation ([walmart100] ++ [target100]) [walmart100; target100] /\
  (forall s, In s ([walmart100] ++ [target100]) ->
             effectiveDistance walmart100 <= effectiveDistance s) /\
  exists before after,
    [walmart100] ++ [target100] = before ++ walmart100 :: after /\
    forall s, In s before -> effectiveDistance walmart100 < effectiveDistance s.
Proof.
  apply (nearest_candidate [walmart100] [target100] walmart100 [target100]).
  - constructor; [vm_compute; reflexivity |].
    constructor; [vm_compute; reflexivity | constructor].
  - vm_compute. reflexivity.
Defined.

(** ** Optimising an optimised path *)

Lemma optimizeRoute_exact (items path : list PantryItem.t) :
  optimizeRoute items = Ok path ->
  path = flat_map (fun l => filter (labelIs l) items)
                  (aisleOrder (appearances (map labelOf items))).
Proof.
  unfold optimizeRoute.
  destruct (groupByAisle [] items) as [groups | e] eqn:E; [| discriminate].
  intros H. injection H as <-.
  apply groupByAisle_place in E. rewrite fold_place_entries in E.
  rewrite keysOf_labels in E.
  assert (Hkeys : objectKeys groups = keyOrder (appearances (map labelOf items))).
  { unfold objectKeys, keyOrder. subst groups. rewrite map_map. simpl.
    rewrite map_id. reflexivity. }
  rewrite Hkeys. fold (aisleOrder (appearances (map labelOf items))).
  apply flat_map_ext_in. intros l Hl.
  unfold groupOf. subst groups. rewrite lookup_map_keys.
  - apply filter_ext. intros x. unfold hasKey, labelIs.
    rewrite andb_true_r. reflexivity.
  - unfold aisleOrder in Hl.
    apply (Permutation_in _ (Permutation_sym (sortWith_perm _ _ _))) in Hl.
    unfold keyOrder in Hl. apply in_app_or in Hl. destruct Hl as [Hl | Hl].
    + apply (Permutation_in _ (Permutation_sym (sortWith_perm _ _ _))) in Hl.
      apply filter_In in Hl. tauto.
    + apply filter_In in Hl. tauto.
Qed.

Lemma spanDigits_split (s : string) :
  s = (fst (spanDigits s) ++ snd (spanDigits s))%string.
Proof.
  induction s as [| c r IH]; simpl; [reflexivity |].
  destruct (isDigit c); [| reflexivity].
  destruct (spanDigits r) as [d t]. simpl in *. rewrite <- IH. reflexivity.
Qed.

Lemma isArrayIndex_number (k : string) :
  isArrayIndex k = true -> getAisleNumber (Some k) = parseInt k.
Proof.
  unfold isArrayIndex. destruct k as [| c r]; [discriminate |].
  pose proof (spanDigits_split (String c r)) as Hsplit.
  destruct (spanDigits (String c r)) as [d t] eqn:Hspan.
  intros H. apply andb_true_iff in H. destruct H as [H _].
  apply andb_true_iff in H. destruct H as [Ht _].
  destruct t as [| c' t']; [| discriminate]. simpl in Hsplit.
  unfold getAisleNumber. cbn [truthy negb].
  cbn [matchDigits].
  destruct (isDigit c) eqn:Hc.
  - rewrite Hspan. simpl fst.
    assert (Hd : d = String c r).
    { rewrite Hsplit. clear. induction d; simpl; [reflexivity | f_equal; assumption]. }
    rewrite Hd. reflexivity.
  - simpl in Hspan. rewrite Hc in Hspan. discriminate.
Qed.

Lemma spanDigits_value (s : string) :
  forall acc, 0 <= acc -> 0 <= digitsValue acc (fst (spanDigits s)).
Proof.
  induction s as [| c r IH]; intros acc Hacc; cbn [spanDigits]; [exact Hacc |].
  destruct (isDigit c) eqn:Hc; [| exact Hacc].
  specialize (IH (10 * acc + digitValue c)).
  destruct (spanDigits r) as [d t]. cbn [fst digitsValue] in *. apply IH.
  unfold isDigit in Hc. apply andb_true_iff in Hc. destruct Hc as [Hlo _].
  apply Nat.leb_le in Hlo. unfold digitValue. lia.
Qed.

(** The aisle number of an array index is the integer it spells. *)
Lemma isArrayIndex_value (k : string) :
  isArrayIndex k = true ->
  scaledValue (getAisleNumber (Some k)) = indexValue k * 2 ^ 1074.
Proof.
  intros H. rewrite (isArrayIndex_number k H). unfold parseInt, indexValue.
  apply ofInteger_exact.
  unfold isArrayIndex in H. destruct k as [| c r]; [discriminate |].
  pose proof (spanDigits_split (String c r)) as Hsplit.
  pose proof (spanDigits_value (String c r) 0 (Z.le_refl 0)) as Hpos.
  destruct (spanDigits (String c r)) as [d t].
  apply andb_true_iff in H. destruct H as [H Hlt].
  apply andb_true_iff in H. destruct H as [Ht _].
  destruct t as [| c' t']; [| discriminate]. cbn [fst snd] in *.
  assert (Hd : d = String c r).
  { rewrite Hsplit. clear. induction d; simpl; [reflexivity | f_equal; assumption]. }
  rewrite Hd in Hpos, Hlt. apply Z.ltb_lt in Hlt.
  split; [exact Hpos |].
  apply Z.lt_trans with (1 := Hlt). reflexivity.
Qed.

Lemma byIndexValue_key (a b : string) :
  (0 <? indexValue a - indexValue b)
  = (indexValue b * 2 ^ 1074 <? indexValue a * 2 ^ 1074).
Proof. apply sign_scaled. apply Z.pow_pos_nonneg; lia. Qed.

Lemma sorted_stable_unique {A : Type} (key : A -> Z) (l1 : list A) :
  forall l2,
    StronglySorted (fun x y => key x <= key y) l1 ->
    StronglySorted (fun x y => key x <= key y) l2 ->
    (forall k, filter (fun y => key y =? k) l1 = filter (fun y => key y =? k) l2) ->
    l1 = l2.
Proof.
  induction l1 as [| x r1 IH]; intros l2 H1 H2 Hf.
  - destruct l2 as [| y r2]; [reflexivity |].
    specialize (Hf (key y)). simpl in Hf. rewrite Z.eqb_refl in Hf. discriminate.
  - destruct l2 as [| y r2].
    + specialize (Hf (key x)). simpl in Hf. rewrite Z.eqb_refl in Hf. discriminate.
    + apply StronglySorted_inv in H1. destruct H1 as [H1 Hx].
      apply StronglySorted_inv in H2. destruct H2 as [H2 Hy].
      rewrite Forall_forall in Hx, Hy.
      assert (Hxy : key y <= key x).
      { pose proof (Hf (key x)) as Hk. simpl in Hk. rewrite Z.eqb_refl in Hk.
        assert (Hin : In x (filter (fun y0 => key y0 =? key x) (y :: r2))).
        { simpl. rewrite <- Hk. left. reflexivity. }
        apply filter_In in Hin. destruct Hin as [[-> | Hin] _]; [lia |].
        apply Hy. exact Hin. }
      assert (Hyx : key x <= key y).
      { pose proof (Hf (key y)) as Hk. simpl in Hk. rewrite Z.eqb_refl in Hk.
        assert (Hin : In y (filter (fun y0 => key y0 =? key y) (x :: r1))).
        { simpl. rewrite Hk. left. reflexivity. }
        apply filter_In in Hin. destruct Hin as [[-> | Hin] _]; [lia |].
        apply Hx. exact Hin. }
      assert (Heq : key x = key y) by lia.
      pose proof (Hf (key x)) as Hk. simpl in Hk.
      rewrite Z.eqb_refl, <- Heq, Z.eqb_refl in Hk.
      injection Hk as -> Hk.
      f_equal. apply IH; [exact H1 | exact H2 |].
      intros k. specialize (Hf k). simpl in Hf.
      destruct (key y =? k); [injection Hf as Hf |]; exact Hf.
Qed.

Lemma appearances_blocks (block : string -> list string) (labels : list string) :
  NoDup labels ->
  (forall l, In l labels -> block l <> [] /\ forall y, In y (block l) -> y = l) ->
  appearances (flat_map block labels) = labels.
Proof.
  intros Hnd. induction Hnd as [| l labels Hl Hnd IH]; intros Hb; [reflexivity |].
  simpl.
  destruct (Hb l (or_introl eq_refl)) as [Hne Hall].
  assert (IH' : appearances (flat_map block labels) = labels).
  { apply IH. intros l' Hl'. apply Hb. right. exact Hl'. }
  clear IH Hb.
  induction (block l) as [| y b IHb]; [contradiction |].
  assert (Hy : y = l) by (apply Hall; left; reflexivity). subst y.
  simpl. f_equal.
  destruct b as [| y' b'].
  - simpl. rewrite IH'. apply filter_all.
    intros z Hz. apply negb_true_iff. apply String.eqb_neq. congruence.
  - rewrite IHb; [| discriminate | intros z Hz; apply Hall; right; exact Hz].
    simpl. rewrite String.eqb_refl. simpl.
    apply filter_all.
    intros z Hz. apply negb_true_iff. apply String.eqb_neq. congruence.
Qed.

Lemma filter_number_of_indices (k : Z) (keys : list string) :
  (forall x, In x keys -> isArrayIndex x = true) ->
  filter (fun y => scaledValue (getAisleNumber (Some y)) =? k)
         (sortWith (Z.ltb 0) (fun a b => indexValue a - indexValue b) keys)
  = filter (fun y => scaledValue (getAisleNumber (Some y)) =? k) keys.
Proof.
  intros Hidx.
  rewrite (filter_ext_in (fun y => scaledValue (getAisleNumber (Some y)) =? k)
                         (fun y => indexValue y * 2 ^ 1074 =? k)).
  - rewrite (sortWith_stable (Z.ltb 0) (fun a b => indexValue a - indexValue b)
               (fun y => indexValue y * 2 ^ 1074) byIndexValue_key).
    apply filter_ext_in. intros x Hx.
    rewrite (isArrayIndex_value x (Hidx x Hx)). reflexivity.
  - intros x Hx.
    apply (Permutation_in _ (Permutation_sym (sortWith_perm _ _ _))) in Hx.
    rewrite (isArrayIndex_value x (Hidx x Hx)). reflexivity.
Qed.

Lemma filter_number_keyOrder (k : Z) (ks : list string) :
  filter (fun y => scaledValue (getAisleNumber (Some y)) =? k) (keyOrder ks)
  = filter isArrayIndex (filter (fun y => scaledValue (getAisleNumber (Some y)) =? k) ks)
    ++ filter (fun x => negb (isArrayIndex x))
              (filter (fun y => scaledValue (getAisleNumber (Some y)) =? k) ks).
Proof.
  unfold keyOrder. rewrite filter_app. f_equal.
  - rewrite filter_number_of_indices.
    + rewrite !filter_filter. apply filter_ext. intros x. apply andb_comm.
    + intros x Hx. apply filter_In in Hx. tauto.
  - rewrite !filter_filter. apply filter_ext. intros x. apply andb_comm.
Qed.

Lemma filter_number_aisleOrder (k : Z) (ks : list string) :
  filter (fun y => scaledValue (getAisleNumber (Some y)) =? k) (aisleOrder ks)
  = filter (fun y => scaledValue (getAisleNumber (Some y)) =? k) (keyOrder ks).
Proof.
  unfold aisleOrder.
  apply (sortWith_stable isPositive byAisleNumber
           (fun a => scaledValue (getAisleNumber (Some a))) byAisleNumber_key).
Qed.

Lemma aisleOrder_perm (ks : list string) : Permutation (aisleOrder ks) ks.
Proof.
  unfold aisleOrder. rewrite <- sortWith_perm. unfold keyOrder.
  rewrite <- (filter_partition_perm isArrayIndex ks) at 3.
  apply Permutation_app_tail. symmetry. apply sortWith_perm.
Qed.

Lemma aisleOrder_fixed (ks : list string) :
  aisleOrder (aisleOrder ks) = aisleOrder ks.
Proof.
  apply (sorted_stable_unique (fun a => scaledValue (getAisleNumber (Some a)))).
  - apply (sortWith_sorted isPositive byAisleNumber
             (fun a => scaledValue (getAisleNumber (Some a))) byAisleNumber_key).
  - apply (sortWith_sorted isPositive byAisleNumber
             (fun a => scaledValue (getAisleNumber (Some a))) byAisleNumber_key).
  - intros k.
    rewrite (filter_number_aisleOrder k (aisleOrder ks)).
    rewrite filter_number_keyOrder.
    rewrite (filter_number_aisleOrder k ks).
    rewrite filter_number_keyOrder.
    set (I := filter isArrayIndex
                (filter (fun y => scaledValue (getAisleNumber (Some y)) =? k) ks)).
    set (N := filter (fun x => negb (isArrayIndex x))
                (filter (fun y => scaledValue (getAisleNumber (Some y)) =? k) ks)).
    rewrite !filter_app.
    assert (HI : forall x, In x I -> isArrayIndex x = true).
    { intros x Hx. apply filter_In in Hx. tauto. }
    assert (HN : forall x, In x N -> isArrayIndex x = false).
    { intros x Hx. apply filter_In in Hx. destruct Hx as [_ Hx].
      apply negb_true_iff in Hx. exact Hx. }
    rewrite (filter_all isArrayIndex I HI).
    rewrite (filter_none isArrayIndex N HN).
    rewrite (filter_none (fun x => negb (isArrayIndex x)) I).
    + rewrite (filter_all (fun x => negb (isArrayIndex x)) N).
      * rewrite app_nil_r. reflexivity.
      * intros x Hx. rewrite (HN x Hx). reflexivity.
    + intros x Hx. rewrite (HI x Hx). reflexivity.
Qed.

Lemma map_flat_map {A B C : Type} (f : B -> C) (g : A -> list B) (l : list A) :
  map f (flat_map g l) = flat_map (fun a => map f (g a)) l.
Proof.
  induction l as [| a l IH]; simpl; [reflexivity |].
  rewrite map_app, IH. reflexivity.
Qed.

(** X19: optimising a path that is already optimised changes nothing: the
    path that [optimizeRoute] returns for a list is also what it returns
    for that path. *)
Theorem optimizeRoute_idempotent (items path : list PantryItem.t) :
  optimizeRoute items = Ok path -> optimizeRoute path = Ok path.
Proof.
  intros H.
  pose proof (optimizeRoute_exact items path H) as Hpath.
  set (L := aisleOrder (appearances (map labelOf items))) in *.
  assert (HL : Permutation L (appearances (map labelOf items))).
  { apply aisleOrder_perm. }
  assert (Hnd : NoDup L).
  { apply (Permutation_NoDup (Permutation_sym HL)). apply appearances_NoDup. }
  assert (Hin : forall x, In x items -> In (labelOf x) L).
  { intros x Hx. apply (Permutation_in _ (Permutation_sym HL)).
    apply (proj2 (appearances_In _ _)). apply in_map. exact Hx. }
  assert (Hsafe : Forall (fun item => safeLabel item = true) items).
  { apply all_safe.
    destruct (existsb (fun item => negb (safeLabel item)) items) eqn:He;
      [| reflexivity].
    rewrite (optimizeRoute_throws items He) in H. discriminate. }
  destruct (optimizeRoute_spec items path H) as [Hperm _].
  assert (Hsafe' : Forall (fun item => safeLabel item = true) path).
  { apply Forall_forall. intros x Hx. rewrite Forall_forall in Hsafe.
    apply Hsafe. apply (Permutation_in _ (Permutation_sym Hperm)). exact Hx. }
  destruct (optimizeRoute_total path Hsafe') as [path' H'].
  rewrite H'. f_equal.
  rewrite (optimizeRoute_exact path path' H').
  assert (Hlabels : appearances (map labelOf path) = L).
  { rewrite Hpath at 1. rewrite map_flat_map.
    apply appearances_blocks; [exact Hnd |].
    intros l Hl. split.
    - apply (Permutation_in _ HL) in Hl.
      apply (proj1 (appearances_In _ _)) in Hl.
      apply in_map_iff in Hl. destruct Hl as (x & Hx & Hxin).
      intros Hnil.
      assert (Hmem : In l (map labelOf (filter (labelIs l) items))).
      { apply in_map_iff. exists x. split; [exact Hx |].
        apply filter_In. split; [exact Hxin |].
        unfold labelIs. rewrite Hx. apply String.eqb_refl. }
      rewrite Hnil in Hmem. destruct Hmem.
    - intros y Hy. apply in_map_iff in Hy. destruct Hy as (x & <- & Hx).
      apply filter_In in Hx. destruct Hx as [_ Hx].
      unfold labelIs in Hx. apply String.eqb_eq in Hx. exact Hx. }
  rewrite Hlabels. unfold L at 1. rewrite aisleOrder_fixed. fold L.
  transitivity (flat_map (fun l => filter (labelIs l) items) L);
    [| symmetry; exact Hpath].
  apply flat_map_ext_in. intros l Hl.
  rewrite Hpath.
  apply (filter_groups (labelIs l) l L items).
  - intros x Hx. unfold labelIs in Hx. apply String.eqb_eq in Hx. exact Hx.
  - exact Hnd.
  - exact Hin.
Qed.

Lemma optimizeRoute_idempotent_witness :
  optimizeRoute [soup; beans; bread] = Ok [soup; beans; bread].
Proof.
  apply (optimizeRoute_idempotent [soup; bread; beans]).
  vm_compute. reflexivity.
Defined.

(** ** Items that are not routed *)

Lemma unsorted_routeOf (items : list PantryItem.t) (unsorted : list StoreRoute.t)
    (stores : list string) :
  Forall2 (fun r s =>
             StoreRoute.store r = s /\
             StoreRoute.items r = routeItems items s /\
             optimizeRoute (routeItems items s) = Ok (StoreRoute.optimizedPath r) /\
             StoreRoute.totalItems r = totalQuantity (routeItems items s))
          unsorted stores ->
  unsorted = map (routeOf items) stores.
Proof.
  induction 1 as [| r s unsorted stores (Hs & Hi & Ho & Ht) _ IH]; simpl;
    [reflexivity |].
  rewrite <- IH. f_equal.
  unfold routeOf, pathOf. rewrite Ho.
  destruct r as [store its path total]. simpl in *. congruence.
Qed.

Lemma organizeByStore_routeOf (items : list PantryItem.t)
    (routes : list StoreRoute.t) :
  organizeByStore items = Ok routes ->
  routes = sortWith (Z.ltb 0) byTotalItems
             (map (routeOf items)
                  (filter (fun s => nonEmpty (routeItems items s))
                          (storeOrder items))).
Proof.
  intros H.
  destruct (organizeByStore_unsorted items routes H) as (unsorted & -> & Hf2).
  rewrite (unsorted_routeOf items unsorted _ Hf2). reflexivity.
Qed.

Lemma routeItems_routed (items : list PantryItem.t) (s : string) :
  routeItems (filter routed items) s = routeItems items s.
Proof.
  unfold routeItems. rewrite filter_filter. apply filter_ext. intros x.
  destruct (qualifies s x) eqn:Hq; [| apply andb_false_r].
  rewrite (qualifies_routed s x Hq). reflexivity.
Qed.

Lemma routed_store_iff (items : list PantryItem.t) (s : string) :
  In s (filter (fun s => nonEmpty (routeItems items s)) (storeOrder items))
  <-> exists x, In x items /\ qualifies s x = true.
Proof.
  rewrite filter_In. split.
  - intros [_ Hne]. unfold routeItems in Hne.
    destruct (filter (qualifies s) items) as [| x r] eqn:Hf; [discriminate |].
    assert (Hx : In x (filter (qualifies s) items)) by (rewrite Hf; left; reflexivity).
    apply filter_In in Hx. exists x. exact Hx.
  - intros (x & Hin & Hq). split.
    + apply (firstStore_in_storeOrder items x); [exact Hin |].
      apply qualifies_spec in Hq. tauto.
    + unfold routeItems.
      assert (Hx : In x (filter (qualifies s) items)).
      { apply filter_In. split; assumption. }
      destruct (filter (qualifies s) items); [destruct Hx | reflexivity].
Qed.

(** X21: the items without a price or with a quantity of zero or less
    change no route: the routes of a list are, up to the order of routes,
    the routes of its items that have a price and a positive quantity, and
    both lists of routes are in descending order of their totals, so that
    only routes with equal totals can change places. *)
Theorem unrouted_items_change_no_route (items : list PantryItem.t)
    (routes : list StoreRoute.t) :
  organizeByStore items = Ok routes ->
  exists routes',
    organizeByStore (filter routed items) = Ok routes' /\
    Permutation routes routes' /\
    StronglySorted (fun a b => StoreRoute.totalItems b <= StoreRoute.totalItems a)
                   routes /\
    StronglySorted (fun a b => StoreRoute.totalItems b <= StoreRoute.totalItems a)
                   routes'.
Proof.
  intros H.
  assert (Hsafe : existsb (fun item => routed item && negb (safeLabel item)) items
                  = false).
  { destruct (existsb _ items) eqn:He; [| reflexivity].
    rewrite (organizeByStore_throws items He) in H. discriminate. }
  assert (Hsafe' : existsb (fun item => routed item && negb (safeLabel item))
                           (filter routed items) = false).
  { destruct (existsb _ (filter routed items)) eqn:He; [| reflexivity].
    apply existsb_exists in He. destruct He as (x & Hx & Hu).
    apply filter_In in Hx. destruct Hx as [Hx _].
    assert (Hfalse : existsb (fun item => routed item && negb (safeLabel item))
                             items = true); [| congruence].
    apply existsb_exists. exists x. split; assumption. }
  destruct (organizeByStore_returns _ Hsafe') as [routes' H'].
  exists routes'. split; [exact H' |].
  pose proof (organizeByStore_routeOf items routes H) as Hr.
  pose proof (organizeByStore_routeOf _ routes' H') as Hr'.
  assert (Hsorted : forall l,
             StronglySorted
               (fun a b => StoreRoute.totalItems b <= StoreRoute.totalItems a)
               (sortWith (Z.ltb 0) byTotalItems l)).
  { intros l.
    apply (StronglySorted_weaken
             (fun a b => - StoreRoute.totalItems a <= - StoreRoute.totalItems b)).
    - intros a b Hab. lia.
    - apply (sortWith_sorted (Z.ltb 0) byTotalItems
               (fun r => - StoreRoute.totalItems r) byTotalItems_key). }
  split; [| split; [rewrite Hr; apply Hsorted | rewrite Hr'; apply Hsorted]].
  rewrite Hr, Hr'.
  rewrite <- !sortWith_perm.
  rewrite (map_ext (routeOf (filter routed items)) (routeOf items)).
  - apply Permutation_map.
    apply NoDup_Permutation.
    + apply NoDup_filter. apply appearances_NoDup.
    + apply NoDup_filter. apply appearances_NoDup.
    + intros s.
      rewrite (routed_store_iff items s).
      rewrite (routed_store_iff (filter routed items) s).
      split; intros (x & Hin & Hq).
      * exists x. split; [| exact Hq]. apply filter_In.
        split; [exact Hin | exact (qualifies_routed s x Hq)].
      * exists x. apply filter_In in Hin. tauto.
  - intros s. unfold routeOf. rewrite routeItems_routed. reflexivity.
Qed.

Lemma unrouted_items_change_no_route_witness :
  exists routes',
    organizeByStore (filter routed scenarioItems) = Ok routes' /\
    Permutation
      [StoreRoute.mk "X"
         [listItem "a" "X" (Some "12") 1; listItem "c" "X" (Some "7") 2]
         [listItem "c" "X" (Some "7") 2; listItem "a" "X" (Some "12") 1] 3]
      routes' /\
    StronglySorted (fun a b => StoreRoute.totalItems b <= StoreRoute.totalItems a)
      [StoreRoute.mk "X"
         [listItem "a" "X" (Some "12") 1; listItem "c" "X" (Some "7") 2]
         [listItem "c" "X" (Some "7") 2; listItem "a" "X" (Some "12") 1] 3] /\
    StronglySorted (fun a b => StoreRoute.totalItems b <= StoreRoute.totalItems a)
                   routes'.
Proof.
  apply (unrouted_items_change_no_route scenarioItems).
  vm_compute. reflexivity.
Defined.

(** ** A price text with a separator in it *)

Lemma append_empty_r (s : string) : (s ++ EmptyString)%string = s.
Proof. induction s as [| c s IH]; simpl; [| rewrite IH]; reflexivity. Qed.

Lemma parseFloat_digits_then_stray (ip rest : string) (c0 : ascii) :
  everyChar isDigit ip = true -> ip <> EmptyString -> endsLiteral c0 = true ->
  parseFloat (ip ++ String c0 rest)
  = decimalToNumber false (digitsValue 0 ip) 0.
Proof.
  intros Hd Hne Hc.
  unfold endsLiteral in Hc. apply negb_true_iff in Hc.
  apply orb_false_iff in Hc. destruct Hc as [Hc HE].
  apply orb_false_iff in Hc. destruct Hc as [Hc He].
  apply orb_false_iff in Hc. destruct Hc as [Hdig Hpoint].
  destruct ip as [| d ip']; [contradiction |].
  simpl in Hd. apply andb_true_iff in Hd. destruct Hd as [Hd0 Hd'].
  assert (Hws : isWhiteSpace d = false).
  { revert Hd0. unfold isDigit, isWhiteSpace.
    destruct d as [[] [] [] [] [] [] [] []]; vm_compute; congruence. }
  assert (Hsign : d <> "-"%char /\ d <> "+"%char /\ d <> "I"%char).
  { repeat split; intros ->; vm_compute in Hd0; discriminate. }
  destruct Hsign as (Hminus & Hplus & HI).
  unfold parseFloat. cbn [append trimStart]. rewrite Hws.
  assert (Hun : parseUnsigned false (String d (ip' ++ String c0 rest))
                = decimalToNumber false (digitsValue 0 (String d ip')) 0).
  { unfold parseUnsigned.
    assert (Hinf : startsWith "Infinity" (String d (ip' ++ String c0 rest)) = false).
    { cbn [startsWith]. apply Ascii.eqb_neq in HI.
      rewrite Ascii.eqb_sym, HI. reflexivity. }
    rewrite Hinf.
    change (String d (ip' ++ String c0 rest))
      with ((String d ip') ++ String c0 rest)%string.
    rewrite (spanDigits_app (String d ip') (String c0 rest)).
    - assert (Hr1 : match String c0 rest with
                    | String "." t => spanDigits t
                    | _ => (EmptyString, String c0 rest)
                    end = (EmptyString, String c0 rest)).
      { destruct c0 as [[] [] [] [] [] [] [] []]; try reflexivity.
        vm_compute in Hpoint. discriminate. }
      rewrite Hr1. cbn [truthy orb].
      rewrite append_empty_r.
      cbn [exponentPart]. rewrite He, HE. cbn [orb String.length Z.of_nat].
      reflexivity.
    - simpl. rewrite Hd0, Hd'. reflexivity.
    - simpl. rewrite Hdig. reflexivity. }
  destruct d as [[] [] [] [] [] [] [] []]; try exact Hun;
    try (exfalso; apply Hminus; reflexivity);
    try (exfalso; apply Hplus; reflexivity).
Qed.

(** X22: a price text is read up to the first character that cannot
    continue a decimal literal.  When the text of the price node, trimmed
    and without its first "$", is a run of digits followed by a character
    that is not a digit, a point or an exponent mark (a thousands separator,
    say), the price of the inventory is the number those digits spell, or
    absent when that number is zero; what follows is ignored. *)
Theorem price_cut_at_separator (c : Chain) (storeId barcode : string)
    (w w' : World) (doc : Document) (ip rest : string) (c0 : ascii) :
  axiosGet (productUrl c barcode) w = (Ok (Markup doc), w') ->
  priceTextOf c doc = (ip ++ String c0 rest)%string ->
  everyChar isDigit ip = true -> ip <> EmptyString -> endsLiteral c0 = true ->
  exists inv,
    inventoryAdapter c storeId barcode w = (Ok (Some inv), w') /\
    StoreInventory.price inv
    = orUndefined (decimalToNumber false (digitsValue 0 ip) 0).
Proof.
  intros Hget Htext Hd Hne Hc.
  pose proof (inventoryAdapter_cases c storeId barcode w) as H.
  rewrite Hget in H.
  eexists. split; [exact H |].
  simpl. rewrite Htext.
  rewrite (parseFloat_digits_then_stray ip rest c0 Hd Hne Hc). reflexivity.
Qed.

Lemma price_cut_at_separator_witness :
  exists inv,
    inventoryAdapter walmart "5001" "012345" dearPages
    = (Ok (Some inv), mkWorld (net dearPages) 1) /\
    StoreInventory.price inv
    = orUndefined (decimalToNumber false (digitsValue 0 "1") 0).
Proof.
  apply (price_cut_at_separator walmart "5001" "012345" dearPages
           (mkWorld (net dearPages) 1) (productPage "In stock" "$1,299.00")
           "1" "299.00" ","%char).
  - vm_compute. reflexivity.
  - vm_compute. reflexivity.
  - reflexivity.
  - discriminate.
  - reflexivity.
Defined.
